(** * Video colour-pattern generator: colour filters and pattern generation

    A shallow embedding of [src/utils/colorFilters.ts], of the
    [HexagonalBarcodeGenerator] component and of the upload handler of
    [App], with the properties of the filter pipeline, of the
    dominant-colour extractor, of the generation loop and of the handler.

    JavaScript numbers are IEEE 754 binary64 values; they are modelled by
    Rocq's primitive [float], whose operations are the same binary64
    operations (round to nearest, ties to even).  Strings are sequences of
    8-bit code units ([string]); every string the generator builds is
    ASCII.  Loop counters, which stay far below 2^53, are natural numbers.

    The file has three parts: the embedding of the source (modules [JS],
    [ColorFilters], [Generator], [Component] and [App]); the vocabulary of
    the properties ([Channel] to [Uploads]); the lemmas and the properties
    themselves ([ChannelFacts] to [UploadBehaviour]). *)

Set Warnings "-inexact-float".

From Stdlib Require Import ZArith NArith List Bool Lia String Ascii.
From Stdlib Require Import Floats Uint63 DecimalString DecimalN.
Import ListNotations.

Local Open Scope string_scope.
Local Open Scope Z_scope.

(* ================================================================== *)
(** * JavaScript numbers *)
(* ================================================================== *)

Module JS.

Definition number := float.

(** The Number value of a non-negative mathematical integer (exact below
    2^53, correctly rounded above). *)
Definition ofN (n : N) : number :=
  if (Z.of_N n <? 9007199254740992)%Z
  then PrimFloat.of_uint63 (Uint63.of_Z (Z.of_N n))
  else SF2Prim (binary_normalize prec emax (Z.of_N n) 0 false).

Definition ofZ (z : Z) : number :=
  if (z <? 0)%Z then PrimFloat.opp (ofN (Z.to_N (- z))) else ofN (Z.to_N z).

Definition ofNat (n : nat) : number := ofN (N.of_nat n).

(** [a === b], [a < b], [a > b] on numbers. *)
Definition strict_eq (a b : number) : bool := PrimFloat.eqb a b.
Definition lt (a b : number) : bool := PrimFloat.ltb a b.
Definition gt (a b : number) : bool := PrimFloat.ltb b a.

Definition is_pos_zero (x : number) : bool :=
  match PrimFloat.classify x with PZero => true | _ => false end.
Definition is_neg_zero (x : number) : bool :=
  match PrimFloat.classify x with NZero => true | _ => false end.

(** One iteration of the loop of [Math.max]: [highest] is the running
    maximum, [x] the next argument; +0 is larger than -0. *)
Definition max_step (highest x : number) : number :=
  if is_pos_zero x && is_neg_zero highest then x
  else if PrimFloat.ltb highest x then x else highest.

Definition min_step (lowest x : number) : number :=
  if is_neg_zero x && is_pos_zero lowest then x
  else if PrimFloat.ltb x lowest then x else lowest.

(** [Math.max(a, b, c)] and [Math.min(a, b)]: NaN if any argument is NaN. *)
Definition Math_max3 (a b c : number) : number :=
  if PrimFloat.is_nan a || PrimFloat.is_nan b || PrimFloat.is_nan c then PrimFloat.nan
  else max_step (max_step (max_step PrimFloat.neg_infinity a) b) c.

Definition Math_max (a b : number) : number :=
  if PrimFloat.is_nan a || PrimFloat.is_nan b then PrimFloat.nan
  else max_step (max_step PrimFloat.neg_infinity a) b.

Definition Math_min (a b : number) : number :=
  if PrimFloat.is_nan a || PrimFloat.is_nan b then PrimFloat.nan
  else min_step (min_step PrimFloat.infinity a) b.

(** The mathematical value [floor (v + 1/2)] of a finite non-integral
    binary64 value [v = (-1)^s * m * 2^e] with [e < 0]. *)
Definition round_half_up (s : bool) (m : positive) (e : Z) : Z :=
  let k := - e in
  ((if s then - (2 * Zpos m) else 2 * Zpos m) + 2 ^ k) / 2 ^ (k + 1).

(** [Math.round]: the nearest integer, ties towards +infinity; NaN,
    infinities and zeros are returned unchanged and a result of zero keeps
    the sign of the argument. *)
Definition Math_round (x : number) : number :=
  match Prim2SF x with
  | S754_finite s m e =>
      if (0 <=? e)%Z then x
      else
        let n := round_half_up s m e in
        if (n =? 0)%Z then (if s then PrimFloat.neg_zero else PrimFloat.zero)
        else ofZ n
  | _ => x
  end.

(** [Math.floor] of a finite value, as a mathematical integer. *)
Definition floorZ (x : number) : option Z :=
  match Prim2SF x with
  | S754_zero _ => Some 0
  | S754_finite s m e =>
      let v := if s then Zneg m else Zpos m in
      Some (if (0 <=? e)%Z then v * 2 ^ e else v / 2 ^ (- e))
  | _ => None
  end.

(** The mathematical value of a Number that is an integer. *)
Definition integral (x : number) : option Z :=
  match Prim2SF x with
  | S754_zero _ => Some 0
  | S754_finite s m e =>
      let v := if s then Zneg m else Zpos m in
      if (0 <=? e)%Z then Some (v * 2 ^ e)
      else if (Zpos m mod 2 ^ (- e) =? 0)%Z then Some (v / 2 ^ (- e))
      else None
  | _ => None
  end.

Definition decimal (z : Z) : string := NilEmpty.string_of_int (Z.to_int z).

Section ToString.

(** ECMA-262's [Number::toString] prints a value with the shortest digit
    string that reads back as the same value.  For an integer below 2^53 in
    magnitude that is its decimal expansion; for every other finite value
    the digit generation is left abstract: [toString_digits] stands for
    it. *)
Variable toString_digits : number -> string.

Definition Number_toString (x : number) : string :=
  match Prim2SF x with
  | S754_nan => "NaN"
  | S754_infinity s => if s then "-Infinity" else "Infinity"
  | S754_zero _ => "0"
  | S754_finite _ _ _ =>
      match integral x with
      | Some n => if (Z.abs n <? 2 ^ 53)%Z then decimal n else toString_digits x
      | None => toString_digits x
      end
  end.

End ToString.

(** ** Strings and the regular expression of [parseRGB] *)

Definition is_digit (c : ascii) : bool :=
  let n := N_of_ascii c in ((48 <=? n) && (n <=? 57))%N.

(** [\s] on code units below 256: TAB, LF, VT, FF, CR, space and NBSP. *)
Definition is_space (c : ascii) : bool :=
  let n := N_of_ascii c in
  (((9 <=? n) && (n <=? 13)) || (n =? 32) || (n =? 160))%N.

Fixpoint span (p : ascii -> bool) (s : string) : string * string :=
  match s with
  | EmptyString => (EmptyString, EmptyString)
  | String c s' =>
      if p c then let (a, b) := span p s' in (String c a, b)
      else (EmptyString, s)
  end.

(** [\d+], greedy.  The token that follows in the pattern never starts
    with a digit, so the longest run is the only one that can match. *)
Definition digits1 (s : string) : option (string * string) :=
  match span is_digit s with
  | (EmptyString, _) => None
  | (d, rest) => Some (d, rest)
  end.

(** [\s*], greedy; what follows is [\d+], which no white space starts. *)
Definition spaces (s : string) : string := snd (span is_space s).

Fixpoint literal (p s : string) : option string :=
  match p with
  | EmptyString => Some s
  | String c p' =>
      match s with
      | String c' s' => if Ascii.eqb c c' then literal p' s' else None
      | EmptyString => None
      end
  end.

(** [parseInt] on a non-empty string of decimal digits. *)
Definition digit_value (c : ascii) : N := (N_of_ascii c - 48)%N.

Fixpoint digits_value (acc : N) (s : string) : N :=
  match s with
  | EmptyString => acc
  | String c s' => digits_value (10 * acc + digit_value c)%N s'
  end.

Definition parseInt (digits : string) : number := ofN (digits_value 0%N digits).

End JS.

(* ================================================================== *)
(** * src/utils/colorFilters.ts *)
(* ================================================================== *)

Module ColorFilters.

Import JS.
Local Open Scope float_scope.

(** [FilterType], the ids of the [filters] table of the filter picker. *)
Inductive FilterType :=
| none | frame_based | vibrant | dynamic | contrast | neon | gradient_flow.

Record RGB := mkRGB { r : number; g : number; b : number }.

Definition black : RGB := mkRGB 0 0 0.

(** The first match of [/rgb\((\d+),\s*(\d+),\s*(\d+)\)/] that starts at the
    head of [s]: the three captured digit strings. *)
Definition match_here (s : string) : option (string * string * string) :=
  match literal "rgb(" s with
  | None => None
  | Some s1 =>
  match digits1 s1 with
  | None => None
  | Some (d1, s2) =>
  match literal "," s2 with
  | None => None
  | Some s3 =>
  match digits1 (spaces s3) with
  | None => None
  | Some (d2, s4) =>
  match literal "," s4 with
  | None => None
  | Some s5 =>
  match digits1 (spaces s5) with
  | None => None
  | Some (d3, s6) =>
  match literal ")" s6 with
  | None => None
  | Some _ => Some (d1, d2, d3)
  end end end end end end end.

(** [color.match(...)]: the pattern is not anchored, so the leftmost start
    position at which it matches is taken. *)
Fixpoint color_match (s : string) : option (string * string * string) :=
  match match_here s with
  | Some m => Some m
  | None =>
      match s with
      | EmptyString => None
      | String _ s' => color_match s'
      end
  end.

Definition parseRGB (color : string) : RGB :=
  match color_match color with
  | None => mkRGB 0 0 0
  | Some (d1, d2, d3) => mkRGB (parseInt d1) (parseInt d2) (parseInt d3)
  end.

Definition enhanceVibrance (rgb : RGB) : RGB :=
  let max := Math_max3 (r rgb) (g rgb) (b rgb) in
  if strict_eq max 0 then rgb
  else
    let saturationBoost := 1.3 in
    let minBoost := 0.7 in
    mkRGB
      (Math_min 255 (r rgb * (if strict_eq (r rgb) max then saturationBoost else minBoost)))
      (Math_min 255 (g rgb * (if strict_eq (g rgb) max then saturationBoost else minBoost)))
      (Math_min 255 (b rgb * (if strict_eq (b rgb) max then saturationBoost else minBoost))).

Section Filters.

Variable toString_digits : number -> string.

(** The text of [${Math.round(x)}]. *)
Definition channel_text (x : number) : string :=
  Number_toString toString_digits (Math_round x).

Definition rgbToString (rgb : RGB) : string :=
  "rgb(" ++ channel_text (r rgb) ++ ", " ++ channel_text (g rgb) ++ ", "
         ++ channel_text (b rgb) ++ ")".

Definition applyVibrantFilter (rgb : RGB) : string :=
  let enhanced := enhanceVibrance rgb in
  let brightness := (r enhanced + g enhanced + b enhanced) / (3 * 255) in
  let boost := if lt brightness 0.5 then 1.4 else 1.1 in
  rgbToString (mkRGB
    (Math_min 255 (r enhanced * boost))
    (Math_min 255 (g enhanced * boost))
    (Math_min 255 (b enhanced * boost))).

Definition applyDynamicFilter (rgb : RGB) : string :=
  let brightness := (r rgb + g rgb + b rgb) / (3 * 255) in
  let contrast := if gt brightness 0.5 then 1.3 else 0.8 in
  rgbToString (mkRGB
    (Math_min 255 (Math_max 0 ((r rgb - 128) * contrast + 128)))
    (Math_min 255 (Math_max 0 ((g rgb - 128) * contrast + 128)))
    (Math_min 255 (Math_max 0 ((b rgb - 128) * contrast + 128)))).

Definition applyContrastFilter (rgb : RGB) : string :=
  let threshold := 128 in
  let contrastBoost := 1.4 in
  rgbToString (mkRGB
    (if gt (r rgb) threshold then Math_min 255 (r rgb * contrastBoost) else r rgb / contrastBoost)
    (if gt (g rgb) threshold then Math_min 255 (g rgb * contrastBoost) else g rgb / contrastBoost)
    (if gt (b rgb) threshold then Math_min 255 (b rgb * contrastBoost) else b rgb / contrastBoost)).

Definition applyNeonFilter (rgb : RGB) : string :=
  let max := Math_max3 (r rgb) (g rgb) (b rgb) in
  let neonBoost := 1.5 in
  let secondaryBoost := 0.6 in
  rgbToString (mkRGB
    (if strict_eq (r rgb) max then Math_min 255 (r rgb * neonBoost) else r rgb * secondaryBoost)
    (if strict_eq (g rgb) max then Math_min 255 (g rgb * neonBoost) else g rgb * secondaryBoost)
    (if strict_eq (b rgb) max then Math_min 255 (b rgb * neonBoost) else b rgb * secondaryBoost)).

Definition applyGradientFlow (rgb : RGB) (prev : option RGB) : string :=
  match prev with
  | None => rgbToString (enhanceVibrance rgb)
  | Some prev =>
      let flowFactor := 0.3 in
      let enhanced := enhanceVibrance rgb in
      let enhancedPrev := enhanceVibrance prev in
      rgbToString (mkRGB
        (r enhanced * (1 - flowFactor) + r enhancedPrev * flowFactor)
        (g enhanced * (1 - flowFactor) + g enhancedPrev * flowFactor)
        (b enhanced * (1 - flowFactor) + b enhancedPrev * flowFactor))
  end.

(** [previousColor ? parseRGB(previousColor) : undefined]: the empty
    string is falsy, like [undefined]. *)
Definition parsePrevious (previousColor : option string) : option RGB :=
  match previousColor with
  | None => None
  | Some EmptyString => None
  | Some p => Some (parseRGB p)
  end.

Definition applyColorFilter
    (color : string) (filter : FilterType) (previousColor : option string) : string :=
  let rgb := parseRGB color in
  let prev := parsePrevious previousColor in
  match filter with
  | vibrant => applyVibrantFilter rgb
  | dynamic => applyDynamicFilter rgb
  | frame_based => color
  | contrast => applyContrastFilter rgb
  | neon => applyNeonFilter rgb
  | gradient_flow => applyGradientFlow rgb prev
  | none => color
  end.

End Filters.

End ColorFilters.

(* ================================================================== *)
(** * The HexagonalBarcodeGenerator component *)
(* ================================================================== *)

Module Generator.

Import JS ColorFilters.
Local Open Scope float_scope.

(** A run of the effect of the component is modelled by the events it
    causes: calls of the state setters, what it asks of the video, the
    calls of [applyColorFilter] and what it draws.  The hexagon path and
    its border are left out; so are the guards that precede
    [generatePattern] (no video, no canvas, no 2d context). *)

(** One RGBA pixel of [ImageData.data], a [Uint8ClampedArray] whose length
    is four times the number of pixels. *)
Record Pixel := mkPixel { red : Byte.byte; green : Byte.byte; blue : Byte.byte; alpha : Byte.byte }.

Record ImageData := mkImageData { img_width : nat; img_height : nat; data : list Pixel }.

Definition ofByte (x : Byte.byte) : number := ofN (Byte.to_N x).

(** [r * 0.299 + g * 0.587 + b * 0.114] *)
Definition brightness (p : Pixel) : number :=
  ofByte (red p) * 0.299 + ofByte (green p) * 0.587 + ofByte (blue p) * 0.114.

(** The variables of the scanning loop of [getBrightestColor]. *)
Record Brightest := mkBrightest
  { maxBrightness : number; brightestR : number; brightestG : number; brightestB : number }.

Definition scan_pixel (st : Brightest) (p : Pixel) : Brightest :=
  if gt (brightness p) (maxBrightness st)
  then mkBrightest (brightness p) (ofByte (red p)) (ofByte (green p)) (ofByte (blue p))
  else st.

Definition scan_pixels (pixels : list Pixel) : Brightest :=
  fold_left scan_pixel pixels (mkBrightest 0 0 0 0).

(** The saturation step that follows the scan. *)
Definition saturate (st : Brightest) : RGB :=
  let maxChannel := Math_max3 (brightestR st) (brightestG st) (brightestB st) in
  if gt maxChannel 0 then
    let saturationBoost := 1.2 in
    mkRGB (Math_min 255 (brightestR st * saturationBoost))
          (Math_min 255 (brightestG st * saturationBoost))
          (Math_min 255 (brightestB st * saturationBoost))
  else mkRGB (brightestR st) (brightestG st) (brightestB st).

(** What the environment does with a promise the run awaits. *)
Inductive settled := Fulfilled | Rejected | Never.

(** What follows [video.currentTime = t]: the assignment throws (with the
    given message), or the [seeked] event fires, or it never does. *)
Inductive seek_result := SeekThrows (message : string) | Seeked | SeekNever.

(** The surroundings of one run of the effect.  Suspension 0 is the wait for
    the metadata; suspension [k + 1] is the wait for the seek of cell [k]. *)
Record Env := mkEnv
  { colors : list string;               (* the [colors] state the effect closed over *)
    metadata : settled;                 (* [loadedmetadata] / [error] *)
    tempCtx : bool;                     (* [tempCanvas.getContext('2d')] is not null *)
    duration : number;                  (* [video.duration] *)
    seek : nat -> number -> seek_result;
    capture : number -> nat -> ImageData;   (* the frame at a time, drawn at a size *)
    cleanup_at : option nat }.          (* the suspension during which the cleanup runs *)

Inductive event :=
| SetProgress (p : number)
| SetError (message : string)
| SetColors (cs : list string)
| ClearCanvas
| Suspend (n : nat)
| Cleanup
| Resume (n : nat)
| TestCancelled (value : bool)
| Seek (row col hexIndex : nat) (t : number)
| ApplyColorFilter (index : nat) (color : string) (previousColor : option string) (result : string)
| FillHexagon (x y : number) (fillStyle : string)
| DrawFrame (x y : number) (frame : ImageData).

Definition is_progress (e : event) : bool :=
  match e with SetProgress _ => true | _ => false end.

Definition is_render (e : event) : bool :=
  match e with FillHexagon _ _ _ | DrawFrame _ _ _ => true | _ => false end.

(** The state of a run; [log] holds the events so far, latest first. *)
Record State := mkState
  { cancelled : bool; hexIndex : nat; newColors : list string; log : list event }.

Definition emit (e : event) (st : State) : State :=
  mkState (cancelled st) (hexIndex st) (newColors st) (e :: log st).

Definition emits (es : list event) (st : State) : State :=
  fold_left (fun s e => emit e s) es st.

Inductive outcome :=
| Running (st : State)     (* the loop goes on *)
| Returned (st : State)    (* [generatePattern] has returned *)
| Stuck (st : State).      (* suspended for ever *)

Definition final (o : outcome) : State :=
  match o with Running st | Returned st | Stuck st => st end.

Definition width : number := 1000.
Definition height : number := 600.
Definition hexRadius : number := 40.
Definition hexHeight : number := hexRadius * PrimFloat.sqrt 3.

Definition floor_nat (x : number) : nat :=
  match floorZ x with Some z => Z.to_nat z | None => 0%nat end.

Definition columns : nat := floor_nat (width / (hexRadius * 1.5)).
Definition rows : nat := floor_nat (height / hexHeight).

Section Run.

Variable toString_digits : number -> string.
Variable env : Env.
Variable colorFilter : FilterType.

Definition getBrightestColor (imageData : ImageData) : string :=
  let c := saturate (scan_pixels (data imageData)) in
  "rgb(" ++ channel_text toString_digits (r c) ++ ", "
         ++ channel_text toString_digits (g c) ++ ", "
         ++ channel_text toString_digits (b c) ++ ")".

(** [index > 0 ? colors[index - 1] : undefined], on the captured [colors]. *)
Definition previousColor (index : nat) : option string :=
  match index with
  | O => None
  | S i => nth_error (colors env) i
  end.

Definition drawHexagon (x y size : number) (frameData : ImageData + string) (index : nat)
  : list event :=
  match colorFilter, frameData with
  | frame_based, inl frame => [DrawFrame x y frame]
  | _, _ =>
      let color := match frameData with
                   | inr s => s
                   | inl frame => getBrightestColor frame
                   end in
      let filteredColor :=
        applyColorFilter toString_digits color colorFilter (previousColor index) in
      [ApplyColorFilter index color (previousColor index) filteredColor;
       FillHexagon x y filteredColor]
  end.

(** An [await] at suspension [n]: the cleanup of the effect may run while
    the run is suspended ([cancelled = true], [setColors([])]). *)
Definition suspend (n : nat) (st : State) : State :=
  let st := emit (Suspend n) st in
  match cleanup_at env with
  | Some k =>
      if Nat.eqb k n
      then emit (SetColors [])
             (emit Cleanup (mkState true (hexIndex st) (newColors st) (log st)))
      else st
  | None => st
  end.

Definition tempSize : nat :=
  match colorFilter with frame_based => 128%nat | _ => 32%nat end.

(** The body of the inner loop at [(row, col)], for [totalHexagons] cells. *)
Definition cell (totalHexagons row col : nat) (st : State) : outcome :=
  let st := emit (TestCancelled (cancelled st)) st in
  if cancelled st then Returned st
  else
    let x := ofNat col * hexRadius * 1.5 + hexRadius in
    let y := ofNat row * hexHeight + ofNat (col mod 2) * hexHeight / 2 + hexRadius in
    let t := ofNat (hexIndex st) / ofNat totalHexagons * duration env in
    let st := emit (Seek row col (hexIndex st) t) st in
    match seek env (hexIndex st) t with
    | SeekThrows message => Returned (emit (SetError message) st)
    | SeekNever => Stuck (suspend (S (hexIndex st)) st)
    | Seeked =>
        let st := emit (Resume (S (hexIndex st))) (suspend (S (hexIndex st)) st) in
        let frameData := capture env t tempSize in
        let st :=
          match colorFilter with
          | frame_based =>
              emits (drawHexagon x y hexRadius (inl frameData) (hexIndex st)) st
          | _ =>
              let color := getBrightestColor frameData in
              let st := mkState (cancelled st) (hexIndex st) (newColors st ++ [color]) (log st) in
              emits (drawHexagon x y hexRadius (inr color) (hexIndex st)) st
          end in
        let st := mkState (cancelled st) (S (hexIndex st)) (newColors st) (log st) in
        Running (emit (SetProgress (ofNat (hexIndex st) / ofNat totalHexagons * 100)) st)
    end.

(** [for (let col = ...; col < columns; col++)] with [n] iterations left. *)
Fixpoint forCol (totalHexagons row : nat) (n col : nat) (st : State) : outcome :=
  match n with
  | O => Running st
  | S n' =>
      match cell totalHexagons row col st with
      | Running st' => forCol totalHexagons row n' (S col) st'
      | o => o
      end
  end.

(** [for (let row = ...; row < rows; row++)] with [n] iterations left. *)
Fixpoint forRow (totalHexagons columns : nat) (n row : nat) (st : State) : outcome :=
  match n with
  | O => Running st
  | S n' =>
      match forCol totalHexagons row columns 0 st with
      | Running st' => forRow totalHexagons columns n' (S row) st'
      | o => o
      end
  end.

(** [generatePattern] on a grid of [rows] by [columns] cells. *)
Definition generateGrid (rows columns : nat) : outcome :=
  let st := mkState false 0 [] [] in
  let st := emits [SetProgress 0; SetError ""; SetColors []] st in
  let st := suspend 0 st in
  match metadata env with
  | Never => Stuck st
  | Rejected => Returned (emit (SetError "Error processing video") st)
  | Fulfilled =>
      let st := emit ClearCanvas (emit (Resume 0) st) in
      let totalHexagons := (rows * columns)%nat in
      if negb (tempCtx env)
      then Returned (emit (SetError "Temp canvas context not available") st)
      else
        match forRow totalHexagons columns rows 0 st with
        | Running st =>
            match colorFilter with
            | frame_based => Returned st
            | _ => Returned (emit (SetColors (newColors st)) st)
            end
        | o => o
        end
  end.

Definition generatePattern : outcome := generateGrid rows columns.

(** The events of a run, in the order they happen. *)
Definition trace (o : outcome) : list event := rev (log (final o)).

End Run.

End Generator.

(* ================================================================== *)
(** * What the component shows *)
(* ================================================================== *)

Module Component.

Import JS ColorFilters Generator.
Local Open Scope float_scope.

(** The state hooks [progress], [error] and [colors] of the component. *)
Record Hooks := mkHooks { progress : number; error : string; colors : list string }.

(** [useState(0)], [useState('')], [useState([])]. *)
Definition initial : Hooks := mkHooks 0 "" [].

(** What an event of a run does to the hooks: each setter stores its
    argument. *)
Definition update (h : Hooks) (e : event) : Hooks :=
  match e with
  | SetProgress p => mkHooks p (error h) (colors h)
  | SetError message => mkHooks (progress h) message (colors h)
  | SetColors cs => mkHooks (progress h) (error h) cs
  | _ => h
  end.

(** The hooks after the events [evs], in the order they happen. *)
Definition after (evs : list event) (h : Hooks) : Hooks := fold_left update evs h.

(** What the component returns: the error panel, or the canvas, under an
    overlay with the given text while the pattern is generated. *)
Inductive view :=
| ErrorPanel (message : string)
| Canvas (overlay : option string).

Section Render.

Variable toString_digits : number -> string.

Definition render (h : Hooks) : view :=
  match error h with
  | EmptyString =>
      Canvas (if lt (progress h) 100
              then Some ("Generating pattern... "
                         ++ channel_text toString_digits (progress h) ++ "%")
              else None)
  | message => ErrorPanel message
  end.

End Render.

End Component.

(* ================================================================== *)
(** * The upload handler of [App] *)
(* ================================================================== *)

Module App.

Local Open Scope list_scope.

(** A [File] of the file input: its name, its MIME type and its size in
    bytes (an integer far below 2^53). *)
Record File := mkFile { name : string; type : string; size : N }.

(** The state hooks [videoFile], [videoUrl] and [error] of [App]. *)
Record AppState := mkAppState { videoFile : option File; videoUrl : string; error : string }.

(** The state before any upload: [useState(null)], [useState('')],
    [useState('')]. *)
Definition no_video : AppState := mkAppState None "" "".

(** The calls of the URL API, [createObjectURL] with the URL it returned. *)
Inductive url_call :=
| revokeObjectURL (url : string)
| createObjectURL (file : File) (url : string).

(** [s.startsWith(p)] *)
Definition startsWith (s p : string) : bool := String.prefix p s.

(** [handleFileChange] on the first file of the input, if any; [url] is
    what [URL.createObjectURL] returns if it is called.  The result is the
    state after the handler and the calls it made. *)
Definition handleFileChange (url : string) (file : option File) (h : AppState)
  : AppState * list url_call :=
  match file with
  | None => (h, [])
  | Some file =>
      if negb (startsWith (type file) "video/")
      then (mkAppState None "" "Please upload a valid video file", [])
      else if (100 * 1024 * 1024 <? size file)%N
      then (mkAppState None "" "Video file size must be less than 100MB", [])
      else
        (mkAppState (Some file) url "",
         match videoUrl h with
         | EmptyString => []
         | old => [revokeObjectURL old]
         end ++ [createObjectURL file url])
  end.

End App.

(* ================================================================== *)
(** * Colour channels: the integers 0..255 *)
(* ================================================================== *)

Module Channel.

Import JS ColorFilters.
Local Open Scope float_scope.

(** The Number of an integer channel value, as [parseInt] yields it. *)
Definition chan (z : Z) : number := ofN (Z.to_N z).

(** The colour string [rgb(cr, cg, cb)] of three integers. *)
Definition css (cr cg cb : Z) : string :=
  "rgb(" ++ decimal cr ++ ", " ++ decimal cg ++ ", " ++ decimal cb ++ ")".

(** A channel value. *)
Definition in_range (z : Z) : Prop := (0 <= z <= 255)%Z.

(** All channel values, 0 to 255. *)
Definition channels : list Z := Eval vm_compute in map Z.of_nat (List.seq 0 256).

(** The integer that [Math.round x] is, when it is one. *)
Definition rounded (x : number) : option Z :=
  match Prim2SF (Math_round x) with
  | S754_zero _ | S754_finite _ _ _ => integral (Math_round x)
  | _ => None
  end.

(** [x] rounds to the integer [n], a channel value. *)
Definition rounds_to (x : number) (n : Z) : bool :=
  match rounded x with
  | Some k => (k =? n)%Z && (0 <=? k)%Z && (k <=? 255)%Z
  | None => false
  end.

(** [x] rounds to some channel value. *)
Definition in_gamut (x : number) : bool :=
  match rounded x with
  | Some k => (0 <=? k)%Z && (k <=? 255)%Z
  | None => false
  end.

(** The three shapes a channel of [enhanceVibrance rgb] can take: left as
    it is (black input), boosted, or damped. *)
Definition pushed (z : Z) (shape : nat) : number :=
  match shape with
  | 0%nat => chan z
  | 1%nat => Math_min 255 (chan z * 1.3)
  | _ => Math_min 255 (chan z * 0.7)
  end.

(** [0 <= x && x <= 255] on Numbers. *)
Definition between (x : number) : bool := PrimFloat.leb 0 x && PrimFloat.leb x 255.

(** The blend of gradient-flow on one channel. *)
Definition flow (x p : number) : number := x * (1 - 0.3) + p * 0.3.

(** Every character is a decimal digit. *)
Fixpoint all_digits (s : string) : bool :=
  match s with
  | EmptyString => true
  | String c s' => is_digit c && all_digits s'
  end.

(** A non-empty run of decimal digits. *)
Definition numeral (s : string) : bool :=
  match s with
  | EmptyString => false
  | String _ _ => all_digits s
  end.

End Channel.

(* ================================================================== *)
(** * What the filters do to a channel, in integers *)
(* ================================================================== *)

Module Spec.

Import JS ColorFilters Channel.

(** The contrast filter on one channel, following its description: above
    128 times 1.4 and clamped at 255, otherwise divided by 1.4; then
    rounded to the nearest integer. *)
Definition contrast_channel (z : Z) : Z :=
  if (128 <? z)%Z then Z.min 255 ((14 * z + 5) / 10) else (10 * z + 7) / 14.

(** The neon filter on one channel of a colour whose largest channel is
    [m]: times 1.5 and clamped at 255 when it is the largest, else times
    0.6; then rounded (a half rounds up). *)
Definition neon_channel (m z : Z) : Z :=
  if (z =? m)%Z then Z.min 255 ((3 * z + 1) / 2) else (6 * z + 5) / 10.

(** The largest of three channel values. *)
Definition max3 (cr cg cb : Z) : Z := Z.max (Z.max cr cg) cb.

(** A stand-in for the digit generation that [Number_toString] leaves
    abstract, for evaluating the filters on concrete colours. *)
Definition no_digits : number -> string := fun _ => EmptyString.

(** A colour string whose three channels are integers in 0..255. *)
Definition gamut_color (s : string) : Prop :=
  exists cr cg cb, in_range cr /\ in_range cg /\ in_range cb /\ s = css cr cg cb.

(** A colour whose three channels are integers in 0..255. *)
Definition integer_rgb (c : RGB) : Prop :=
  exists cr cg cb,
    in_range cr /\ in_range cg /\ in_range cb /\ c = mkRGB (chan cr) (chan cg) (chan cb).

(** A string that [parseRGB] reads as a colour with channels in 0..255. *)
Definition channels_in_range (s : string) : Prop := integer_rgb (parseRGB s).

(** A colour whose saturation-pushed value is RGB(200, 50, 50). *)
Definition pushed_candidate : RGB :=
  mkRGB (200 / 1.3)%float (50 / 0.7)%float (50 / 0.7)%float.

End Spec.

(* ================================================================== *)
(** * The order of binary64 values *)
(* ================================================================== *)

Module FloatOrder.

Import JS.

(** A key whose lexicographic order is the order of the values. *)
Definition key (x : spec_float) : Z * Z * Z :=
  match x with
  | S754_zero _ => (0, 0, 0)
  | S754_infinity s => (if s then -2 else 2, 0, 0)
  | S754_nan => (0, 0, 0)
  | S754_finite s m e => if s then (-1, - e, Zneg m) else (1, e, Zpos m)
  end.

(** Lexicographic order on keys. *)
Definition key_lt (a c : Z * Z * Z) : Prop :=
  let '(a1, a2, a3) := a in
  let '(c1, c2, c3) := c in
  a1 < c1 \/ (a1 = c1 /\ (a2 < c2 \/ (a2 = c2 /\ a3 < c3))).

(** A value that is not NaN. *)
Definition is_number (x : spec_float) : Prop := x <> S754_nan.

(** A Number that is not NaN. *)
Definition is_num (x : number) : Prop := Prim2SF x <> S754_nan.

End FloatOrder.

(* ================================================================== *)
(** * The dominant-colour extractor *)
(* ================================================================== *)

Module Extractor.

Import JS ColorFilters Generator Channel.
Local Open Scope float_scope.

(** The three terms of the luminance of a pixel. *)
Definition termR (z : Z) : number := chan z * 0.299.
Definition termG (z : Z) : number := chan z * 0.587.
Definition termB (z : Z) : number := chan z * 0.114.

(** The sum of three terms is above zero, unless all three are zero. *)
Definition lit (x y z : number) : bool :=
  PrimFloat.ltb 0 (x + y + z)
  || (PrimFloat.eqb x 0 && PrimFloat.eqb y 0 && PrimFloat.eqb z 0).

(** The values the three terms take. *)
Definition tableR : list number := Eval vm_compute in map termR channels.
Definition tableG : list number := Eval vm_compute in map termG channels.
Definition tableB : list number := Eval vm_compute in map termB channels.

(** The value of a byte of pixel data. *)
Definition byteZ (x : Byte.byte) : Z := Z.of_N (Byte.to_N x).

(** The pixel is black: red, green and blue are 0. *)
Definition is_black (p : Pixel) : bool :=
  Byte.eqb (red p) Byte.x00 && Byte.eqb (green p) Byte.x00 && Byte.eqb (blue p) Byte.x00.

(** The colour reported for the brightest pixel [p]: its channels, each
    multiplied by 1.2 and clamped to 255 unless [p] is black. *)
Definition boosted (p : Pixel) : RGB :=
  if is_black p
  then mkRGB (ofByte (red p)) (ofByte (green p)) (ofByte (blue p))
  else mkRGB (Math_min 255 (ofByte (red p) * 1.2))
             (Math_min 255 (ofByte (green p) * 1.2))
             (Math_min 255 (ofByte (blue p) * 1.2)).

(** What the scanning loop has established after the pixels [seen]. *)
Definition scanned (seen : list Pixel) (st : Brightest) : Prop :=
  (forall q, In q seen -> gt (brightness q) (maxBrightness st) = false)
  /\ (st = mkBrightest 0 0 0 0
      \/ exists k p,
           nth_error seen k = Some p
           /\ st = mkBrightest (brightness p) (ofByte (red p)) (ofByte (green p))
                              (ofByte (blue p))
           /\ gt (brightness p) 0 = true
           /\ forall j q, (j < k)%nat -> nth_error seen j = Some q ->
                          lt (brightness q) (brightness p) = true).

End Extractor.

(* ================================================================== *)
(** * The generation loop and its events *)
(* ================================================================== *)

Module Loop.

Import JS ColorFilters Generator.
Local Open Scope nat_scope.
Local Open Scope list_scope.

(** The cells of a grid, in the order the nested loops visit them. *)
Definition grid (rows columns : nat) : list (nat * nat) :=
  flat_map (fun row => map (pair row) (List.seq 0 columns)) (List.seq 0 rows).

(** The [Seek] events of a list of events: row, column, index and time. *)
Definition seeks (evs : list event) : list (nat * nat * nat * number) :=
  flat_map (fun e => match e with
                     | Seek row col i t => [(row, col, i, t)]
                     | _ => []
                     end) evs.




Section Cells.

Variable toString_digits : number -> string.
Variable env : Env.
Variable colorFilter : FilterType.
Variable totalHexagons : nat.

Local Abbreviation cell := (cell toString_digits env colorFilter totalHexagons).

(** The loop body over a list of cells. *)
Fixpoint run_cells (cells : list (nat * nat)) (st : State) : outcome :=
  match cells with
  | [] => Running st
  | (row, col) :: cells' =>
      match cell row col st with
      | Running st' => run_cells cells' st'
      | o => o
      end
  end.

End Cells.

End Loop.

Module Cell.

Import JS ColorFilters Generator Loop.
Local Open Scope nat_scope.
Local Open Scope list_scope.

Section OneRun.

Variable toString_digits : number -> string.
Variable env : Env.
Variable colorFilter : FilterType.
Variable totalHexagons : nat.

Local Abbreviation getBrightestColor := (getBrightestColor toString_digits).
Local Abbreviation drawHexagon := (drawHexagon toString_digits env colorFilter).

(** The cleanup runs during suspension [n]. *)
Definition cleanup_now (n : nat) : bool :=
  match cleanup_at env with Some k => Nat.eqb k n | None => false end.

(** The events of suspension [n]. *)
Definition suspended (n : nat) : list event :=
  Suspend n :: (if cleanup_now n then [Cleanup; SetColors []] else []).

(** The time at which the cell of index [i] is sampled. *)
Definition sample_time (i : nat) : number :=
  (ofNat i / ofNat totalHexagons * duration env)%float.

(** The centre of the hexagon at [(row, col)]. *)
Definition cell_x (col : nat) : number :=
  (ofNat col * hexRadius * 1.5 + hexRadius)%float.

Definition cell_y (row col : nat) : number :=
  (ofNat row * hexHeight + ofNat (col mod 2) * hexHeight / 2 + hexRadius)%float.

(** What is drawn for the cell of index [i] at [(row, col)]. *)
Definition cell_drawing (row col i : nat) : list event :=
  let frameData := capture env (sample_time i) (tempSize colorFilter) in
  match colorFilter with
  | frame_based => drawHexagon (cell_x col) (cell_y row col) hexRadius (inl frameData) i
  | _ => drawHexagon (cell_x col) (cell_y row col) hexRadius
           (inr (getBrightestColor frameData)) i
  end.

(** The events of the loop body at [(row, col)], started in state [st]. *)
Definition cell_events (row col : nat) (st : State) : list event :=
  if cancelled st then [TestCancelled true]
  else
    let i := hexIndex st in
    [TestCancelled false; Seek row col i (sample_time i)]
    ++ match seek env i (sample_time i) with
       | SeekThrows message => [SetError message]
       | SeekNever => suspended (S i)
       | Seeked =>
           suspended (S i) ++ [Resume (S i)] ++ cell_drawing row col i
           ++ [SetProgress (ofNat (S i) / ofNat totalHexagons * 100)%float]
       end.

End OneRun.

End Cell.

Module Run.

Import JS ColorFilters Generator Loop Cell.
Local Open Scope nat_scope.
Local Open Scope list_scope.

(** The events outside the loop body. *)
Definition plain (e : event) : Prop :=
  match e with
  | SetProgress _ | SetError _ | SetColors _ | ClearCanvas
  | Suspend 0 | Cleanup | Resume _ => True
  | _ => False
  end.

Section OneRun.

Variable toString_digits : number -> string.
Variable env : Env.
Variable colorFilter : FilterType.
Variables rows columns : nat.

Local Abbreviation totalHexagons := (rows * columns).

(** The state in which the loops start. *)
Definition start : State :=
  mkState (cleanup_now env 0) 0 []
    (ClearCanvas :: Resume 0 :: rev (suspended env 0)
       ++ [SetColors []; SetError ""%string; SetProgress 0%float]).

(** What [generatePattern] does after the loops. *)
Definition finish (st : State) : State :=
  match colorFilter with
  | frame_based => st
  | _ => emit (SetColors (newColors st)) st
  end.

(** The sample of the cell of index [i]: row, column, index, time. *)
Definition sample (i : nat) : nat * nat * nat * number :=
  (i / columns, i mod columns, i, sample_time env totalHexagons i).

(** The call of the filter pipeline for the cell of index [i]. *)
Definition call (i : nat) : nat * string * option string * string :=
  let color := getBrightestColor toString_digits
                 (capture env (sample_time env totalHexagons i) 32) in
  (i, color, previousColor env i,
   applyColorFilter toString_digits color colorFilter (previousColor env i)).

(** The colours extracted for the cells of index below [n]. *)
Definition raw_colors (n : nat) : list string :=
  match colorFilter with
  | frame_based => []
  | _ => map (fun i => getBrightestColor toString_digits
                         (capture env (sample_time env totalHexagons i) 32))
             (List.seq 0 n)
  end.

(** The calls for the cells of index below [n]; none in frame-based mode. *)
Definition calls_upto (n : nat) : list (nat * string * option string * string) :=
  match colorFilter with
  | frame_based => []
  | _ => map call (List.seq 0 n)
  end.

(** The calls of [applyColorFilter] among some events, with the colour. *)
Definition filter_calls (evs : list event) : list (nat * string * option string * string) :=
  flat_map (fun e => match e with
                     | ApplyColorFilter i c p out => [(i, c, p, out)]
                     | _ => []
                     end) evs.

(** Before the cell of index [k]. *)
Definition visited (k : nat) (st : State) : Prop :=
  hexIndex st = k
  /\ seeks (rev (log st)) = map sample (List.seq 0 k)
  /\ filter_calls (rev (log st)) = calls_upto k.

(** When the run has left the loop. *)
Definition visited_some (o : outcome) : Prop :=
  exists n m,
    m <= n <= rows * columns
    /\ seeks (rev (log (final o))) = map sample (List.seq 0 n)
    /\ filter_calls (rev (log (final o))) = calls_upto m.

End OneRun.

End Run.

(* ================================================================== *)
(** * Example runs, and the properties as first stated *)
(* ================================================================== *)

Module Scenario.

Import JS ColorFilters Generator Loop Cell Run.
Local Open Scope list_scope.

(** Two pixels: RGB(200, 50, 10) and RGB(0, 0, 80). *)
Definition orange : Pixel := mkPixel Byte.xc8 Byte.x32 Byte.x0a Byte.xff.
Definition navy : Pixel := mkPixel Byte.x00 Byte.x00 Byte.x50 Byte.xff.

(** A frame of one colour. *)
Definition uniform (size : nat) (p : Pixel) : ImageData :=
  mkImageData size size (repeat p (size * size)).

(** A ten-second video that is orange throughout; every seek settles. *)
Definition first_run : Env :=
  mkEnv [] Fulfilled true 10%float (fun _ _ => Seeked)
        (fun _ size => uniform size orange) None.

(** The same video, in an effect that closed over the [colors] an earlier
    run left behind. *)
Definition later_run : Env :=
  mkEnv (repeat "rgb(0, 0, 96)"%string 128) Fulfilled true 10%float (fun _ _ => Seeked)
        (fun _ size => uniform size orange) None.

(** The same video; the cleanup runs while the seek of cell 0 is awaited,
    and the seek settles all the same. *)
Definition cancelled_run : Env :=
  mkEnv [] Fulfilled true 10%float (fun _ _ => Seeked)
        (fun _ size => uniform size orange) (Some 1%nat).

(** A frame whose second pixel is the brightest, twice. *)
Definition two_tone : ImageData :=
  mkImageData 2 2 [navy; orange; orange; navy].

(** C1 as stated: the previous-colour argument of each call after the
    first is the result of the call before it. *)
Definition previous_is_last_output
    (calls : list (nat * string * option string * string)) : Prop :=
  forall i c p out c0 p0 out0,
    nth_error calls (S i) = Some (S i, c, p, out) ->
    nth_error calls i = Some (i, c0, p0, out0) ->
    p = Some out0.



End Scenario.

(* ================================================================== *)
(** * Luminance as the claim states it *)
(* ================================================================== *)

Module Luminance.

Import JS ColorFilters Generator Channel Extractor.
Local Open Scope list_scope.

(** A thousand times the luminance 0.299 R + 0.587 G + 0.114 B of a pixel:
    an integer. *)
Definition exact_luminance (p : Pixel) : Z :=
  299 * byteZ (red p) + 587 * byteZ (green p) + 114 * byteZ (blue p).

(** The pixel [p], at position [k] of the scan, has the largest luminance of
    the frame and is the first pixel with that luminance. *)
Definition first_brightest (pixels : list Pixel) (k : nat) (p : Pixel) : Prop :=
  nth_error pixels k = Some p
  /\ (forall q, In q pixels -> (exact_luminance q <= exact_luminance p)%Z)
  /\ (forall j q, (j < k)%nat -> nth_error pixels j = Some q ->
                  (exact_luminance q < exact_luminance p)%Z).

(** C4 as stated: the extractor returns the colour of the first pixel of
    largest luminance, each channel multiplied by 1.2 and clamped to 255
    unless the pixel is black. *)
Definition returns_first_brightest
    (toString_digits : number -> string) (imageData : ImageData) : Prop :=
  forall k p,
    first_brightest (data imageData) k p ->
    getBrightestColor toString_digits imageData
    = rgbToString toString_digits (boosted p).

(** Two pixels of the same luminance 18.539: RGB(0, 31, 3) and
    RGB(1, 0, 160). *)
Definition moss : Pixel := mkPixel Byte.x00 Byte.x1f Byte.x03 Byte.xff.
Definition indigo : Pixel := mkPixel Byte.x01 Byte.x00 Byte.xa0 Byte.xff.

(** A frame of the two, in either order. *)
Definition moss_first : ImageData := mkImageData 2 1 [moss; indigo].
Definition indigo_first : ImageData := mkImageData 2 1 [indigo; moss].

End Luminance.

(* ================================================================== *)
(** * The other filters and the extractor, in integers *)
(* ================================================================== *)

Module Integers.

Import JS ColorFilters Generator Channel Spec.
Local Open Scope float_scope.

(** Every character is white space. *)
Fixpoint all_space (s : string) : bool :=
  match s with
  | EmptyString => true
  | String c s' => is_space c && all_space s'
  end.

(** The integers 0..510, the sums of two channel values. *)
Definition sums : list Z := Eval vm_compute in map Z.of_nat (List.seq 0 511).

(** The dynamic filter on one channel: in a bright colour 1.3 c - 38.4,
    clamped to 0..255, in a dark one 0.8 c + 25.6; then rounded. *)
Definition dynamic_channel (bright : bool) (z : Z) : Z :=
  if bright then Z.min 255 (Z.max 0 ((13 * z - 379) / 10)) else (8 * z + 261) / 10.

(** The saturation boost of the extractor on one channel: times 1.2,
    clamped to 255, rounded. *)
Definition boost_channel (z : Z) : Z := Z.min 255 ((12 * z + 5) / 10).

(** [x] rounds to a channel value that is at least [z]. *)
Definition raised (z : Z) (x : number) : bool :=
  match rounded x with
  | Some k => (z <=? k)%Z && (k <=? 255)%Z
  | None => false
  end.

(** [x] rounds to a channel value that is at most [z]. *)
Definition lowered (z : Z) (x : number) : bool :=
  match rounded x with
  | Some k => (0 <=? k)%Z && (k <=? z)%Z
  | None => false
  end.

(** [x] and [y] round to channel values, that of [x] at most that of [y]. *)
Definition dimmer (x y : number) : bool :=
  match rounded x, rounded y with
  | Some k, Some n => (0 <=? k)%Z && (k <=? n)%Z && (n <=? 255)%Z
  | _, _ => false
  end.

(** The red, green and blue bytes of a pixel. *)
Definition rgb_bytes (p : Pixel) : Byte.byte * Byte.byte * Byte.byte :=
  (red p, green p, blue p).

(** In a colour whose largest channel is [m], the channel [z] becomes [n]:
    a largest channel is not lowered, another one is not raised. *)
Definition stretched (m z n : Z) : Prop :=
  in_range n /\ (z = m -> z <= n)%Z /\ (z <> m -> n <= z)%Z.

(** The channel [z] becomes [n], further from the threshold 128 or as far. *)
Definition spread (z n : Z) : Prop :=
  in_range n /\ (z <= 128 -> n <= z)%Z /\ (128 < z -> z <= n)%Z.

End Integers.

(* ================================================================== *)
(** * What shows of a run, and how a run ends *)
(* ================================================================== *)

Module Page.

Import JS ColorFilters Generator Loop Cell Run.
Local Open Scope nat_scope.
Local Open Scope list_scope.

(** The events that show on the page: progress updates and render calls. *)
Definition visible (e : event) : bool := is_progress e || is_render e.

Definition is_error (e : event) : bool :=
  match e with SetError _ => true | _ => false end.

Definition is_cleanup (e : event) : bool :=
  match e with Cleanup => true | _ => false end.

(** The events by which the run goes to the video: the assignment of a
    time and the waits. *)
Definition is_wait (e : event) : bool :=
  match e with Seek _ _ _ _ | Suspend _ => true | _ => false end.

(** Every [setColors] among the events stores the empty array. *)
Definition stores_nothing (evs : list event) : Prop :=
  forall cs, In (SetColors cs) evs -> cs = [].

(** The square that [drawHexagon] draws a frame into, centred on the
    hexagon: [drawImage(frameCanvas, x - size, y - size, size * 2, size * 2)];
    it holds the hexagon.  The square lies within the canvas. *)
Definition square_inside (x y : number) : bool :=
  (PrimFloat.leb 0 (x - hexRadius)
   && PrimFloat.leb (x - hexRadius + hexRadius * 2) width
   && PrimFloat.leb 0 (y - hexRadius)
   && PrimFloat.leb (y - hexRadius + hexRadius * 2) height)%float.

Definition inside (e : event) : bool :=
  match e with
  | FillHexagon x y _ | DrawFrame x y _ => square_inside x y
  | _ => true
  end.

(** The indices of the cells of [generatePattern], 0..127, and the numbers
    of cells done, 0..128. *)
Definition indices : list nat := Eval vm_compute in List.seq 0 128.

Section OneRun.

Variable toString_digits : number -> string.
Variable env : Env.
Variable colorFilter : FilterType.
Variables rows columns : nat.

Local Abbreviation totalHexagons := (rows * columns).

(** The state in which the run waits for the metadata of the video. *)
Definition waiting : State :=
  mkState (cleanup_now env 0) 0 []
    (rev (suspended env 0) ++ [SetColors []; SetError ""%string; SetProgress 0%float]).

(** The render call for the cell of index [i]. *)
Definition drawn (i : nat) : event :=
  let x := cell_x (i mod columns) in
  let y := cell_y (i / columns) (i mod columns) in
  let t := sample_time env totalHexagons i in
  match colorFilter with
  | frame_based => DrawFrame x y (capture env t 128)
  | _ => FillHexagon x y
           (applyColorFilter toString_digits
              (getBrightestColor toString_digits (capture env t 32))
              colorFilter (previousColor env i))
  end.

(** The progress reported after [i] cells. *)
Definition percent (i : nat) : number := (ofNat i / ofNat totalHexagons * 100)%float.

(** What shows of the cells of index [a] to [a + n - 1]. *)
Definition pairs (a n : nat) : list event :=
  flat_map (fun i => [drawn i; SetProgress (percent (S i))]) (List.seq a n).

(** What shows of a run that goes through [n] cells. *)
Definition shown (n : nat) : list event := SetProgress 0%float :: pairs 0 n.

(** Why a run sets the error message [m]. *)
Definition failure (m : string) : Prop :=
  (metadata env = Rejected /\ m = "Error processing video"%string)
  \/ (metadata env = Fulfilled /\ tempCtx env = false
      /\ m = "Temp canvas context not available"%string)
  \/ exists i t, seek env i t = SeekThrows m.

(** The run goes through every cell: the metadata arrive, the temporary
    canvas has a context, every seek settles and no cleanup runs. *)
Definition undisturbed : Prop :=
  metadata env = Fulfilled /\ tempCtx env = true
  /\ cleanup_at env = None /\ forall i t, seek env i t = Seeked.

End OneRun.

End Page.

Module Errors.

Import JS ColorFilters Generator Page.
Local Open Scope list_scope.

(** No event of the list sets an error message. *)
Definition quiet (evs : list event) : bool := forallb (fun e => negb (is_error e)) evs.


(** The latest error message among some events, [d] if there is none. *)
Definition last_error (evs : list event) (d : string) : string :=
  fold_left (fun d e => match e with SetError m => m | _ => d end) evs d.

End Errors.

Module Aftermath.

Import JS ColorFilters Generator Page.
Local Open Scope nat_scope.
Local Open Scope list_scope.

(** The cleanup is not among the events. *)
Definition no_cleanup (evs : list event) : bool := forallb (fun e => negb (is_cleanup e)) evs.

(** An event that neither goes to the video nor shows on the page. *)
Definition idle (e : event) : bool :=
  negb (is_cleanup e || is_wait e || is_render e || is_progress e).

(** What a run may still do once the cleanup has run: no further seek and
    no further wait, at most one render call and one progress update. *)
Definition winding_down (evs : list event) : bool :=
  forallb (fun e => negb (is_cleanup e || is_wait e)) evs
  && (List.length (filter is_render evs) <=? 1)
  && (List.length (filter is_progress evs) <=? 1).

(** Every [setColors] among the events stores the empty array. *)
Definition empties (evs : list event) : bool :=
  forallb (fun e => match e with SetColors (_ :: _) => false | _ => true end) evs.

(** The events are split by the one cleanup among them, after which the run
    winds down. *)
Definition cleaned (evs : list event) : Prop :=
  exists a b, evs = a ++ Cleanup :: b /\ no_cleanup a = true /\ winding_down b = true.

End Aftermath.

(* ================================================================== *)
(** * The hooks, shared by the runs of the effect *)
(* ================================================================== *)

Module Shared.

Import JS ColorFilters Generator Page Scenario.
Local Open Scope list_scope.

(** The hooks of the component are shared by all the runs of its effect,
    and the setters of a run still work after its cleanup.  The events that
    reach the hooks while a run goes on are those of the run, tagged
    [true], interleaved with those of earlier runs, tagged [false]. *)
Definition own (l : list (bool * event)) : list event := map snd (filter fst l).

Definition everything (l : list (bool * event)) : list event := map snd l.

(** Whose the latest event of kind [p] is, if there is one: [true] for the
    run at hand. *)
Definition latest (p : event -> bool) (l : list (bool * event)) : option bool :=
  fold_left (fun o x => if p (snd x) then Some (fst x) else o) l None.

(** The events of a run that follow its cleanup. *)
Fixpoint since_cleanup (t : list event) : list event :=
  match t with
  | [] => []
  | Cleanup :: rest => rest
  | _ :: rest => since_cleanup rest
  end.

(** The orange video; the cleanup runs while the seek of the last cell,
    of index 127, is awaited, and the seek settles all the same. *)
Definition interrupted_run : Env :=
  mkEnv [] Fulfilled true 10%float (fun _ _ => Seeked)
        (fun _ size => uniform size orange) (Some 128%nat).

(** The effect runs again after [interrupted_run]: the cleanup stores the
    empty array, the new run starts and waits for the metadata, and then the
    seek of the earlier run settles. *)
Definition overtaken : list (bool * event) :=
  let earlier := since_cleanup (trace (generatePattern Spec.no_digits interrupted_run neon)) in
  let later := trace (generatePattern Spec.no_digits first_run neon) in
  map (pair false) (firstn 1 earlier)
  ++ map (pair true) (firstn 4 later)
  ++ map (pair false) (skipn 1 earlier).


End Shared.

(* ================================================================== *)
(** * Sequences of uploads *)
(* ================================================================== *)

Module Uploads.

Import App.
Local Open Scope list_scope.

(** A sequence of changes of the file input, each with the URL at hand for
    it, from the state [h]. *)
Fixpoint changes (evs : list (option File * string)) (h : AppState) : AppState * list url_call :=
  match evs with
  | [] => (h, [])
  | (file, url) :: evs' =>
      let (h1, calls1) := handleFileChange url file h in
      let (h2, calls2) := changes evs' h1 in
      (h2, calls1 ++ calls2)
  end.

(** The URLs at hand for a sequence of changes. *)
Definition urls (evs : list (option File * string)) : list string := map snd evs.

(** The URLs that the calls revoked, and those they created. *)
Definition revoked (calls : list url_call) : list string :=
  flat_map (fun c => match c with revokeObjectURL u => [u] | _ => [] end) calls.

Definition created (calls : list url_call) : list string :=
  flat_map (fun c => match c with createObjectURL _ u => [u] | _ => [] end) calls.

(** A video type: "video/" followed by anything. *)
Definition video_type (t : string) : Prop := exists rest, t = ("video/" ++ rest)%string.

(** 100 MiB in bytes. *)
Definition size_limit : N := 104857600.

(** Four changes of the file input: a video, a text file, two more videos. *)
Definition four_changes : list (option File * string) :=
  [(Some (mkFile "a.mp4" "video/mp4" 1000), "blob:1"%string);
   (Some (mkFile "b.txt" "text/plain" 10), "blob:2"%string);
   (Some (mkFile "c.webm" "video/webm" 2000), "blob:3"%string);
   (Some (mkFile "d.mp4" "video/mp4" 3000), "blob:4"%string)].

End Uploads.

(* ================================================================== *)
(** * Enumerating the channel values *)
(* ================================================================== *)

Module ChannelFacts.

Import JS ColorFilters Channel.
Local Open Scope float_scope.

Lemma channels_complete (z : Z) : in_range z -> In z channels.
Proof.
  intros [Hlo Hhi].
  assert (E : channels = map Z.of_nat (List.seq 0 256)) by (vm_compute; reflexivity).
  rewrite E, <- (Z2Nat.id z) by exact Hlo.
  apply in_map, in_seq. lia.
Qed.

Lemma forall_channels (P : Z -> bool) :
  forallb P channels = true -> forall z, in_range z -> P z = true.
Proof.
  intros H z Hz. rewrite forallb_forall in H. apply H, channels_complete, Hz.
Qed.

Lemma forall_channels2 (P : Z -> Z -> bool) :
  forallb (fun a => forallb (P a) channels) channels = true ->
  forall a c, in_range a -> in_range c -> P a c = true.
Proof.
  intros H a c Ha Hc.
  apply (forall_channels (P a)); [| exact Hc].
  apply (forall_channels (fun a => forallb (P a) channels)); assumption.
Qed.

Lemma rounds_to_gamut (x : number) (n : Z) : rounds_to x n = true -> in_gamut x = true.
Proof.
  unfold rounds_to, in_gamut. destruct (rounded x); [| discriminate].
  intros H. apply andb_true_iff in H as [H H2]. apply andb_true_iff in H as [_ H1].
  rewrite H1, H2. reflexivity.
Qed.

Section Text.

Variable toString_digits : number -> string.

Lemma rounded_text (x : number) (k : Z) :
  rounded x = Some k -> (Z.abs k < 2 ^ 53)%Z ->
  channel_text toString_digits x = decimal k.
Proof.
  unfold rounded, channel_text, Number_toString. intros H Hk.
  destruct (Prim2SF (Math_round x)) eqn:E; try discriminate.
  - unfold integral in H. rewrite E in H. injection H as <-. reflexivity.
  - rewrite H. apply Z.ltb_lt in Hk. rewrite Hk. reflexivity.
Qed.

Lemma rounds_to_text (x : number) (n : Z) :
  rounds_to x n = true -> channel_text toString_digits x = decimal n /\ in_range n.
Proof.
  unfold rounds_to. destruct (rounded x) as [k|] eqn:E; [| discriminate].
  intros H. apply andb_true_iff in H as [H Hhi]. apply andb_true_iff in H as [Heq Hlo].
  apply Z.eqb_eq in Heq. apply Z.leb_le in Hlo, Hhi. subst k.
  split; [| split; assumption].
  apply rounded_text; [exact E |]. change (2 ^ 53)%Z with 9007199254740992%Z. lia.
Qed.

Lemma in_gamut_text (x : number) :
  in_gamut x = true -> exists n, in_range n /\ channel_text toString_digits x = decimal n.
Proof.
  unfold in_gamut. destruct (rounded x) as [k|] eqn:E; [| discriminate].
  intros H. exists k.
  assert (R : rounds_to x k = true).
  { unfold rounds_to. rewrite E, Z.eqb_refl. exact H. }
  apply rounds_to_text in R as [R1 R2]. split; assumption.
Qed.

End Text.

End ChannelFacts.

(* ================================================================== *)
(** * Reading a colour string back *)
(* ================================================================== *)

Module ParseFacts.

Import JS ColorFilters Channel ChannelFacts.

Lemma span_digits (d rest : string) (c : ascii) :
  all_digits d = true -> is_digit c = false ->
  span is_digit (d ++ String c rest) = (d, String c rest).
Proof.
  intros Hd Hc. induction d as [|a d IH]; simpl.
  - rewrite Hc. reflexivity.
  - simpl in Hd. apply andb_true_iff in Hd as [Ha Hd].
    rewrite Ha, (IH Hd). reflexivity.
Qed.

Lemma digits1_numeral (d rest : string) (c : ascii) :
  numeral d = true -> is_digit c = false ->
  digits1 (d ++ String c rest) = Some (d, String c rest).
Proof.
  intros Hd Hc. unfold digits1.
  destruct d as [|a d]; [discriminate |].
  rewrite span_digits by assumption. reflexivity.
Qed.

Lemma digit_not_space (c : ascii) : is_digit c = true -> is_space c = false.
Proof.
  unfold is_digit, is_space. intros H.
  apply andb_true_iff in H as [H1 H2]. apply N.leb_le in H1, H2.
  repeat match goal with
         | |- (_ || _)%bool = false => apply orb_false_iff; split
         | |- (_ && _)%bool = false => apply andb_false_iff; right
         end.
  - apply N.leb_gt. lia.
  - apply N.eqb_neq. lia.
  - apply N.eqb_neq. lia.
Qed.

Lemma spaces_numeral (d rest : string) :
  numeral d = true -> spaces (" " ++ d ++ rest) = (d ++ rest)%string.
Proof.
  intros Hd. destruct d as [|a d]; [discriminate |].
  simpl in Hd. apply andb_true_iff in Hd as [Ha _].
  unfold spaces. simpl. rewrite (digit_not_space a Ha). reflexivity.
Qed.

Lemma decimal_channel (z : Z) :
  in_range z ->
  numeral (decimal z) = true /\ digits_value 0%N (decimal z) = Z.to_N z.
Proof.
  intros Hz.
  assert (H : (numeral (decimal z) && (digits_value 0%N (decimal z) =? Z.to_N z)%N)%bool = true).
  { revert z Hz. apply forall_channels. vm_compute. reflexivity. }
  apply andb_true_iff in H as [H1 H2]. apply N.eqb_eq in H2. split; assumption.
Qed.

Lemma match_here_css (cr cg cb : Z) :
  in_range cr -> in_range cg -> in_range cb ->
  match_here (css cr cg cb) = Some (decimal cr, decimal cg, decimal cb).
Proof.
  intros Hr Hg Hb.
  destruct (decimal_channel cr Hr) as [Nr _].
  destruct (decimal_channel cg Hg) as [Ng _].
  destruct (decimal_channel cb Hb) as [Nb _].
  unfold match_here, css.
  change (literal "rgb(" ("rgb(" ++ decimal cr ++ ", " ++ decimal cg ++ ", " ++ decimal cb ++ ")"))
    with (Some (decimal cr ++ String "," (" " ++ decimal cg ++ ", " ++ decimal cb ++ ")"))%string).
  cbv beta iota. rewrite digits1_numeral by (exact Nr || reflexivity).
  change (literal "," (String "," (" " ++ decimal cg ++ ", " ++ decimal cb ++ ")")))
    with (Some (" " ++ decimal cg ++ String "," (" " ++ decimal cb ++ ")"))%string).
  cbv beta iota. rewrite spaces_numeral by exact Ng.
  rewrite digits1_numeral by (exact Ng || reflexivity).
  change (literal "," (String "," (" " ++ decimal cb ++ ")")))
    with (Some (" " ++ decimal cb ++ ")")%string).
  cbv beta iota. rewrite spaces_numeral by exact Nb.
  rewrite digits1_numeral by (exact Nb || reflexivity).
  reflexivity.
Qed.

Lemma color_match_unfold (s : string) :
  color_match s =
  match match_here s with
  | Some m => Some m
  | None => match s with EmptyString => None | String _ s' => color_match s' end
  end.
Proof. destruct s; reflexivity. Qed.

Lemma color_match_here (s : string) m :
  match_here s = Some m -> color_match s = Some m.
Proof.
  intros H. rewrite color_match_unfold, H. reflexivity.
Qed.

(** A colour string of three channel values is read back as those values. *)
Lemma parseRGB_css (cr cg cb : Z) :
  in_range cr -> in_range cg -> in_range cb ->
  parseRGB (css cr cg cb) = mkRGB (chan cr) (chan cg) (chan cb).
Proof.
  intros Hr Hg Hb. unfold parseRGB.
  rewrite (color_match_here _ _ (match_here_css cr cg cb Hr Hg Hb)).
  unfold parseInt, chan.
  destruct (decimal_channel cr Hr) as [_ ->].
  destruct (decimal_channel cg Hg) as [_ ->].
  destruct (decimal_channel cb Hb) as [_ ->].
  reflexivity.
Qed.

End ParseFacts.

(* ================================================================== *)
(** * Rounding a Number between 0 and 255 *)
(* ================================================================== *)

Module Rounding.

Import JS ColorFilters Channel Spec ChannelFacts.
Local Open Scope float_scope.

Lemma digits2_pos_bound (m : positive) : (Zpos m < 2 ^ Zpos (digits2_pos m))%Z.
Proof.
  induction m as [m IH | m IH |]; simpl digits2_pos.
  - rewrite Pos2Z.inj_succ, Z.pow_succ_r by lia. lia.
  - rewrite Pos2Z.inj_succ, Z.pow_succ_r by lia. lia.
  - reflexivity.
Qed.

(** The mantissa of a binary64 value has at most 53 bits. *)
Lemma valid_mantissa (s : bool) (m : positive) (e : Z) :
  valid_binary (S754_finite s m e) = true -> (Zpos m < 2 ^ 53)%Z.
Proof.
  unfold SpecFloat.valid_binary, bounded, canonical_mantissa, fexp. intros H.
  apply andb_true_iff in H as [H _]. apply Z.eqb_eq in H.
  assert (D : (Zpos (digits2_pos m) <= 53)%Z) by (unfold prec in H; lia).
  eapply Z.lt_le_trans; [apply digits2_pos_bound |].
  apply Z.pow_le_mono_r; lia.
Qed.

Lemma round_half_up_bound (m : positive) (e : Z) :
  (Zpos m < 2 ^ 53)%Z ->
  (e < -45 \/ (e = -45 /\ Zpos m <= 8972014882652160))%Z ->
  (0 <= round_half_up false m e <= 255)%Z.
Proof.
  intros Hm He. unfold round_half_up.
  assert (P : (0 < 2 ^ (- e))%Z) by (apply Z.pow_pos_nonneg; lia).
  assert (P1 : (2 ^ (- e + 1) = 2 * 2 ^ (- e))%Z).
  { replace (- e + 1)%Z with (Z.succ (- e)) by lia. apply Z.pow_succ_r. lia. }
  rewrite P1. split.
  - apply Z.div_pos; lia.
  - apply Z.lt_succ_r, Z.div_lt_upper_bound; [lia |].
    destruct He as [He | [-> Hm']].
    + assert (Q : (2 ^ 46 <= 2 ^ (- e))%Z) by (apply Z.pow_le_mono_r; lia).
      change (2 ^ 46)%Z with 70368744177664%Z in Q.
      change (2 ^ 53)%Z with 9007199254740992%Z in Hm. lia.
    + change (2 ^ (- -45))%Z with 35184372088832%Z. lia.
Qed.

Lemma channel_rounded (n : Z) :
  in_range n ->
  match Prim2SF (ofZ n) with
  | S754_zero _ | S754_finite _ _ _ => integral (ofZ n)
  | _ => None
  end = Some n.
Proof.
  intros Hn.
  assert (H : match match Prim2SF (ofZ n) with
                    | S754_zero _ | S754_finite _ _ _ => integral (ofZ n)
                    | _ => None
                    end with
              | Some k => (k =? n)%Z
              | None => false
              end = true).
  { revert n Hn. apply forall_channels. vm_compute. reflexivity. }
  destruct (match Prim2SF (ofZ n) with
            | S754_zero _ | S754_finite _ _ _ => integral (ofZ n)
            | _ => None
            end) as [k|]; [| discriminate].
  apply Z.eqb_eq in H. congruence.
Qed.

(** A Number between 0 and 255 rounds to a channel value. *)
Lemma between_gamut (x : number) : between x = true -> in_gamut x = true.
Proof.
  unfold between. intros H. apply andb_true_iff in H as [H0 H1].
  rewrite FloatAxioms.leb_spec in H0, H1.
  assert (V := Prim2SF_valid x).
  assert (E0 : Prim2SF 0 = S754_zero false) by (vm_compute; reflexivity).
  assert (E255 : Prim2SF 255 = S754_finite false 8972014882652160 (-45))
    by (vm_compute; reflexivity).
  rewrite E0 in H0. rewrite E255 in H1.
  unfold in_gamut, rounded, Math_round.
  destruct (Prim2SF x) as [s | s | | s m e] eqn:E.
  - rewrite E. unfold integral. rewrite E. reflexivity.
  - destruct s; discriminate.
  - discriminate.
  - destruct s; [discriminate |].
    assert (Hm := valid_mantissa _ _ _ V).
    assert (He : (e < -45 \/ (e = -45 /\ Zpos m <= 8972014882652160))%Z).
    { unfold SFleb, SFcompare in H1.
      destruct (Z.compare_spec e (-45)) as [-> | Hlt | Hgt].
      - right. split; [reflexivity |].
        assert (C : Pos.compare_cont Eq m 8972014882652160 = Pos.compare m 8972014882652160)
          by (unfold Pos.compare; reflexivity).
        rewrite C in H1.
        destruct (Pos.compare_spec m 8972014882652160) as [C1 | C1 | C1].
        + rewrite C1. apply Z.le_refl.
        + apply Z.lt_le_incl, Pos2Z.pos_lt_pos, C1.
        + discriminate H1.
      - left. exact Hlt.
      - discriminate. }
    assert (B := round_half_up_bound m e Hm He).
    replace (0 <=? e)%Z with false by (symmetry; apply Z.leb_gt; lia).
    destruct (Z.eqb_spec (round_half_up false m e) 0) as [Z0 | NZ].
    + reflexivity.
    + rewrite channel_rounded by exact B.
      apply andb_true_iff. split; apply Z.leb_le; lia.
Qed.

End Rounding.

(* ================================================================== *)
(** * Tables of the filters' channel functions *)
(* ================================================================== *)

Module Tables.

Import JS ColorFilters Channel Spec ChannelFacts Rounding.
Local Open Scope float_scope.

Ltac split_andb :=
  repeat match goal with
         | H : (_ && _)%bool = true |- _ => apply andb_true_iff in H; destruct H
         end.

Ltac by_table :=
  first [ apply forall_channels | apply forall_channels2 ]; vm_compute; reflexivity.

Lemma contrast_rounds (z : Z) :
  in_range z ->
  rounds_to (if gt (chan z) 128 then Math_min 255 (chan z * 1.4) else chan z / 1.4)
            (contrast_channel z) = true.
Proof. revert z. by_table. Qed.

Lemma neon_boost_rounds (z : Z) :
  in_range z ->
  rounds_to (Math_min 255 (chan z * 1.5)) (Z.min 255 ((3 * z + 1) / 2)) = true.
Proof. revert z. by_table. Qed.

Lemma neon_damp_rounds (z : Z) :
  in_range z -> rounds_to (chan z * 0.6) ((6 * z + 5) / 10) = true.
Proof. revert z. by_table. Qed.

Lemma pushed_gamut (z : Z) (k : nat) :
  in_range z -> in_gamut (pushed z k) = true.
Proof.
  intros Hz. apply between_gamut.
  assert (H : between (pushed z 0) && between (pushed z 1) && between (pushed z 2) = true).
  { revert z Hz. by_table. }
  split_andb. destruct k as [|[|k]]; assumption.
Qed.

Lemma vibrant_gamut (z : Z) (k : nat) (dark : bool) :
  in_range z ->
  in_gamut (Math_min 255 (pushed z k * (if dark then 1.4 else 1.1))) = true.
Proof.
  intros Hz. apply between_gamut.
  assert (H : between (Math_min 255 (pushed z 0 * 1.4))
              && between (Math_min 255 (pushed z 1 * 1.4))
              && between (Math_min 255 (pushed z 2 * 1.4))
              && between (Math_min 255 (pushed z 0 * 1.1))
              && between (Math_min 255 (pushed z 1 * 1.1))
              && between (Math_min 255 (pushed z 2 * 1.1)) = true).
  { revert z Hz. by_table. }
  split_andb. destruct dark, k as [|[|k]]; assumption.
Qed.

Lemma dynamic_gamut (z : Z) (bright : bool) :
  in_range z ->
  in_gamut (Math_min 255 (Math_max 0 ((chan z - 128) * (if bright then 1.3 else 0.8) + 128)))
  = true.
Proof.
  intros Hz. apply between_gamut.
  assert (H : between (Math_min 255 (Math_max 0 ((chan z - 128) * 1.3 + 128)))
              && between (Math_min 255 (Math_max 0 ((chan z - 128) * 0.8 + 128))) = true).
  { revert z Hz. by_table. }
  split_andb. destruct bright; assumption.
Qed.

Lemma flow_gamut (z p : Z) (k j : nat) :
  in_range z -> in_range p -> in_gamut (flow (pushed z k) (pushed p j)) = true.
Proof.
  intros Hz Hp. apply between_gamut.
  assert (H : between (flow (pushed z 0) (pushed p 0))
              && between (flow (pushed z 0) (pushed p 1))
              && between (flow (pushed z 0) (pushed p 2))
              && between (flow (pushed z 1) (pushed p 0))
              && between (flow (pushed z 1) (pushed p 1))
              && between (flow (pushed z 1) (pushed p 2))
              && between (flow (pushed z 2) (pushed p 0))
              && between (flow (pushed z 2) (pushed p 1))
              && between (flow (pushed z 2) (pushed p 2)) = true).
  { revert z p Hz Hp. by_table. }
  split_andb. destruct k as [|[|k]], j as [|[|j]]; assumption.
Qed.

End Tables.

(* ================================================================== *)
(** * The largest channel *)
(* ================================================================== *)

Module Largest.

Import JS ColorFilters Channel Spec ChannelFacts Tables.
Local Open Scope float_scope.

Lemma max_step_chan (a c : Z) :
  in_range a -> in_range c -> max_step (chan a) (chan c) = chan (Z.max a c).
Proof.
  intros Ha Hc.
  assert (H : negb (is_pos_zero (chan c) && is_neg_zero (chan a))
              && Bool.eqb (PrimFloat.ltb (chan a) (chan c)) (a <? c)%Z = true).
  { revert a c Ha Hc. by_table. }
  split_andb. unfold max_step.
  destruct (is_pos_zero (chan c) && is_neg_zero (chan a)); [discriminate |].
  destruct (PrimFloat.ltb (chan a) (chan c)), (Z.ltb_spec a c); try discriminate.
  - rewrite Z.max_r by lia. reflexivity.
  - rewrite Z.max_l by lia. reflexivity.
Qed.

Lemma max_step_first (a : Z) :
  in_range a ->
  PrimFloat.is_nan (chan a) = false /\ max_step PrimFloat.neg_infinity (chan a) = chan a.
Proof.
  intros Ha.
  assert (H : negb (PrimFloat.is_nan (chan a))
              && negb (is_pos_zero (chan a) && is_neg_zero PrimFloat.neg_infinity)
              && PrimFloat.ltb PrimFloat.neg_infinity (chan a) = true).
  { revert a Ha. by_table. }
  split_andb. unfold max_step.
  destruct (PrimFloat.is_nan (chan a)); [discriminate |].
  destruct (is_pos_zero (chan a) && is_neg_zero PrimFloat.neg_infinity); [discriminate |].
  destruct (PrimFloat.ltb PrimFloat.neg_infinity (chan a)); [| discriminate].
  split; reflexivity.
Qed.

Lemma max3_range (cr cg cb : Z) :
  in_range cr -> in_range cg -> in_range cb -> in_range (max3 cr cg cb).
Proof. unfold in_range, max3. lia. Qed.

Lemma Math_max3_chan (cr cg cb : Z) :
  in_range cr -> in_range cg -> in_range cb ->
  Math_max3 (chan cr) (chan cg) (chan cb) = chan (max3 cr cg cb).
Proof.
  intros Hr Hg Hb. unfold Math_max3, max3.
  destruct (max_step_first cr Hr) as [-> ->].
  destruct (max_step_first cg Hg) as [-> _].
  destruct (max_step_first cb Hb) as [-> _].
  cbn [orb]. rewrite max_step_chan by assumption.
  apply max_step_chan; [unfold in_range in *; lia | assumption].
Qed.

Lemma strict_eq_chan (a c : Z) :
  in_range a -> in_range c -> strict_eq (chan a) (chan c) = (a =? c)%Z.
Proof.
  intros Ha Hc.
  assert (H : Bool.eqb (strict_eq (chan a) (chan c)) (a =? c)%Z = true).
  { revert a c Ha Hc. by_table. }
  apply Bool.eqb_prop, H.
Qed.

Lemma strict_eq_zero (a : Z) : in_range a -> strict_eq (chan a) 0 = (a =? 0)%Z.
Proof. intros Ha. apply (strict_eq_chan a 0); [exact Ha | unfold in_range; lia]. Qed.

(** [enhanceVibrance] on integer channels, with the comparisons decided. *)
Lemma enhanceVibrance_chan (cr cg cb : Z) :
  in_range cr -> in_range cg -> in_range cb ->
  let m := max3 cr cg cb in
  enhanceVibrance (mkRGB (chan cr) (chan cg) (chan cb)) =
  if (m =? 0)%Z then mkRGB (chan cr) (chan cg) (chan cb)
  else mkRGB (Math_min 255 (chan cr * (if (cr =? m)%Z then 1.3 else 0.7)))
             (Math_min 255 (chan cg * (if (cg =? m)%Z then 1.3 else 0.7)))
             (Math_min 255 (chan cb * (if (cb =? m)%Z then 1.3 else 0.7))).
Proof.
  intros Hr Hg Hb m. assert (Hm := max3_range cr cg cb Hr Hg Hb).
  unfold enhanceVibrance. cbn [r g b].
  rewrite Math_max3_chan by assumption. fold m.
  rewrite strict_eq_zero, !strict_eq_chan by assumption.
  reflexivity.
Qed.

(** Each channel of [enhanceVibrance] has one of the three shapes. *)
Lemma enhanceVibrance_shapes (cr cg cb : Z) :
  in_range cr -> in_range cg -> in_range cb ->
  exists i j k,
    enhanceVibrance (mkRGB (chan cr) (chan cg) (chan cb)) =
    mkRGB (pushed cr i) (pushed cg j) (pushed cb k).
Proof.
  intros Hr Hg Hb. rewrite enhanceVibrance_chan by assumption. cbv zeta.
  destruct (max3 cr cg cb =? 0)%Z.
  - exists 0%nat, 0%nat, 0%nat. reflexivity.
  - destruct (cr =? max3 cr cg cb)%Z, (cg =? max3 cr cg cb)%Z, (cb =? max3 cr cg cb)%Z;
      [ exists 1%nat, 1%nat, 1%nat | exists 1%nat, 1%nat, 2%nat
      | exists 1%nat, 2%nat, 1%nat | exists 1%nat, 2%nat, 2%nat
      | exists 2%nat, 1%nat, 1%nat | exists 2%nat, 1%nat, 2%nat
      | exists 2%nat, 2%nat, 1%nat | exists 2%nat, 2%nat, 2%nat ]; reflexivity.
Qed.

End Largest.

(* ================================================================== *)
(** * Properties of the filter pipeline *)
(* ================================================================== *)

Module FilterProperties.

Import JS ColorFilters Channel Spec ChannelFacts ParseFacts Tables Largest.
Local Open Scope float_scope.

Section WithDigits.

Variable toString_digits : number -> string.

Local Abbreviation rgbToString := (rgbToString toString_digits).
Local Abbreviation applyColorFilter := (applyColorFilter toString_digits).

Lemma rgbToString_rounds (x y z : number) (nx ny nz : Z) :
  rounds_to x nx = true -> rounds_to y ny = true -> rounds_to z nz = true ->
  rgbToString (mkRGB x y z) = css nx ny nz.
Proof.
  intros Hx Hy Hz. unfold ColorFilters.rgbToString, css. cbn [r g b].
  destruct (rounds_to_text toString_digits _ _ Hx) as [-> _].
  destruct (rounds_to_text toString_digits _ _ Hy) as [-> _].
  destruct (rounds_to_text toString_digits _ _ Hz) as [-> _].
  reflexivity.
Qed.

Lemma rgbToString_gamut (x y z : number) :
  in_gamut x = true -> in_gamut y = true -> in_gamut z = true ->
  gamut_color (rgbToString (mkRGB x y z)).
Proof.
  intros Hx Hy Hz.
  destruct (in_gamut_text toString_digits _ Hx) as (nx & Rx & Ex).
  destruct (in_gamut_text toString_digits _ Hy) as (ny & Ry & Ey).
  destruct (in_gamut_text toString_digits _ Hz) as (nz & Rz & Ez).
  exists nx, ny, nz. repeat split; try (apply Rx || apply Ry || apply Rz).
  unfold ColorFilters.rgbToString, css. cbn [r g b]. rewrite Ex, Ey, Ez. reflexivity.
Qed.

Lemma contrast_rgb (cr cg cb : Z) :
  in_range cr -> in_range cg -> in_range cb ->
  applyContrastFilter toString_digits (mkRGB (chan cr) (chan cg) (chan cb))
  = css (contrast_channel cr) (contrast_channel cg) (contrast_channel cb).
Proof.
  intros Hr Hg Hb.
  unfold applyContrastFilter. cbn [r g b]. cbv zeta.
  apply rgbToString_rounds; apply contrast_rounds; assumption.
Qed.

Lemma contrast_css (cr cg cb : Z) (prev : option string) :
  in_range cr -> in_range cg -> in_range cb ->
  applyColorFilter (css cr cg cb) contrast prev
  = css (contrast_channel cr) (contrast_channel cg) (contrast_channel cb).
Proof.
  intros Hr Hg Hb. unfold ColorFilters.applyColorFilter.
  rewrite parseRGB_css by assumption. apply contrast_rgb; assumption.
Qed.

Lemma neon_rounds (m z : Z) :
  in_range z ->
  rounds_to (if (z =? m)%Z then Math_min 255 (chan z * 1.5) else chan z * 0.6)
            (neon_channel m z) = true.
Proof.
  intros Hz. unfold neon_channel. destruct (z =? m)%Z.
  - apply neon_boost_rounds, Hz.
  - apply neon_damp_rounds, Hz.
Qed.

Lemma neon_rgb (cr cg cb : Z) :
  in_range cr -> in_range cg -> in_range cb ->
  applyNeonFilter toString_digits (mkRGB (chan cr) (chan cg) (chan cb))
  = css (neon_channel (max3 cr cg cb) cr) (neon_channel (max3 cr cg cb) cg)
        (neon_channel (max3 cr cg cb) cb).
Proof.
  intros Hr Hg Hb. assert (Hm := max3_range cr cg cb Hr Hg Hb).
  unfold applyNeonFilter. cbn [r g b]. cbv zeta.
  rewrite Math_max3_chan, !strict_eq_chan by assumption.
  apply rgbToString_rounds; apply neon_rounds; assumption.
Qed.

Lemma neon_css (cr cg cb : Z) (prev : option string) :
  in_range cr -> in_range cg -> in_range cb ->
  applyColorFilter (css cr cg cb) neon prev
  = css (neon_channel (max3 cr cg cb) cr) (neon_channel (max3 cr cg cb) cg)
        (neon_channel (max3 cr cg cb) cb).
Proof.
  intros Hr Hg Hb. unfold ColorFilters.applyColorFilter.
  rewrite parseRGB_css by assumption. apply neon_rgb; assumption.
Qed.

(** Every filter that computes maps integer channels in 0..255 to a colour
    string of integer channels in 0..255. *)
Lemma filter_gamut (cr cg cb : Z) (prev : option RGB) :
  in_range cr -> in_range cg -> in_range cb ->
  (forall q, prev = Some q -> integer_rgb q) ->
  let rgb := mkRGB (chan cr) (chan cg) (chan cb) in
  gamut_color (applyVibrantFilter toString_digits rgb)
  /\ gamut_color (applyDynamicFilter toString_digits rgb)
  /\ gamut_color (applyContrastFilter toString_digits rgb)
  /\ gamut_color (applyNeonFilter toString_digits rgb)
  /\ gamut_color (applyGradientFlow toString_digits rgb prev).
Proof.
  intros Hr Hg Hb Hprev rgb. unfold rgb.
  destruct (enhanceVibrance_shapes cr cg cb Hr Hg Hb) as (i & j & k & E).
  repeat split.
  - (* vibrant *)
    unfold applyVibrantFilter. rewrite E. cbn [r g b]. cbv zeta.
    apply rgbToString_gamut; apply vibrant_gamut; assumption.
  - (* dynamic *)
    unfold applyDynamicFilter. cbn [r g b]. cbv zeta.
    apply rgbToString_gamut; apply dynamic_gamut; assumption.
  - (* contrast *)
    unfold applyContrastFilter. cbn [r g b]. cbv zeta.
    apply rgbToString_gamut; eapply rounds_to_gamut, contrast_rounds; assumption.
  - (* neon *)
    rewrite neon_rgb by assumption.
    assert (Hm := max3_range cr cg cb Hr Hg Hb).
    exists (neon_channel (max3 cr cg cb) cr), (neon_channel (max3 cr cg cb) cg),
           (neon_channel (max3 cr cg cb) cb).
    repeat split;
      try (eapply rounds_to_text with (toString_digits := toString_digits);
           apply neon_rounds; assumption).
  - (* gradient-flow *)
    destruct prev as [q |].
    + destruct (Hprev q eq_refl) as (pr & pg & pb & Hpr & Hpg & Hpb & ->).
      destruct (enhanceVibrance_shapes pr pg pb Hpr Hpg Hpb) as (i' & j' & k' & E').
      unfold applyGradientFlow. rewrite E, E'. cbn [r g b]. cbv zeta.
      apply rgbToString_gamut; apply flow_gamut; assumption.
    + unfold applyGradientFlow. rewrite E.
      apply rgbToString_gamut; apply pushed_gamut; assumption.
Qed.

Lemma gamut_color_channels (s : string) : gamut_color s -> channels_in_range s.
Proof.
  intros (cr & cg & cb & Hr & Hg & Hb & ->).
  exists cr, cg, cb. repeat split; try (apply Hr || apply Hg || apply Hb).
  apply parseRGB_css; assumption.
Qed.

Lemma parsePrevious_channels (previousColor : option string) :
  (forall p, previousColor = Some p -> channels_in_range p) ->
  forall q, parsePrevious previousColor = Some q -> integer_rgb q.
Proof.
  intros H q. unfold parsePrevious.
  destruct previousColor as [[| c p] |]; try discriminate.
  intros E. injection E as <-. apply (H _ eq_refl).
Qed.

End WithDigits.

End FilterProperties.

(* ================================================================== *)
(** * Comparing binary64 values *)
(* ================================================================== *)

Module FloatOrderFacts.

Import JS FloatOrder.

Lemma compare_cont_Eq (m n : positive) : Pos.compare_cont Eq m n = (Zpos m ?= Zpos n).
Proof. reflexivity. Qed.

Lemma SFltb_key (x y : spec_float) :
  is_number x -> is_number y -> (SFltb x y = true <-> key_lt (key x) (key y)).
Proof.
  unfold is_number, SFltb, SFcompare, key, key_lt. intros Hx Hy.
  destruct x as [sx | sx | | sx mx ex], y as [sy | sy | | sy my ey];
    try contradiction;
    try destruct sx; try destruct sy;
    try rewrite compare_cont_Eq;
    try (split; [discriminate | lia]);
    try (split; [lia | reflexivity]).
  all: destruct (Z.compare_spec ex ey); destruct (Z.compare_spec (Zpos mx) (Zpos my));
    cbn [CompOpp]; split; intros; try discriminate; try reflexivity; try lia.
Qed.

Lemma ltb_key (x y : number) :
  is_num x -> is_num y ->
  (PrimFloat.ltb x y = true <-> key_lt (key (Prim2SF x)) (key (Prim2SF y))).
Proof. intros Hx Hy. rewrite FloatAxioms.ltb_spec. apply SFltb_key; assumption. Qed.

Lemma ltb_is_num (x y : number) : PrimFloat.ltb x y = true -> is_num x /\ is_num y.
Proof.
  rewrite FloatAxioms.ltb_spec. unfold is_num, SFltb, SFcompare.
  destruct (Prim2SF x), (Prim2SF y); try discriminate; split; discriminate.
Qed.

Lemma ltb_trans (x y z : number) :
  PrimFloat.ltb x y = true -> PrimFloat.ltb y z = true -> PrimFloat.ltb x z = true.
Proof.
  intros H1 H2.
  destruct (ltb_is_num _ _ H1) as [Nx Ny]. destruct (ltb_is_num _ _ H2) as [_ Nz].
  apply ltb_key in H1, H2; try assumption. apply ltb_key; try assumption.
  unfold key_lt in *.
  destruct (key (Prim2SF x)) as [[x1 x2] x3], (key (Prim2SF y)) as [[y1 y2] y3],
           (key (Prim2SF z)) as [[z1 z2] z3]. lia.
Qed.

Lemma ltb_irrefl (x : number) : PrimFloat.ltb x x = false.
Proof.
  destruct (PrimFloat.ltb x x) eqn:H; [| reflexivity].
  destruct (ltb_is_num _ _ H) as [Nx _]. apply ltb_key in H; try assumption.
  unfold key_lt in H. destruct (key (Prim2SF x)) as [[x1 x2] x3]. lia.
Qed.

(** Between two Numbers in strict order, a third one is above the smaller
    or below the larger. *)
Lemma ltb_between (x y z : number) :
  PrimFloat.ltb x z = true -> is_num y ->
  PrimFloat.ltb x y = true \/ PrimFloat.ltb y z = true.
Proof.
  intros H Ny. destruct (ltb_is_num _ _ H) as [Nx Nz].
  apply ltb_key in H; try assumption.
  assert (K : key_lt (key (Prim2SF x)) (key (Prim2SF y))
              \/ key_lt (key (Prim2SF y)) (key (Prim2SF z))).
  { unfold key_lt in *.
    destruct (key (Prim2SF x)) as [[x1 x2] x3], (key (Prim2SF y)) as [[y1 y2] y3],
             (key (Prim2SF z)) as [[z1 z2] z3]. lia. }
  destruct K as [K | K]; [left | right]; apply ltb_key; assumption.
Qed.

End FloatOrderFacts.

(* ================================================================== *)
(** * The scan of the extractor *)
(* ================================================================== *)

Module ExtractorFacts.

Import JS ColorFilters Generator Channel Spec ChannelFacts Tables Largest.
Import FloatOrder FloatOrderFacts Extractor.
Local Open Scope float_scope.

Lemma lit_tables :
  forallb (fun x => forallb (fun y => forallb (fun z => lit x y z) tableB) tableG) tableR
  = true.
Proof. vm_compute. reflexivity. Qed.

Lemma lit_terms (cr cg cb : Z) :
  in_range cr -> in_range cg -> in_range cb ->
  lit (termR cr) (termG cg) (termB cb) = true.
Proof.
  intros Hr Hg Hb. assert (H := lit_tables).
  assert (ER : tableR = map termR channels) by (vm_compute; reflexivity).
  assert (EG : tableG = map termG channels) by (vm_compute; reflexivity).
  assert (EB : tableB = map termB channels) by (vm_compute; reflexivity).
  rewrite forallb_forall in H.
  specialize (H (termR cr)). rewrite ER in H.
  specialize (H (in_map termR _ _ (channels_complete cr Hr))).
  rewrite forallb_forall in H.
  specialize (H (termG cg)). rewrite EG in H.
  specialize (H (in_map termG _ _ (channels_complete cg Hg))).
  rewrite forallb_forall in H.
  apply H. rewrite EB. apply in_map, channels_complete, Hb.
Qed.

Lemma term_zero (z : Z) :
  in_range z ->
  PrimFloat.eqb (termR z) 0 = (z =? 0)%Z
  /\ PrimFloat.eqb (termG z) 0 = (z =? 0)%Z
  /\ PrimFloat.eqb (termB z) 0 = (z =? 0)%Z.
Proof.
  intros Hz.
  assert (H : Bool.eqb (PrimFloat.eqb (termR z) 0) (z =? 0)%Z
              && Bool.eqb (PrimFloat.eqb (termG z) 0) (z =? 0)%Z
              && Bool.eqb (PrimFloat.eqb (termB z) 0) (z =? 0)%Z = true).
  { revert z Hz. by_table. }
  split_andb. repeat split; apply Bool.eqb_prop; assumption.
Qed.

Lemma byteZ_range (x : Byte.byte) : in_range (byteZ x).
Proof.
  unfold in_range, byteZ. assert (H := Byte.to_N_bounded x). lia.
Qed.

Lemma ofByte_chan (x : Byte.byte) : ofByte x = chan (byteZ x).
Proof. unfold ofByte, chan, byteZ. rewrite N2Z.id. reflexivity. Qed.

Lemma byte_zero (x : Byte.byte) : Byte.eqb x Byte.x00 = (byteZ x =? 0)%Z.
Proof. destruct x; reflexivity. Qed.

Lemma byte_zero_eq (x : Byte.byte) : Byte.eqb x Byte.x00 = true -> x = Byte.x00.
Proof. destruct x; intros H; try discriminate H; reflexivity. Qed.

Lemma brightness_terms (p : Pixel) :
  brightness p = termR (byteZ (red p)) + termG (byteZ (green p)) + termB (byteZ (blue p)).
Proof. unfold brightness, termR, termG, termB. rewrite !ofByte_chan. reflexivity. Qed.

Lemma black_pixel (p : Pixel) :
  is_black p = true ->
  red p = Byte.x00 /\ green p = Byte.x00 /\ blue p = Byte.x00.
Proof.
  unfold is_black. intros H. split_andb.
  repeat split; apply byte_zero_eq; assumption.
Qed.

Lemma black_brightness (p : Pixel) : is_black p = true -> brightness p = 0.
Proof.
  intros H. destruct (black_pixel p H) as (Hr & Hg & Hb).
  unfold brightness. rewrite Hr, Hg, Hb. vm_compute. reflexivity.
Qed.

(** A pixel is brighter than 0 or it is black. *)
Lemma bright_or_black (p : Pixel) :
  gt (brightness p) 0 = true \/ is_black p = true.
Proof.
  assert (H := lit_terms _ _ _ (byteZ_range (red p)) (byteZ_range (green p))
                         (byteZ_range (blue p))).
  unfold lit in H. rewrite <- brightness_terms in H.
  apply orb_true_iff in H as [H | H]; [left; exact H | right].
  destruct (term_zero _ (byteZ_range (red p))) as (ZR & _ & _).
  destruct (term_zero _ (byteZ_range (green p))) as (_ & ZG & _).
  destruct (term_zero _ (byteZ_range (blue p))) as (_ & _ & ZB).
  rewrite ZR, ZG, ZB in H. unfold is_black. rewrite !byte_zero. exact H.
Qed.

Lemma zero_is_num : is_num 0.
Proof. unfold is_num. vm_compute. discriminate. Qed.

Lemma brightness_is_num (p : Pixel) : is_num (brightness p).
Proof.
  destruct (bright_or_black p) as [H | H].
  - apply (ltb_is_num _ _ H).
  - rewrite (black_brightness p H). apply zero_is_num.
Qed.

Lemma not_gt (x y : number) : gt x y = true -> gt y x = true -> False.
Proof.
  unfold gt. intros H1 H2. assert (H := ltb_trans _ _ _ H1 H2).
  rewrite ltb_irrefl in H. discriminate.
Qed.

Lemma scan_step (seen : list Pixel) (st : Brightest) (x : Pixel) :
  scanned seen st -> scanned (seen ++ [x]) (scan_pixel st x).
Proof.
  intros [Hmax Hst]. unfold scan_pixel.
  destruct (gt (brightness x) (maxBrightness st)) eqn:G.
  - (* [x] is brighter than everything seen *)
    split.
    + intros q Hq. cbn [maxBrightness]. apply in_app_or in Hq as [Hq | [<- | []]].
      * destruct (gt (brightness q) (brightness x)) eqn:Q; [| reflexivity].
        specialize (Hmax q Hq). unfold gt in *.
        rewrite (ltb_trans _ _ _ G Q) in Hmax. discriminate.
      * apply ltb_irrefl.
    + right. exists (List.length seen), x. repeat split.
      * rewrite nth_error_app2, Nat.sub_diag by lia. reflexivity.
      * destruct (bright_or_black x) as [B | B]; [exact B | exfalso].
        rewrite (black_brightness x B) in G.
        destruct Hst as [-> | (k & p & _ & -> & P & _)]; cbn [maxBrightness] in G.
        -- unfold gt in G. rewrite ltb_irrefl in G. discriminate.
        -- exact (not_gt _ _ G P).
      * intros j q Hj Hq. rewrite nth_error_app1 in Hq by exact Hj.
        apply nth_error_In in Hq. specialize (Hmax q Hq).
        unfold gt, lt in *.
        destruct (ltb_between _ (brightness q) _ G (brightness_is_num q)) as [C | C].
        -- rewrite C in Hmax. discriminate.
        -- exact C.
  - (* the running maximum stays *)
    split.
    + intros q Hq. apply in_app_or in Hq as [Hq | [<- | []]]; auto.
    + destruct Hst as [-> | (k & p & Hk & -> & P & F)]; [left; reflexivity | right].
      assert (Lk : (k < List.length seen)%nat) by (apply nth_error_Some; congruence).
      exists k, p. repeat split; try assumption.
      * rewrite nth_error_app1 by exact Lk. exact Hk.
      * intros j q Hj Hq. rewrite nth_error_app1 in Hq by lia. exact (F j q Hj Hq).
Qed.

Lemma scan_from (rest seen : list Pixel) (st : Brightest) :
  scanned seen st -> scanned (seen ++ rest) (fold_left scan_pixel rest st).
Proof.
  revert seen st. induction rest as [| x rest IH]; intros seen st H.
  - rewrite app_nil_r. exact H.
  - cbn [fold_left]. replace (seen ++ x :: rest)%list with ((seen ++ [x]) ++ rest)%list
      by (rewrite <- app_assoc; reflexivity).
    apply IH, scan_step, H.
Qed.

Lemma scan_pixels_scanned (pixels : list Pixel) : scanned pixels (scan_pixels pixels).
Proof.
  apply (scan_from pixels []). split; [intros q [] | left; reflexivity].
Qed.

Lemma non_black_max (p : Pixel) :
  is_black p = false ->
  gt (Math_max3 (ofByte (red p)) (ofByte (green p)) (ofByte (blue p))) 0 = true.
Proof.
  intros H. rewrite !ofByte_chan.
  assert (Rr := byteZ_range (red p)). assert (Rg := byteZ_range (green p)).
  assert (Rb := byteZ_range (blue p)).
  rewrite Math_max3_chan by assumption.
  assert (T : forall z, in_range z -> gt (chan z) 0 = (0 <? z)%Z).
  { intros z Hz.
    assert (E : Bool.eqb (gt (chan z) 0) (0 <? z)%Z = true) by (revert z Hz; by_table).
    apply Bool.eqb_prop, E. }
  rewrite T by (apply max3_range; assumption).
  unfold is_black in H. rewrite !byte_zero in H.
  apply Z.ltb_lt. unfold max3, in_range in *.
  destruct (Z.eqb_spec (byteZ (red p)) 0), (Z.eqb_spec (byteZ (green p)) 0),
           (Z.eqb_spec (byteZ (blue p)) 0); try discriminate; lia.
Qed.

Lemma saturate_brightest (p : Pixel) :
  gt (brightness p) 0 = true ->
  saturate (mkBrightest (brightness p) (ofByte (red p)) (ofByte (green p)) (ofByte (blue p)))
  = boosted p.
Proof.
  intros B.
  assert (N : is_black p = false).
  { destruct (is_black p) eqn:E; [| reflexivity].
    rewrite (black_brightness p E) in B. unfold gt in B.
    rewrite ltb_irrefl in B. discriminate. }
  unfold saturate, boosted. cbn [brightestR brightestG brightestB].
  rewrite (non_black_max p N), N. reflexivity.
Qed.

End ExtractorFacts.

(* ================================================================== *)
(** * The loops as one list of cells *)
(* ================================================================== *)

Module LoopFacts.

Import JS ColorFilters Generator Loop.
Local Open Scope nat_scope.
Local Open Scope list_scope.

Section Cells.

Variable toString_digits : number -> string.
Variable env : Env.
Variable colorFilter : FilterType.
Variable totalHexagons : nat.

Local Abbreviation cell := (cell toString_digits env colorFilter totalHexagons).
Local Abbreviation run_cells := (run_cells toString_digits env colorFilter totalHexagons).

Lemma run_cells_app (xs ys : list (nat * nat)) (st : State) :
  run_cells (xs ++ ys) st =
  match run_cells xs st with
  | Running st' => run_cells ys st'
  | o => o
  end.
Proof.
  revert st. induction xs as [| [row col] xs IH]; intros st; cbn [Loop.run_cells app].
  - reflexivity.
  - destruct (cell row col st); try reflexivity. apply IH.
Qed.

Lemma forCol_cells (row n col : nat) (st : State) :
  forCol toString_digits env colorFilter totalHexagons row n col st
  = run_cells (map (pair row) (List.seq col n)) st.
Proof.
  revert col st. induction n as [| n IH]; intros col st; cbn [forCol List.seq map Loop.run_cells].
  - reflexivity.
  - destruct (cell row col st); try reflexivity. apply IH.
Qed.

Lemma forRow_cells (columns n row : nat) (st : State) :
  forRow toString_digits env colorFilter totalHexagons columns n row st
  = run_cells (flat_map (fun row => map (pair row) (List.seq 0 columns)) (List.seq row n)) st.
Proof.
  revert row st. induction n as [| n IH]; intros row st; cbn [forRow List.seq flat_map].
  - reflexivity.
  - rewrite run_cells_app, forCol_cells.
    destruct (run_cells (map (pair row) (List.seq 0 columns)) st); try reflexivity.
    apply IH.
Qed.

(** An invariant of the loop: [P k] holds before the [k]-th cell, [Q] of
    an outcome that leaves the loop. *)
Lemma run_cells_invariant (P : nat -> State -> Prop) (Q : outcome -> Prop)
    (cells : list (nat * nat)) :
  (forall k row col st,
      nth_error cells k = Some (row, col) -> P k st ->
      match cell row col st with
      | Running st' => P (S k) st'
      | o => Q o
      end) ->
  forall st, P 0 st ->
  match run_cells cells st with
  | Running st' => P (List.length cells) st'
  | o => Q o
  end.
Proof.
  intros Step.
  assert (G : forall done todo st,
             cells = done ++ todo -> P (List.length done) st ->
             match run_cells todo st with
             | Running st' => P (List.length cells) st'
             | o => Q o
             end).
  { intros done todo. revert done.
    induction todo as [| [row col] todo IH]; intros done st E HP; cbn [Loop.run_cells].
    - rewrite E, app_nil_r. exact HP.
    - assert (Hk : nth_error cells (List.length done) = Some (row, col)).
      { rewrite E, nth_error_app2, Nat.sub_diag by lia. reflexivity. }
      specialize (Step _ _ _ _ Hk HP).
      destruct (cell row col st) as [st' | st' | st']; try exact Step.
      apply (IH (done ++ [(row, col)])).
      + rewrite <- app_assoc. exact E.
      + rewrite length_app. cbn [List.length]. rewrite Nat.add_1_r. exact Step. }
  intros st HP. apply (G [] cells st eq_refl HP).
Qed.

End Cells.


Lemma seq_shift_add (a n : nat) : List.seq a n = map (fun j => a + j) (List.seq 0 n).
Proof.
  revert a. induction n as [| n IH]; intros a; cbn [List.seq map].
  - reflexivity.
  - rewrite Nat.add_0_r. f_equal. rewrite (IH (S a)), (IH 1), map_map.
    apply map_ext. intros j. lia.
Qed.

(** The nested loops visit the cells in row-major order: the [i]-th cell is
    at row [i / columns] and column [i mod columns]. *)
Lemma grid_row_major (rows columns : nat) :
  grid rows columns
  = map (fun i => (i / columns, i mod columns)) (List.seq 0 (rows * columns)).
Proof.
  unfold grid. induction rows as [| rows IH].
  - reflexivity.
  - rewrite seq_S, flat_map_app, IH. cbn [flat_map]. rewrite app_nil_r.
    replace (S rows * columns) with (rows * columns + columns) by lia.
    rewrite seq_app, map_app. f_equal.
    rewrite (seq_shift_add (0 + rows * columns)), map_map.
    apply map_ext_in. intros j Hj. apply in_seq in Hj.
    assert (C : columns <> 0) by lia.
    cbn [Nat.add].
    rewrite (Nat.add_comm (rows * columns) j).
    rewrite Nat.div_add by exact C. rewrite Nat.Div0.mod_add.
    rewrite Nat.div_small, Nat.mod_small by lia. reflexivity.
Qed.

Lemma grid_length (rows columns : nat) : List.length (grid rows columns) = rows * columns.
Proof. rewrite grid_row_major, length_map, length_seq. reflexivity. Qed.

Lemma grid_nth (rows columns k row col : nat) :
  nth_error (grid rows columns) k = Some (row, col) ->
  k < rows * columns /\ row = k / columns /\ col = k mod columns.
Proof.
  intros H.
  assert (L : k < rows * columns).
  { rewrite <- grid_length. apply nth_error_Some. congruence. }
  split; [exact L |].
  rewrite grid_row_major in H.
  rewrite nth_error_map, nth_error_seq in H.
  destruct (Nat.ltb_spec k (rows * columns)); [| lia].
  cbn in H. injection H as <- <-. split; reflexivity.
Qed.

End LoopFacts.

(* ================================================================== *)
(** * One cell of a run, as events *)
(* ================================================================== *)

Module CellFacts.

Import JS ColorFilters Generator Loop Cell.
Local Open Scope nat_scope.
Local Open Scope list_scope.

Section OneRun.

Variable toString_digits : number -> string.
Variable env : Env.
Variable colorFilter : FilterType.
Variable totalHexagons : nat.

Local Abbreviation cell := (cell toString_digits env colorFilter totalHexagons).
Local Abbreviation cleanup_now := (cleanup_now env).
Local Abbreviation suspended := (suspended env).
Local Abbreviation sample_time := (sample_time env totalHexagons).
Local Abbreviation cell_events := (cell_events toString_digits env colorFilter totalHexagons).

Lemma emits_log (es : list event) (st : State) :
  emits es st = mkState (cancelled st) (hexIndex st) (newColors st) (rev es ++ log st).
Proof.
  revert st. induction es as [| e es IH]; intros st; cbn [emits fold_left rev app].
  - destruct st; reflexivity.
  - change (fold_left (fun s e0 => emit e0 s) es (emit e st)) with (emits es (emit e st)).
    rewrite IH. unfold emit. cbn [cancelled hexIndex newColors log].
    rewrite <- app_assoc. reflexivity.
Qed.

Lemma suspend_state (n : nat) (st : State) :
  suspend env n st
  = mkState (cancelled st || cleanup_now n) (hexIndex st) (newColors st)
            (rev (suspended n) ++ log st).
Proof.
  unfold suspend, Cell.suspended, Cell.cleanup_now, emit. cbn [cancelled hexIndex newColors log].
  destruct (cleanup_at env) as [k |]; [destruct (Nat.eqb k n) |];
    cbn [rev app]; rewrite ?orb_true_r, ?orb_false_r; reflexivity.
Qed.

(** The loop body adds its events to the log. *)
Lemma cell_log (row col : nat) (st : State) :
  log (final (cell row col st)) = rev (cell_events row col st) ++ log st.
Proof.
  unfold Generator.cell, Cell.cell_events.
  cbn [cancelled hexIndex newColors log emit].
  destruct (cancelled st) eqn:C; [reflexivity |].
  fold (sample_time (hexIndex st)).
  destruct (seek env (hexIndex st) (sample_time (hexIndex st))) eqn:S.
  - reflexivity.
  - rewrite suspend_state. cbn [final emit cancelled hexIndex newColors log].
    fold (cell_x col). fold (cell_y row col).
    unfold Cell.cell_drawing.
    destruct colorFilter; rewrite emits_log; cbn [final emit cancelled hexIndex newColors log];
      rewrite !rev_app_distr; cbn [rev app]; rewrite <- ?app_assoc; cbn [app];
      rewrite <- ?app_assoc; reflexivity.
  - rewrite suspend_state. cbn [final emit cancelled hexIndex newColors log].
    rewrite rev_app_distr. cbn [rev app]. rewrite <- !app_assoc. reflexivity.
Qed.

(** The loop goes on exactly when the flag is unset and the seek settles;
    the cell index then grows by one. *)
Lemma cell_running (row col : nat) (st st' : State) :
  cell row col st = Running st' ->
  cancelled st = false
  /\ seek env (hexIndex st) (sample_time (hexIndex st)) = Seeked
  /\ hexIndex st' = S (hexIndex st).
Proof.
  unfold Generator.cell. cbn [cancelled hexIndex newColors log emit].
  destruct (cancelled st); [discriminate |].
  fold (sample_time (hexIndex st)).
  destruct (seek env (hexIndex st) (sample_time (hexIndex st))); try discriminate.
  intros H. injection H as <-. repeat split.
  rewrite suspend_state. destruct colorFilter; rewrite emits_log; reflexivity.
Qed.

Lemma cell_goes_on (row col : nat) (st : State) :
  cancelled st = false ->
  seek env (hexIndex st) (sample_time (hexIndex st)) = Seeked ->
  exists st', cell row col st = Running st'.
Proof.
  intros C S. unfold Generator.cell. cbn [cancelled hexIndex newColors log emit].
  rewrite C. fold (sample_time (hexIndex st)). rewrite S. eexists. reflexivity.
Qed.

Lemma cell_cancelled_after (row col : nat) (st st' : State) :
  cell row col st = Running st' ->
  cancelled st' = cleanup_now (S (hexIndex st)).
Proof.
  unfold Generator.cell. cbn [cancelled hexIndex newColors log emit].
  destruct (cancelled st) eqn:C; [discriminate |].
  fold (sample_time (hexIndex st)).
  destruct (seek env (hexIndex st) (sample_time (hexIndex st))); try discriminate.
  intros H. injection H as <-.
  rewrite suspend_state. destruct colorFilter; rewrite emits_log;
    cbn [cancelled hexIndex newColors log emit]; rewrite C; reflexivity.
Qed.

(** In a colour mode the loop body appends the extracted colour to
    [newColors]. *)
Lemma cell_newColors (row col : nat) (st st' : State) :
  cell row col st = Running st' ->
  newColors st'
  = newColors st
    ++ match colorFilter with
       | frame_based => []
       | _ => [getBrightestColor toString_digits
                 (capture env (sample_time (hexIndex st)) 32)]
       end.
Proof.
  unfold Generator.cell. cbn [cancelled hexIndex newColors log emit].
  destruct (cancelled st) eqn:C; [discriminate |].
  fold (sample_time (hexIndex st)).
  destruct (seek env (hexIndex st) (sample_time (hexIndex st))); try discriminate.
  intros H. injection H as <-.
  rewrite suspend_state. destruct colorFilter; rewrite emits_log;
    cbn [cancelled hexIndex newColors log emit]; rewrite ?app_nil_r; reflexivity.
Qed.

End OneRun.

End CellFacts.

(* ================================================================== *)
(** * Invariants of a run *)
(* ================================================================== *)

Module RunFacts.

Import JS ColorFilters Generator Loop Cell Run LoopFacts CellFacts.
Local Open Scope nat_scope.
Local Open Scope list_scope.

Section OneRun.

Variable toString_digits : number -> string.
Variable env : Env.
Variable colorFilter : FilterType.
Variables rows columns : nat.

Local Abbreviation totalHexagons := (rows * columns).
Local Abbreviation cell := (cell toString_digits env colorFilter totalHexagons).
Local Abbreviation run_cells := (run_cells toString_digits env colorFilter totalHexagons).
Local Abbreviation cell_events := (cell_events toString_digits env colorFilter totalHexagons).
Local Abbreviation generateGrid := (generateGrid toString_digits env colorFilter rows columns).
Local Abbreviation start := (start env).
Local Abbreviation finish := (finish colorFilter).
Local Abbreviation sample := (sample env rows columns).
Local Abbreviation call := (call toString_digits env colorFilter rows columns).
Local Abbreviation calls_upto := (calls_upto toString_digits env colorFilter rows columns).
Local Abbreviation raw_colors := (raw_colors toString_digits env colorFilter rows columns).
Local Abbreviation visited := (visited toString_digits env colorFilter rows columns).
Local Abbreviation visited_some := (visited_some toString_digits env colorFilter rows columns).

Lemma start_plain : Forall plain (log start).
Proof.
  unfold Run.start, suspended. cbn [log].
  destruct (cleanup_now env 0); cbn [rev app]; repeat constructor.
Qed.

(** Either the run ends before the loops, with plain events only, or it
    runs the loops from [start]. *)
Lemma generateGrid_cases :
  Forall plain (log (final generateGrid))
  \/ generateGrid = match run_cells (grid rows columns) start with
                    | Running st => Returned (finish st)
                    | o => o
                    end.
Proof.
  unfold Generator.generateGrid.
  rewrite emits_log, suspend_state. cbn [cancelled hexIndex newColors log rev app emit].
  destruct (metadata env).
  - destruct (tempCtx env); cbn [negb].
    + right. rewrite forRow_cells. fold (grid rows columns).
      match goal with
      | |- context [Loop.run_cells _ _ _ _ _ ?s] => change s with start
      end.
      destruct (run_cells (grid rows columns) start); try reflexivity.
      unfold Run.finish. destruct colorFilter; reflexivity.
    + left. cbn [final log]. constructor; [exact I |]. apply start_plain.
  - left. cbn [final log]. constructor; [exact I |].
    assert (H := start_plain). unfold Run.start in H. cbn [log] in H.
    apply Forall_inv_tail, Forall_inv_tail in H. exact H.
  - left. cbn [final log].
    assert (H := start_plain). unfold Run.start in H. cbn [log] in H.
    apply Forall_inv_tail, Forall_inv_tail in H. exact H.
Qed.

Lemma finish_log (st : State) :
  log (finish st) = log st \/ exists cs, log (finish st) = SetColors cs :: log st.
Proof.
  unfold Run.finish. destruct colorFilter; try (left; reflexivity);
    right; eexists; reflexivity.
Qed.


(** ** Every wait for a seek follows a test of the flag *)







(** ** Once the flag is read set, the run has ended *)






(** ** The cells are visited in order, one sample and one call each *)

Lemma seeks_app (xs ys : list event) : seeks (xs ++ ys) = seeks xs ++ seeks ys.
Proof. apply flat_map_app. Qed.

Lemma filter_calls_app (xs ys : list event) :
  filter_calls (xs ++ ys) = filter_calls xs ++ filter_calls ys.
Proof. apply flat_map_app. Qed.

Lemma plain_no_cell (l : list event) :
  Forall plain l -> seeks (rev l) = [] /\ filter_calls (rev l) = [].
Proof.
  induction 1 as [| e l He _ [IH1 IH2]]; [split; reflexivity |].
  cbn [rev]. rewrite seeks_app, filter_calls_app, IH1, IH2.
  destruct e; try contradiction; split; reflexivity.
Qed.

Lemma seeks_cell_events (row col : nat) (st : State) :
  seeks (cell_events row col st)
  = if cancelled st then []
    else [(row, col, hexIndex st, sample_time env totalHexagons (hexIndex st))].
Proof.
  unfold Cell.cell_events, suspended, cell_drawing, Generator.drawHexagon.
  destruct (cancelled st); [reflexivity |].
  destruct (seek env (hexIndex st) _);
    destruct (cleanup_now env (S (hexIndex st))); try destruct colorFilter; reflexivity.
Qed.

Lemma calls_cell_events (row col : nat) (st : State) :
  filter_calls (cell_events row col st)
  = if cancelled st then []
    else match seek env (hexIndex st) (sample_time env totalHexagons (hexIndex st)) with
         | Seeked => match colorFilter with
                     | frame_based => []
                     | _ => [call (hexIndex st)]
                     end
         | _ => []
         end.
Proof.
  unfold Cell.cell_events, suspended, cell_drawing, Generator.drawHexagon, Run.call.
  destruct (cancelled st); [reflexivity |].
  destruct (seek env (hexIndex st) _);
    destruct (cleanup_now env (S (hexIndex st))); try destruct colorFilter; reflexivity.
Qed.

Lemma calls_upto_S (n : nat) :
  calls_upto (S n)
  = calls_upto n ++ match colorFilter with frame_based => [] | _ => [call n] end.
Proof.
  unfold Run.calls_upto. destruct colorFilter; try reflexivity;
    rewrite seq_S, map_app; reflexivity.
Qed.

Lemma visited_cell (k row col : nat) (st : State) :
  nth_error (grid rows columns) k = Some (row, col) ->
  visited k st ->
  match cell row col st with
  | Running st' => visited (S k) st'
  | o => visited_some o
  end.
Proof.
  intros Hk (Hi & Hs & Hc).
  destruct (grid_nth _ _ _ _ _ Hk) as (Lk & -> & ->).
  assert (L := cell_log toString_digits env colorFilter totalHexagons
                 (k / columns) (k mod columns) st).
  assert (S1 := seeks_cell_events (k / columns) (k mod columns) st).
  assert (C1 := calls_cell_events (k / columns) (k mod columns) st).
  rewrite Hi in S1, C1.
  destruct (cell (k / columns) (k mod columns) st) as [st' | st' | st'] eqn:E;
    cbn [final] in L.
  - destruct (cell_running _ _ _ _ _ _ _ _ E) as (C & Sk & Hi').
    rewrite Hi in Sk. rewrite C in S1, C1. rewrite Sk in C1.
    split; [rewrite Hi', Hi; reflexivity |].
    rewrite L, rev_app_distr, rev_involutive, seeks_app, filter_calls_app, Hs, Hc, S1, C1.
    split.
    + rewrite seq_S, map_app. reflexivity.
    + rewrite calls_upto_S. reflexivity.
  - unfold Run.visited_some. cbn [final].
    rewrite L, rev_app_distr, rev_involutive, seeks_app, filter_calls_app, Hs, Hc, S1, C1.
    destruct (cancelled st) eqn:C.
    + exists k, k. rewrite !app_nil_r. repeat split; lia.
    + exists (S k), k. rewrite seq_S, map_app.
      destruct (seek env k _) eqn:Sk; rewrite ?app_nil_r; repeat split; try lia.
      rewrite <- Hi in Sk.
      destruct (cell_goes_on toString_digits env colorFilter totalHexagons
                  (k / columns) (k mod columns) st C Sk) as [st'' E'].
      congruence.
  - unfold Run.visited_some. cbn [final].
    rewrite L, rev_app_distr, rev_involutive, seeks_app, filter_calls_app, Hs, Hc, S1, C1.
    destruct (cancelled st) eqn:C.
    + exists k, k. rewrite !app_nil_r. repeat split; lia.
    + exists (S k), k. rewrite seq_S, map_app.
      destruct (seek env k _) eqn:Sk; rewrite ?app_nil_r; repeat split; try lia.
      rewrite <- Hi in Sk.
      destruct (cell_goes_on toString_digits env colorFilter totalHexagons
                  (k / columns) (k mod columns) st C Sk) as [st'' E'].
      congruence.
Qed.

Lemma run_visited : visited_some generateGrid.
Proof.
  destruct generateGrid_cases as [H | ->].
  - destruct (plain_no_cell _ H) as [H1 H2].
    exists 0, 0. rewrite H1, H2. repeat split; try lia.
    unfold Run.calls_upto. destruct colorFilter; reflexivity.
  - assert (G := run_cells_invariant toString_digits env colorFilter totalHexagons
                   visited visited_some (grid rows columns) visited_cell start).
    rewrite grid_length in G.
    assert (V0 : visited 0 start).
    { destruct (plain_no_cell _ start_plain) as [H1 H2].
      split; [reflexivity |]. rewrite H1, H2. split; [reflexivity |].
      unfold Run.calls_upto. destruct colorFilter; reflexivity. }
    specialize (G V0).
    destruct (run_cells (grid rows columns) start) as [st | st | st]; try exact G.
    destruct G as (_ & Hs & Hc).
    exists (rows * columns), (rows * columns). split; [lia |]. cbn [final].
    destruct (finish_log st) as [-> | [cs ->]]; [split; assumption |].
    cbn [rev]. rewrite seeks_app, filter_calls_app, Hs, Hc, !app_nil_r.
    split; reflexivity.
Qed.

(** With no cancellation and every seek settling, the loop runs through. *)
Lemma run_cells_through (cells : list (nat * nat)) (st : State) :
  cleanup_at env = None ->
  (forall i t, seek env i t = Seeked) ->
  cancelled st = false ->
  exists st', run_cells cells st = Running st'.
Proof.
  intros NoCleanup AllSeeked. revert st.
  induction cells as [| [row col] cells IH]; intros st C; cbn [Loop.run_cells].
  - exists st. reflexivity.
  - destruct (cell_goes_on toString_digits env colorFilter totalHexagons row col st C
                (AllSeeked _ _)) as [st' E].
    rewrite E. apply IH.
    rewrite (cell_cancelled_after _ _ _ _ _ _ _ _ E).
    unfold cleanup_now. rewrite NoCleanup. reflexivity.
Qed.

Lemma run_visited_all :
  metadata env = Fulfilled -> tempCtx env = true ->
  cleanup_at env = None -> (forall i t, seek env i t = Seeked) ->
  seeks (rev (log (final generateGrid))) = map sample (List.seq 0 (rows * columns))
  /\ filter_calls (rev (log (final generateGrid))) = calls_upto (rows * columns).
Proof.
  intros M T NoCleanup AllSeeked.
  assert (E : generateGrid = match run_cells (grid rows columns) start with
                             | Running st => Returned (finish st)
                             | o => o
                             end).
  { unfold Generator.generateGrid.
    rewrite emits_log, suspend_state, M, T.
    cbn [cancelled hexIndex newColors log rev app emit negb].
    rewrite forRow_cells. fold (grid rows columns).
    match goal with
    | |- context [Loop.run_cells _ _ _ _ _ ?s] => change s with start
    end.
    destruct (run_cells (grid rows columns) start); try reflexivity.
    unfold Run.finish. destruct colorFilter; reflexivity. }
  assert (C0 : cancelled start = false).
  { unfold Run.start, cleanup_now. cbn [cancelled]. rewrite NoCleanup. reflexivity. }
  destruct (run_cells_through (grid rows columns) start NoCleanup AllSeeked C0) as [st R].
  assert (G := run_cells_invariant toString_digits env colorFilter totalHexagons
                 visited visited_some (grid rows columns) visited_cell start).
  rewrite grid_length, R in G.
  assert (V0 : visited 0 start).
  { destruct (plain_no_cell _ start_plain) as [H1 H2].
    split; [reflexivity |]. rewrite H1, H2. split; [reflexivity |].
    unfold Run.calls_upto. destruct colorFilter; reflexivity. }
  destruct (G V0) as (_ & Hs & Hc).
  rewrite E, R. cbn [final].
  destruct (finish_log st) as [-> | [cs ->]]; [split; assumption |].
  cbn [rev]. rewrite seeks_app, filter_calls_app, Hs, Hc, !app_nil_r.
  split; reflexivity.
Qed.

(** With no cancellation and every seek settling, a run in a colour mode
    ends by storing the colours it extracted. *)
Lemma run_stores_raw_colors :
  metadata env = Fulfilled -> tempCtx env = true ->
  cleanup_at env = None -> (forall i t, seek env i t = Seeked) ->
  colorFilter <> frame_based ->
  exists evs,
    rev (log (final generateGrid)) = evs ++ [SetColors (raw_colors (rows * columns))].
Proof.
  intros M T NoCleanup AllSeeked Colour.
  assert (E : generateGrid = match run_cells (grid rows columns) start with
                             | Running st => Returned (finish st)
                             | o => o
                             end).
  { unfold Generator.generateGrid.
    rewrite emits_log, suspend_state, M, T.
    cbn [cancelled hexIndex newColors log rev app emit negb].
    rewrite forRow_cells. fold (grid rows columns).
    match goal with
    | |- context [Loop.run_cells _ _ _ _ _ ?s] => change s with start
    end.
    destruct (run_cells (grid rows columns) start); try reflexivity.
    unfold Run.finish. destruct colorFilter; reflexivity. }
  assert (C0 : cancelled start = false).
  { unfold Run.start, cleanup_now. cbn [cancelled]. rewrite NoCleanup. reflexivity. }
  destruct (run_cells_through (grid rows columns) start NoCleanup AllSeeked C0) as [st R].
  assert (N : newColors st = raw_colors (rows * columns)).
  { assert (G := run_cells_invariant toString_digits env colorFilter totalHexagons
                   (fun k st => hexIndex st = k /\ newColors st = raw_colors k)
                   (fun _ => True) (grid rows columns)).
    cbv beta in G.
    assert (Step : forall k row col s0,
               nth_error (grid rows columns) k = Some (row, col) ->
               hexIndex s0 = k /\ newColors s0 = raw_colors k ->
               match cell row col s0 with
               | Running s1 => hexIndex s1 = S k /\ newColors s1 = raw_colors (S k)
               | _ => True
               end).
    { intros k row col s0 _ [Hi Hn].
      destruct (cell row col s0) as [s1 | s1 | s1] eqn:Ec; try exact Logic.I.
      destruct (cell_running _ _ _ _ _ _ _ _ Ec) as (_ & _ & Hi').
      rewrite (cell_newColors _ _ _ _ _ _ _ _ Ec), Hi', Hi, Hn.
      split; [reflexivity |].
      unfold Run.raw_colors. destruct colorFilter; rewrite ?app_nil_r; try reflexivity;
        rewrite seq_S, map_app; reflexivity. }
    assert (Init : hexIndex start = 0 /\ newColors start = raw_colors 0).
    { split; [reflexivity |]. unfold Run.raw_colors. destruct colorFilter; reflexivity. }
    specialize (G Step start Init). rewrite grid_length, R in G. exact (proj2 G). }
  rewrite E, R. cbn [final]. exists (rev (log st)).
  unfold Run.finish. rewrite <- N.
  destruct colorFilter; try reflexivity. contradiction Colour. reflexivity.
Qed.

End OneRun.

End RunFacts.

(* ================================================================== *)
(** * The filter pipeline: the stated properties *)
(* ================================================================== *)

Module FilterClaims.

Import JS ColorFilters Channel Spec ChannelFacts ParseFacts Tables Largest FilterProperties.
Local Open Scope float_scope.

(** C2, as stated, fails: with previous output RGB(100, 100, 100) and a
    candidate whose saturation-pushed value is RGB(200, 50, 50),
    gradient-flow does not return RGB(170, 65, 65).  The previous colour
    is saturation-pushed too, to RGB(130, 130, 130), before the blend; the
    result is RGB(179, 74, 74).  The same happens through
    [applyColorFilter] on the nearest integer candidate. *)
Lemma gradient_flow_example_refuted :
  enhanceVibrance pushed_candidate = mkRGB 200 50 50
  /\ applyGradientFlow no_digits pushed_candidate (Some (mkRGB 100 100 100))
     = "rgb(179, 74, 74)"%string
  /\ applyGradientFlow no_digits pushed_candidate (Some (mkRGB 100 100 100))
     <> "rgb(170, 65, 65)"%string
  /\ applyColorFilter no_digits "rgb(154, 71, 71)" gradient_flow (Some "rgb(100, 100, 100)"%string)
     = "rgb(179, 74, 74)"%string.
Proof.
  split; [vm_compute; reflexivity |].
  split; [vm_compute; reflexivity |].
  split; [vm_compute; discriminate |].
  vm_compute; reflexivity.
Qed.

(** C2, amended: for the gradient-flow filter with previous output colour
    RGB(100, 100, 100) and a candidate whose saturation-pushed value is
    RGB(200, 50, 50), the output is RGB(179, 74, 74): each channel is 0.7
    times the pushed candidate plus 0.3 times the saturation-pushed
    previous output, which is RGB(130, 130, 130). *)
Theorem gradient_flow_blends_pushed_previous
    (toString_digits : number -> string) (rgb : RGB) :
  enhanceVibrance rgb = mkRGB 200 50 50 ->
  enhanceVibrance (mkRGB 100 100 100) = mkRGB 130 130 130
  /\ applyGradientFlow toString_digits rgb (Some (mkRGB 100 100 100))
     = rgbToString toString_digits
         (mkRGB (200 * (1 - 0.3) + 130 * 0.3) (50 * (1 - 0.3) + 130 * 0.3)
                (50 * (1 - 0.3) + 130 * 0.3))
  /\ applyGradientFlow toString_digits rgb (Some (mkRGB 100 100 100))
     = "rgb(179, 74, 74)"%string.
Proof.
  intros H. split; [vm_compute; reflexivity |].
  unfold applyGradientFlow. rewrite H.
  split; vm_compute; reflexivity.
Qed.

Lemma gradient_flow_blends_pushed_previous_witness :
  enhanceVibrance pushed_candidate = mkRGB 200 50 50
  /\ applyGradientFlow no_digits pushed_candidate (Some (mkRGB 100 100 100))
     = "rgb(179, 74, 74)"%string.
Proof.
  assert (H : enhanceVibrance pushed_candidate = mkRGB 200 50 50)
    by (vm_compute; reflexivity).
  split; [exact H |].
  exact (proj2 (proj2 (gradient_flow_blends_pushed_previous no_digits pushed_candidate H))).
Defined.

(** C6: for every filter kind and every input colour whose three channels
    are in 0..255 (and, for gradient-flow, every previous colour whose
    channels are in 0..255), every channel of the output colour is in
    0..255; a filter that computes its output writes three integers in
    0..255. *)
Theorem filters_keep_channels_in_range
    (toString_digits : number -> string) (filter : FilterType)
    (color : string) (previousColor : option string) :
  channels_in_range color ->
  (forall p, previousColor = Some p -> channels_in_range p) ->
  channels_in_range (applyColorFilter toString_digits color filter previousColor)
  /\ (filter <> none -> filter <> frame_based ->
      gamut_color (applyColorFilter toString_digits color filter previousColor)).
Proof.
  intros Hc Hprev.
  assert (In := Hc). destruct In as (cr & cg & cb & Hr & Hg & Hb & E).
  destruct (filter_gamut toString_digits cr cg cb (parsePrevious previousColor)
              Hr Hg Hb (parsePrevious_channels previousColor Hprev))
    as (V & D & C & N & G).
  unfold applyColorFilter. rewrite E.
  destruct filter; (split; [| intros H1 H2]);
    try exact Hc; try contradiction; try assumption;
    apply gamut_color_channels; assumption.
Qed.

Lemma filters_keep_channels_in_range_witness :
  gamut_color (applyColorFilter no_digits "rgb(200,50,10)" gradient_flow
                 (Some "rgb(100, 100, 100)"%string)).
Proof.
  apply (filters_keep_channels_in_range no_digits gradient_flow
           "rgb(200,50,10)" (Some "rgb(100, 100, 100)"%string)); try discriminate.
  - exists 200%Z, 50%Z, 10%Z. unfold in_range. repeat split; try lia.
  - intros p H. injection H as <-.
    exists 100%Z, 100%Z, 100%Z. unfold in_range. repeat split; lia.
Defined.

(** C7: the contrast filter transforms each channel independently: a
    channel strictly above 128 is multiplied by 1.4 and clamped to 255, a
    channel at or below 128 is divided by 1.4 (the result being rounded to
    the nearest integer); on RGB(200, 50, 10) the output is
    RGB(255, 36, 7). *)
Theorem contrast_filter_per_channel (toString_digits : number -> string) :
  (forall (cr cg cb : Z) (previousColor : option string),
      in_range cr -> in_range cg -> in_range cb ->
      applyColorFilter toString_digits (css cr cg cb) contrast previousColor
      = css (contrast_channel cr) (contrast_channel cg) (contrast_channel cb))
  /\ applyColorFilter toString_digits "rgb(200, 50, 10)" contrast None
     = "rgb(255, 36, 7)"%string.
Proof.
  split.
  - intros. apply contrast_css; assumption.
  - vm_compute. reflexivity.
Qed.

Lemma contrast_filter_per_channel_witness :
  applyColorFilter no_digits (css 200 50 10) contrast None
  = css (contrast_channel 200) (contrast_channel 50) (contrast_channel 10).
Proof.
  apply (proj1 (contrast_filter_per_channel no_digits) 200%Z 50%Z 10%Z None);
    unfold in_range; lia.
Defined.

(** C8: for every filter kind except gradient-flow the result is a function
    of the candidate colour alone: any two values of the optional
    previous-colour argument, absent included, give the same output. *)
Theorem filters_ignore_previous_color
    (toString_digits : number -> string) (filter : FilterType)
    (color : string) (previous1 previous2 : option string) :
  filter <> gradient_flow ->
  applyColorFilter toString_digits color filter previous1
  = applyColorFilter toString_digits color filter previous2.
Proof.
  intros H. destruct filter; try reflexivity. contradiction H. reflexivity.
Qed.

Lemma filters_ignore_previous_color_witness :
  applyColorFilter no_digits "rgb(10, 200, 10)" neon None
  = applyColorFilter no_digits "rgb(10, 200, 10)" neon (Some "rgb(1, 2, 3)"%string).
Proof.
  apply (filters_ignore_previous_color no_digits neon "rgb(10, 200, 10)" None
           (Some "rgb(1, 2, 3)"%string)).
  discriminate.
Defined.

(** C9: a string in which the pattern of [parseRGB] matches nowhere is
    parsed as RGB(0, 0, 0); every filter other than the two pass-through
    ones then returns its output for black instead of signalling an
    error. *)
Theorem malformed_color_is_black
    (toString_digits : number -> string) (color : string)
    (filter : FilterType) (previousColor : option string) :
  color_match color = None ->
  parseRGB color = black
  /\ (filter <> none -> filter <> frame_based ->
      applyColorFilter toString_digits color filter previousColor
      = applyColorFilter toString_digits "rgb(0, 0, 0)" filter previousColor)
  /\ applyColorFilter toString_digits color vibrant previousColor = "rgb(0, 0, 0)"%string
  /\ applyColorFilter toString_digits color dynamic previousColor = "rgb(26, 26, 26)"%string
  /\ applyColorFilter toString_digits color contrast previousColor = "rgb(0, 0, 0)"%string
  /\ applyColorFilter toString_digits color neon previousColor = "rgb(0, 0, 0)"%string
  /\ applyColorFilter toString_digits color gradient_flow None = "rgb(0, 0, 0)"%string.
Proof.
  intros H.
  assert (B : parseRGB color = black) by (unfold parseRGB; rewrite H; reflexivity).
  assert (B0 : parseRGB "rgb(0, 0, 0)" = black) by (vm_compute; reflexivity).
  split; [exact B |]. split.
  - intros Hn Hf. unfold applyColorFilter. rewrite B, B0.
    destruct filter; try reflexivity; contradiction.
  - unfold applyColorFilter. rewrite B.
    repeat split; vm_compute; reflexivity.
Qed.

Lemma malformed_color_is_black_witness :
  applyColorFilter no_digits "#ff8800" dynamic None = "rgb(26, 26, 26)"%string.
Proof.
  assert (H : color_match "#ff8800" = None) by (vm_compute; reflexivity).
  exact (proj1 (proj2 (proj2 (proj2
    (malformed_color_is_black no_digits "#ff8800" dynamic None H))))).
Defined.

(** C10: every channel tied for the maximum is multiplied by 1.5 (clamped
    to 255, then rounded, a half rounding up) by the neon filter and by 1.3
    (clamped to 255) by the saturation push; a grey input (v, v, v) with
    v > 0 comes out of neon as min(255, 1.5 v) in all three channels, none
    being multiplied by 0.6. *)
Theorem tied_channels_are_all_boosted
    (toString_digits : number -> string) (cr cg cb : Z) (previousColor : option string) :
  in_range cr -> in_range cg -> in_range cb ->
  let m := max3 cr cg cb in
  let boosted z := Z.min 255 ((3 * z + 1) / 2) in
  let pushed := enhanceVibrance (parseRGB (css cr cg cb)) in
  (exists nr ng nb,
      applyColorFilter toString_digits (css cr cg cb) neon previousColor = css nr ng nb
      /\ (cr = m -> nr = boosted cr) /\ (cg = m -> ng = boosted cg)
      /\ (cb = m -> nb = boosted cb))
  /\ (cr = m -> r pushed = Math_min 255 (chan cr * 1.3))
  /\ (cg = m -> g pushed = Math_min 255 (chan cg * 1.3))
  /\ (cb = m -> b pushed = Math_min 255 (chan cb * 1.3))
  /\ (cr = cg -> cg = cb -> (0 < cr)%Z ->
      applyColorFilter toString_digits (css cr cg cb) neon previousColor
      = css (boosted cr) (boosted cr) (boosted cr)).
Proof.
  intros Hr Hg Hb m boosted pushed.
  assert (N := neon_css toString_digits cr cg cb previousColor Hr Hg Hb). fold m in N.
  assert (T : forall z, z = m -> neon_channel m z = boosted z).
  { intros z ->. unfold neon_channel. rewrite Z.eqb_refl. reflexivity. }
  assert (P : forall z, in_range z -> z = m ->
              (if (m =? 0)%Z then chan z
               else Math_min 255 (chan z * (if (z =? m)%Z then 1.3 else 0.7)))
              = Math_min 255 (chan z * 1.3)).
  { intros z Hz ->. rewrite Z.eqb_refl. destruct (Z.eqb_spec m 0) as [-> |]; reflexivity. }
  assert (E : pushed =
              if (m =? 0)%Z then mkRGB (chan cr) (chan cg) (chan cb)
              else mkRGB (Math_min 255 (chan cr * (if (cr =? m)%Z then 1.3 else 0.7)))
                         (Math_min 255 (chan cg * (if (cg =? m)%Z then 1.3 else 0.7)))
                         (Math_min 255 (chan cb * (if (cb =? m)%Z then 1.3 else 0.7)))).
  { unfold pushed. rewrite parseRGB_css by assumption.
    apply enhanceVibrance_chan; assumption. }
  split; [| split; [| split; [| split]]].
  - exists (neon_channel m cr), (neon_channel m cg), (neon_channel m cb).
    split; [exact N |]. repeat split; apply T.
  - intros H. rewrite E, <- (P cr Hr H). destruct (m =? 0)%Z; reflexivity.
  - intros H. rewrite E, <- (P cg Hg H). destruct (m =? 0)%Z; reflexivity.
  - intros H. rewrite E, <- (P cb Hb H). destruct (m =? 0)%Z; reflexivity.
  - intros H1 H2 _. rewrite N.
    assert (M : cr = m) by (unfold m, max3; lia).
    rewrite <- H2, <- H1, (T cr M). reflexivity.
Qed.

Lemma tied_channels_are_all_boosted_witness :
  applyColorFilter no_digits (css 7 7 7) neon None = css 11 11 11.
Proof.
  assert (R : in_range 7) by (unfold in_range; lia).
  refine (proj2 (proj2 (proj2 (proj2
    (tied_channels_are_all_boosted no_digits 7 7 7 None R R R)))) eq_refl eq_refl _).
  lia.
Defined.

End FilterClaims.

(* ================================================================== *)
(** * The extractor and the generation run: the stated properties *)
(* ================================================================== *)

Module GeneratorClaims.

Import JS ColorFilters Generator Channel Spec Loop Cell Run Extractor Scenario.
Import LoopFacts CellFacts RunFacts ExtractorFacts.
Local Open Scope nat_scope.
Local Open Scope list_scope.

(** C1: the code misses what the claim says.  [drawHexagon] passes
    [colors[index - 1]] as the previous colour, but [colors] is the state
    the effect closed over, which the run never updates.  On a first run
    ([colors] empty) of gradient-flow over the orange video, the filtered
    output of cell 0 is "rgb(255, 42, 8)" and the previous-colour argument
    for cell 1 is absent, so that nothing is blended; in an effect that
    closed over the [colors] of an earlier run, the argument for cell 1 is
    that stale entry "rgb(0, 0, 96)".  In neither run is it the filtered
    output of cell 0. *)
Lemma previous_color_is_stale_state :
  nth_error (filter_calls (trace (generatePattern no_digits first_run gradient_flow))) 0
    = Some (0%nat, "rgb(240, 60, 12)"%string, None, "rgb(255, 42, 8)"%string)
  /\ nth_error (filter_calls (trace (generatePattern no_digits first_run gradient_flow))) 1
    = Some (1%nat, "rgb(240, 60, 12)"%string, None, "rgb(255, 42, 8)"%string)
  /\ ~ previous_is_last_output
         (filter_calls (trace (generatePattern no_digits first_run gradient_flow)))
  /\ nth_error (filter_calls (trace (generatePattern no_digits later_run gradient_flow))) 1
    = Some (1%nat, "rgb(240, 60, 12)"%string, Some "rgb(0, 0, 96)"%string,
            "rgb(179, 29, 43)"%string)
  /\ ~ previous_is_last_output
         (filter_calls (trace (generatePattern no_digits later_run gradient_flow))).
Proof.
  assert (A0 : nth_error (filter_calls (trace (generatePattern no_digits first_run
                                                 gradient_flow))) 0
               = Some (0%nat, "rgb(240, 60, 12)"%string, None, "rgb(255, 42, 8)"%string))
    by (vm_compute; reflexivity).
  assert (A1 : nth_error (filter_calls (trace (generatePattern no_digits first_run
                                                 gradient_flow))) 1
               = Some (1%nat, "rgb(240, 60, 12)"%string, None, "rgb(255, 42, 8)"%string))
    by (vm_compute; reflexivity).
  assert (B0 : nth_error (filter_calls (trace (generatePattern no_digits later_run
                                                 gradient_flow))) 0
               = Some (0%nat, "rgb(240, 60, 12)"%string, None, "rgb(255, 42, 8)"%string))
    by (vm_compute; reflexivity).
  assert (B1 : nth_error (filter_calls (trace (generatePattern no_digits later_run
                                                 gradient_flow))) 1
               = Some (1%nat, "rgb(240, 60, 12)"%string, Some "rgb(0, 0, 96)"%string,
                       "rgb(179, 29, 43)"%string))
    by (vm_compute; reflexivity).
  repeat split; try assumption.
  - intros H. specialize (H _ _ _ _ _ _ _ A1 A0). discriminate.
  - intros H. specialize (H _ _ _ _ _ _ _ B1 B0). discriminate.
Qed.

(** The same defect in every run: the filter pipeline is called once for
    each cell processed in a colour mode, in ascending order of index, and
    what it is passed as the previous colour of cell i > 0 is entry i-1 of
    the [colors] array that the effect closed over (nothing when the array
    has no such entry), never the filtered output of cell i-1, which the
    run does not record.  What a run stores into [colors] when it ends are
    the extracted colours, before any filter. *)
Lemma previous_color_is_captured_entry
    (toString_digits : number -> string) (env : Env) (colorFilter : FilterType)
    (rows columns : nat) :
  let color i := getBrightestColor toString_digits
                   (capture env (sample_time env (rows * columns) i) 32) in
  let previous i := match i with O => None | S j => nth_error (colors env) j end in
  let calls n :=
    match colorFilter with
    | frame_based => []
    | _ => map (fun i => (i, color i, previous i,
                          applyColorFilter toString_digits (color i) colorFilter (previous i)))
               (List.seq 0 n)
    end in
  (exists n, n <= rows * columns
             /\ filter_calls (trace (generateGrid toString_digits env colorFilter rows columns))
                = calls n)
  /\ (metadata env = Fulfilled -> tempCtx env = true ->
      cleanup_at env = None -> (forall i t, seek env i t = Seeked) ->
      filter_calls (trace (generateGrid toString_digits env colorFilter rows columns))
      = calls (rows * columns)
      /\ (colorFilter <> frame_based ->
          exists evs,
            trace (generateGrid toString_digits env colorFilter rows columns)
            = evs ++ [SetColors (map color (List.seq 0 (rows * columns)))])).
Proof.
  intros color previous calls. split.
  - destruct (run_visited toString_digits env colorFilter rows columns)
      as (n & m & Hm & _ & Hc).
    exists m. split; [lia |]. exact Hc.
  - intros M T C S. split.
    + exact (proj2 (run_visited_all toString_digits env colorFilter rows columns M T C S)).
    + intros Colour.
      destruct (run_stores_raw_colors toString_digits env colorFilter rows columns
                  M T C S Colour) as [evs E].
      exists evs. unfold trace. rewrite E. unfold raw_colors.
      destruct colorFilter; try reflexivity. contradiction Colour. reflexivity.
Qed.

Lemma previous_color_is_captured_entry_witness :
  filter_calls (trace (generateGrid no_digits later_run gradient_flow 1 2))
  = [(0%nat, "rgb(240, 60, 12)"%string, None, "rgb(255, 42, 8)"%string);
     (1%nat, "rgb(240, 60, 12)"%string, Some "rgb(0, 0, 96)"%string,
      "rgb(179, 29, 43)"%string)].
Proof.
  rewrite (proj1 (proj2 (previous_color_is_captured_entry no_digits later_run
                           gradient_flow 1 2)
                    eq_refl eq_refl eq_refl (fun _ _ => eq_refl))).
  vm_compute. reflexivity.
Defined.




Import Luminance.

(** C4, as stated, fails.  The pixels RGB(0, 31, 3) and RGB(1, 0, 160) have
    the same luminance 18.539.  In the frame that holds them in this order
    the first pixel of largest luminance is RGB(0, 31, 3), whose boosted
    colour is "rgb(0, 37, 4)"; the extractor returns "rgb(1, 0, 192)", the
    boosted colour of the second pixel, as it does when the two are swapped:
    the binary64 values of the two luminances differ, and the larger one
    wins wherever its pixel stands. *)
Lemma first_pixel_of_equal_luminance_refuted :
  exact_luminance moss = exact_luminance indigo
  /\ first_brightest (data moss_first) 0 moss
  /\ rgbToString no_digits (boosted moss) = "rgb(0, 37, 4)"%string
  /\ getBrightestColor no_digits moss_first = "rgb(1, 0, 192)"%string
  /\ ~ returns_first_brightest no_digits moss_first
  /\ getBrightestColor no_digits indigo_first = "rgb(1, 0, 192)"%string.
Proof.
  assert (F : first_brightest (data moss_first) 0 moss).
  { split; [reflexivity |]. split.
    - intros q [<- | [<- | []]]; vm_compute; discriminate.
    - intros j q Hj. lia. }
  assert (A : rgbToString no_digits (boosted moss) = "rgb(0, 37, 4)"%string)
    by (vm_compute; reflexivity).
  assert (B : getBrightestColor no_digits moss_first = "rgb(1, 0, 192)"%string)
    by (vm_compute; reflexivity).
  split; [vm_compute; reflexivity |]. split; [exact F |].
  split; [exact A |]. split; [exact B |]. split.
  - intros H. specialize (H 0%nat moss F). rewrite A, B in H. discriminate.
  - vm_compute. reflexivity.
Qed.

(** C4, amended: for every frame buffer the extractor returns the colour of
    the pixel of largest luminance, the luminance being the binary64 value
    of [R * 0.299 + G * 0.587 + B * 0.114] as the code computes it; among
    the pixels of largest computed luminance the first in scan order wins;
    unless that pixel is black, each of its channels is multiplied by 1.2
    and clamped to 255 (and rounded when written into the colour
    string). *)
Theorem brightest_pixel_first_wins
    (toString_digits : number -> string) (imageData : ImageData) :
  data imageData <> [] ->
  exists k p,
    nth_error (data imageData) k = Some p
    /\ (forall q, In q (data imageData) -> gt (brightness q) (brightness p) = false)
    /\ (forall j q, (j < k)%nat -> nth_error (data imageData) j = Some q ->
                    lt (brightness q) (brightness p) = true)
    /\ getBrightestColor toString_digits imageData
       = rgbToString toString_digits (boosted p).
Proof.
  intros NE. unfold getBrightestColor.
  assert (S := scan_pixels_scanned (data imageData)).
  destruct S as [Hmax [St | (k & p & Hk & St & B & F)]].
  - destruct (data imageData) as [| p0 rest] eqn:D; [contradiction |].
    rewrite St in Hmax. cbn [maxBrightness] in Hmax.
    assert (Dark : is_black p0 = true).
    { destruct (bright_or_black p0) as [H | H]; [| exact H].
      rewrite (Hmax p0 (or_introl eq_refl)) in H. discriminate. }
    exists 0%nat, p0. split; [reflexivity |]. split; [| split].
    + intros q Hq. rewrite (black_brightness p0 Dark). apply Hmax, Hq.
    + intros j q Hj. lia.
    + rewrite St. unfold boosted. rewrite Dark.
      destruct (black_pixel p0 Dark) as (-> & -> & ->). reflexivity.
  - exists k, p. split; [exact Hk |]. split; [| split].
    + intros q Hq. specialize (Hmax q Hq). rewrite St in Hmax. exact Hmax.
    + exact F.
    + rewrite St, (saturate_brightest p B). reflexivity.
Qed.

Lemma brightest_pixel_first_wins_witness :
  exists k p,
    nth_error (data two_tone) k = Some p
    /\ (forall q, In q (data two_tone) -> gt (brightness q) (brightness p) = false)
    /\ (forall j q, (j < k)%nat -> nth_error (data two_tone) j = Some q ->
                    lt (brightness q) (brightness p) = true)
    /\ getBrightestColor no_digits two_tone = rgbToString no_digits (boosted p).
Proof.
  apply (brightest_pixel_first_wins no_digits two_tone). discriminate.
Defined.

(** The luminance that the extractor compares is the binary64 value of
    [r * 0.299 + g * 0.587 + b * 0.114].  Two pixels whose exact luminances
    are equal can differ in that value by a rounding error, and the scan
    then keeps the one with the larger computed value. *)
Lemma rounding_separates_equal_luminance :
  let a := mkPixel Byte.x00 Byte.x1f Byte.x03 Byte.xff in
  let c := mkPixel Byte.x01 Byte.x00 Byte.xa0 Byte.xff in
  (299 * 0 + 587 * 31 + 114 * 3 = 299 * 1 + 587 * 0 + 114 * 160)%Z
  /\ lt (brightness a) (brightness c) = true
  /\ getBrightestColor no_digits (mkImageData 2 1 [a; c]) = "rgb(1, 0, 192)"%string.
Proof. repeat split; vm_compute; reflexivity. Qed.

(** The canvas of 1000 by 600 with hexagons of radius 40 has 16 columns
    and 8 rows: [generatePattern] runs the loops over 128 cells. *)
Lemma pattern_grid (toString_digits : number -> string) (env : Env) (colorFilter : FilterType) :
  Generator.columns = 16 /\ Generator.rows = 8
  /\ generatePattern toString_digits env colorFilter
     = generateGrid toString_digits env colorFilter 8 16.
Proof. repeat split. Qed.

(** C5: cells are processed in row-major order: in a grid of R rows and C
    columns the cell of index i is at row i / C and column i mod C, and
    its frame is sampled at time i / N * duration, N = R * C. *)
Theorem cells_sampled_in_row_major_order
    (toString_digits : number -> string) (env : Env) (colorFilter : FilterType)
    (rows columns : nat) :
  let total := (rows * columns)%nat in
  let sample i := ((i / columns)%nat, (i mod columns)%nat, i,
                   (ofNat i / ofNat total * duration env)%float) in
  (exists n, n <= total
             /\ seeks (trace (generateGrid toString_digits env colorFilter rows columns))
                = map sample (List.seq 0 n))
  /\ (metadata env = Fulfilled -> tempCtx env = true ->
      cleanup_at env = None -> (forall i t, seek env i t = Seeked) ->
      seeks (trace (generateGrid toString_digits env colorFilter rows columns))
      = map sample (List.seq 0 total)).
Proof.
  intros total sample. split.
  - destruct (run_visited toString_digits env colorFilter rows columns)
      as (n & m & Hm & Hs & _).
    exists n. split; [lia |]. exact Hs.
  - intros M T C S.
    exact (proj1 (run_visited_all toString_digits env colorFilter rows columns M T C S)).
Qed.

Lemma cells_sampled_in_row_major_order_witness :
  seeks (trace (generateGrid no_digits first_run neon 2 3))
  = [(0, 0, 0, 0%float); (0, 1, 1, (1 / 6 * 10)%float); (0, 2, 2, (2 / 6 * 10)%float);
     (1, 0, 3, (3 / 6 * 10)%float); (1, 1, 4, (4 / 6 * 10)%float);
     (1, 2, 5, (5 / 6 * 10)%float)]%nat.
Proof.
  rewrite (proj2 (cells_sampled_in_row_major_order no_digits first_run neon 2 3)
             eq_refl eq_refl eq_refl (fun _ _ => eq_refl)).
  vm_compute. reflexivity.
Defined.

End GeneratorClaims.

(* ================================================================== *)
(** * Numerals and the syntax of colour strings *)
(* ================================================================== *)

Module NumeralFacts.

Import JS ColorFilters Channel ChannelFacts ParseFacts Integers.






End NumeralFacts.

Module SyntaxFacts.

Import JS ColorFilters Channel ChannelFacts ParseFacts Integers NumeralFacts.

Lemma span_spaces (w rest : string) (c : ascii) :
  all_space w = true -> is_space c = false ->
  span is_space (w ++ String c rest) = (w, String c rest).
Proof.
  intros Hw Hc. induction w as [| a w IH]; simpl.
  - rewrite Hc. reflexivity.
  - simpl in Hw. apply andb_true_iff in Hw as [Ha Hw].
    rewrite Ha, (IH Hw). reflexivity.
Qed.

Lemma spaces_before_numeral (w d rest : string) :
  all_space w = true -> numeral d = true -> spaces (w ++ d ++ rest) = (d ++ rest)%string.
Proof.
  intros Hw Hd. destruct d as [| a d]; [discriminate |].
  simpl in Hd. apply andb_true_iff in Hd as [Ha _].
  unfold spaces. cbn [append].
  rewrite span_spaces by (exact Hw || apply digit_not_space, Ha). reflexivity.
Qed.

(** The pattern matches at the head of a string that starts with three
    numerals between "rgb(" and ")", separated by commas, each comma
    followed by any white space. *)
Lemma match_here_numerals (d1 d2 d3 w1 w2 rest : string) :
  numeral d1 = true -> numeral d2 = true -> numeral d3 = true ->
  all_space w1 = true -> all_space w2 = true ->
  match_here ("rgb(" ++ d1 ++ "," ++ w1 ++ d2 ++ "," ++ w2 ++ d3 ++ ")" ++ rest)
  = Some (d1, d2, d3).
Proof.
  intros N1 N2 N3 W1 W2. unfold match_here.
  change (literal "rgb(" ("rgb(" ++ d1 ++ "," ++ w1 ++ d2 ++ "," ++ w2 ++ d3 ++ ")" ++ rest))
    with (Some (d1 ++ String "," (w1 ++ d2 ++ "," ++ w2 ++ d3 ++ ")" ++ rest))%string).
  cbv beta iota. rewrite digits1_numeral by (exact N1 || reflexivity).
  change (literal "," (String "," (w1 ++ d2 ++ "," ++ w2 ++ d3 ++ ")" ++ rest)))
    with (Some (w1 ++ d2 ++ String "," (w2 ++ d3 ++ ")" ++ rest))%string).
  cbv beta iota. rewrite spaces_before_numeral by assumption.
  rewrite digits1_numeral by (exact N2 || reflexivity).
  change (literal "," (String "," (w2 ++ d3 ++ ")" ++ rest)))
    with (Some (w2 ++ d3 ++ String ")" rest)%string).
  cbv beta iota. rewrite spaces_before_numeral by assumption.
  rewrite digits1_numeral by (exact N3 || reflexivity).
  reflexivity.
Qed.

Lemma parseRGB_numerals (d1 d2 d3 w1 w2 rest : string) :
  numeral d1 = true -> numeral d2 = true -> numeral d3 = true ->
  all_space w1 = true -> all_space w2 = true ->
  parseRGB ("rgb(" ++ d1 ++ "," ++ w1 ++ d2 ++ "," ++ w2 ++ d3 ++ ")" ++ rest)
  = mkRGB (parseInt d1) (parseInt d2) (parseInt d3).
Proof.
  intros N1 N2 N3 W1 W2. unfold parseRGB.
  rewrite (color_match_here _ _ (match_here_numerals d1 d2 d3 w1 w2 rest N1 N2 N3 W1 W2)).
  reflexivity.
Qed.



End SyntaxFacts.

(* ================================================================== *)
(** * Tables of the other channel functions *)
(* ================================================================== *)

Module IntegerTables.

Import JS ColorFilters Channel Spec ChannelFacts Rounding Tables Largest Integers.
Local Open Scope float_scope.

Lemma sums_complete (z : Z) : (0 <= z <= 510)%Z -> In z sums.
Proof.
  intros [Hlo Hhi].
  assert (E : sums = map Z.of_nat (List.seq 0 511)) by (vm_compute; reflexivity).
  rewrite E, <- (Z2Nat.id z) by exact Hlo.
  apply in_map, in_seq. lia.
Qed.

Lemma forall_sums (P : Z -> Z -> bool) :
  forallb (fun s => forallb (P s) channels) sums = true ->
  forall s c, (0 <= s <= 510)%Z -> in_range c -> P s c = true.
Proof.
  intros H s c Hs Hc. rewrite forallb_forall in H.
  apply (forall_channels (P s)); [| exact Hc]. apply H, sums_complete, Hs.
Qed.

(** The sum of two channel values is exact. *)
Lemma chan_add (a c : Z) : in_range a -> in_range c -> chan a + chan c = chan (a + c).
Proof.
  intros Ha Hc. apply FloatAxioms.Leibniz.eqb_spec.
  revert a c Ha Hc. by_table.
Qed.

(** The mean of three channels is above a half of 255 from the sum 383 on. *)
Lemma bright_sum (s c : Z) :
  (0 <= s <= 510)%Z -> in_range c ->
  gt ((chan s + chan c) / (3 * 255)) 0.5 = (383 <=? s + c)%Z.
Proof.
  intros Hs Hc.
  assert (H : Bool.eqb (gt ((chan s + chan c) / (3 * 255)) 0.5) (383 <=? s + c)%Z = true).
  { revert s c Hs Hc. apply forall_sums. vm_compute. reflexivity. }
  apply Bool.eqb_prop, H.
Qed.

Lemma bright_chan (cr cg cb : Z) :
  in_range cr -> in_range cg -> in_range cb ->
  gt ((chan cr + chan cg + chan cb) / (3 * 255)) 0.5 = (383 <=? cr + cg + cb)%Z.
Proof.
  intros Hr Hg Hb. rewrite chan_add by assumption.
  apply bright_sum; [unfold in_range in *; lia | exact Hb].
Qed.

Lemma dynamic_rounds (bright : bool) (z : Z) :
  in_range z ->
  rounds_to (Math_min 255 (Math_max 0 ((chan z - 128) * (if bright then 1.3 else 0.8) + 128)))
            (dynamic_channel bright z) = true.
Proof.
  intros Hz.
  assert (H : rounds_to (Math_min 255 (Math_max 0 ((chan z - 128) * 1.3 + 128)))
                        (dynamic_channel true z)
              && rounds_to (Math_min 255 (Math_max 0 ((chan z - 128) * 0.8 + 128)))
                           (dynamic_channel false z) = true).
  { revert z Hz. by_table. }
  split_andb. destruct bright; assumption.
Qed.

Lemma boost_rounds (z : Z) :
  in_range z -> rounds_to (Math_min 255 (chan z * 1.2)) (boost_channel z) = true.
Proof. revert z. by_table. Qed.

Lemma raised_rounds (z : Z) (x : number) :
  (0 <= z)%Z -> raised z x = true -> exists n, rounds_to x n = true /\ (z <= n)%Z.
Proof.
  unfold raised, rounds_to. destruct (rounded x) as [k |]; [| discriminate].
  intros Hz H. apply andb_true_iff in H as [H1 H2]. exists k.
  rewrite Z.eqb_refl, H2. apply Z.leb_le in H1. cbn [andb].
  split; [| exact H1].
  rewrite andb_true_r. apply Z.leb_le. lia.
Qed.

Lemma lowered_rounds (z : Z) (x : number) :
  (z <= 255)%Z -> lowered z x = true -> exists n, rounds_to x n = true /\ (n <= z)%Z.
Proof.
  unfold lowered, rounds_to. destruct (rounded x) as [k |]; [| discriminate].
  intros Hz H. apply andb_true_iff in H as [H1 H2]. exists k.
  rewrite Z.eqb_refl, H1. apply Z.leb_le in H2. cbn [andb].
  split; [| exact H2]. apply Z.leb_le. lia.
Qed.

Lemma dimmer_rounds (x y : number) :
  dimmer x y = true ->
  exists k n, rounds_to x k = true /\ rounds_to y n = true /\ (k <= n)%Z.
Proof.
  unfold dimmer, rounds_to.
  destruct (rounded x) as [k |]; [| discriminate].
  destruct (rounded y) as [n |]; [| discriminate].
  intros H. apply andb_true_iff in H as [H H3]. apply andb_true_iff in H as [H1 H2].
  exists k, n. rewrite !Z.eqb_refl, H1, H3. apply Z.leb_le in H1, H2, H3. cbn [andb].
  rewrite !andb_true_r.
  repeat split; [apply Z.leb_le; lia | apply Z.leb_le; lia | exact H2].
Qed.

End IntegerTables.

Module StretchFacts.

Import JS ColorFilters Channel Spec ChannelFacts Rounding Tables Largest Integers IntegerTables.
Local Open Scope float_scope.

Lemma rounds_to_range (x : number) (n : Z) : rounds_to x n = true -> in_range n.
Proof.
  unfold rounds_to. destruct (rounded x) as [k |]; [| discriminate].
  intros H. apply andb_true_iff in H as [H H2]. apply andb_true_iff in H as [H0 H1].
  apply Z.eqb_eq in H0. apply Z.leb_le in H1, H2. subst k. split; assumption.
Qed.

Lemma stretched_largest (m z : Z) (x : number) :
  in_range z -> z = m -> raised z x = true ->
  exists n, rounds_to x n = true /\ stretched m z n.
Proof.
  intros Hz E H. apply raised_rounds in H as (n & R & L); [| apply Hz].
  exists n. split; [exact R |]. split; [exact (rounds_to_range _ _ R) |].
  split; [intros _; exact L | intros N; contradiction].
Qed.

Lemma stretched_other (m z : Z) (x : number) :
  in_range z -> z <> m -> lowered z x = true ->
  exists n, rounds_to x n = true /\ stretched m z n.
Proof.
  intros Hz E H. apply lowered_rounds in H as (n & R & L); [| apply Hz].
  exists n. split; [exact R |]. split; [exact (rounds_to_range _ _ R) |].
  split; [intros N; contradiction | intros _; exact L].
Qed.

(** The saturation push raises a largest channel and lowers another. *)
Lemma push_table (z : Z) :
  in_range z ->
  raised z (Math_min 255 (chan z * 1.3)) && lowered z (Math_min 255 (chan z * 0.7))
  && raised z (chan z) = true.
Proof. revert z. by_table. Qed.

(** So does the vibrant filter, whichever boost it takes. *)
Lemma vibrant_table (z : Z) :
  in_range z ->
  raised z (Math_min 255 (Math_min 255 (chan z * 1.3) * 1.4))
  && raised z (Math_min 255 (Math_min 255 (chan z * 1.3) * 1.1))
  && lowered z (Math_min 255 (Math_min 255 (chan z * 0.7) * 1.4))
  && lowered z (Math_min 255 (Math_min 255 (chan z * 0.7) * 1.1))
  && raised z (Math_min 255 (chan z * 1.4))
  && raised z (Math_min 255 (chan z * 1.1)) = true.
Proof. revert z. by_table. Qed.

Lemma neon_table (z : Z) :
  in_range z ->
  ((z <=? Z.min 255 ((3 * z + 1) / 2)) && ((6 * z + 5) / 10 <=? z))%Z = true.
Proof. revert z. by_table. Qed.

Lemma push_stretched (m z : Z) :
  in_range z -> (m = 0 -> z = m)%Z ->
  exists n,
    rounds_to (if (m =? 0)%Z then chan z
               else Math_min 255 (chan z * (if (z =? m)%Z then 1.3 else 0.7))) n = true
    /\ stretched m z n.
Proof.
  intros Hz H0. assert (T := push_table z Hz). split_andb.
  destruct (Z.eqb_spec m 0) as [E | E].
  - apply stretched_largest; auto.
  - destruct (Z.eqb_spec z m) as [E' | E'].
    + apply stretched_largest; assumption.
    + apply stretched_other; assumption.
Qed.

Lemma vibrant_stretched (m z : Z) (dark : bool) :
  in_range z -> (m = 0 -> z = m)%Z ->
  exists n,
    rounds_to (Math_min 255
                 ((if (m =? 0)%Z then chan z
                   else Math_min 255 (chan z * (if (z =? m)%Z then 1.3 else 0.7)))
                  * (if dark then 1.4 else 1.1))) n = true
    /\ stretched m z n.
Proof.
  intros Hz H0. assert (T := vibrant_table z Hz). split_andb.
  destruct (Z.eqb_spec m 0) as [E | E].
  - apply stretched_largest; auto. destruct dark; assumption.
  - destruct (Z.eqb_spec z m) as [E' | E'].
    + apply stretched_largest; try assumption. destruct dark; assumption.
    + apply stretched_other; try assumption. destruct dark; assumption.
Qed.

Lemma neon_stretched (m z : Z) :
  in_range z ->
  rounds_to (if (z =? m)%Z then Math_min 255 (chan z * 1.5) else chan z * 0.6)
            (neon_channel m z) = true
  /\ stretched m z (neon_channel m z).
Proof.
  intros Hz. assert (T := neon_table z Hz). split_andb.
  assert (R : rounds_to (if (z =? m)%Z then Math_min 255 (chan z * 1.5) else chan z * 0.6)
                        (neon_channel m z) = true).
  { unfold neon_channel. destruct (z =? m)%Z;
      [apply neon_boost_rounds | apply neon_damp_rounds]; exact Hz. }
  split; [exact R |]. split; [exact (rounds_to_range _ _ R) |].
  unfold neon_channel. split; intros E.
  - apply Z.eqb_eq in E. rewrite E. apply Z.leb_le. assumption.
  - apply Z.eqb_neq in E. rewrite E. apply Z.leb_le. assumption.
Qed.

Lemma max3_zero (cr cg cb : Z) :
  in_range cr -> in_range cg -> in_range cb ->
  max3 cr cg cb = 0%Z -> cr = 0%Z /\ cg = 0%Z /\ cb = 0%Z.
Proof. unfold in_range, max3. lia. Qed.

(** The contrast filter on a channel, in integers. *)
Lemma contrast_table (a c : Z) :
  in_range a -> in_range c ->
  ((0 <=? contrast_channel a) && (contrast_channel a <=? 255)
   && (if a <=? 128 then contrast_channel a <=? a else a <=? contrast_channel a)
   && (if a <=? c then contrast_channel a <=? contrast_channel c else true))%Z = true.
Proof. revert a c. by_table. Qed.

(** The blend with black. *)
Lemma dimmer_table (z : Z) :
  in_range z ->
  dimmer (flow (pushed z 0) 0) (pushed z 0)
  && dimmer (flow (pushed z 1) 0) (pushed z 1)
  && dimmer (flow (pushed z 2) 0) (pushed z 2) = true.
Proof. revert z. by_table. Qed.

End StretchFacts.

(* ================================================================== *)
(** * The filter pipeline: further properties *)
(* ================================================================== *)

Module FilterBehaviour.

Import JS ColorFilters Channel Spec ChannelFacts ParseFacts Tables Largest FilterProperties.
Import Integers NumeralFacts SyntaxFacts IntegerTables StretchFacts.
Local Open Scope float_scope.

(** X1: a colour whose three channels round to integers in 0..255 is written
    by [rgbToString] as a string that [parseRGB] reads back as exactly those
    integers. *)
Theorem written_colour_is_read_back
    (toString_digits : number -> string) (x y z : number) (nx ny nz : Z) :
  rounds_to x nx = true -> rounds_to y ny = true -> rounds_to z nz = true ->
  parseRGB (rgbToString toString_digits (mkRGB x y z)) = mkRGB (chan nx) (chan ny) (chan nz).
Proof.
  intros Hx Hy Hz.
  rewrite (rgbToString_rounds toString_digits _ _ _ _ _ _ Hx Hy Hz).
  apply parseRGB_css; eapply rounds_to_range; eassumption.
Qed.

Lemma written_colour_is_read_back_witness :
  parseRGB (rgbToString no_digits (mkRGB 12.5 254.4999 0.2)) = mkRGB 13 254 0.
Proof.
  apply (written_colour_is_read_back no_digits 12.5 254.4999 0.2 13 254 0);
    vm_compute; reflexivity.
Defined.

(** X2: [parseRGB] reads the first three numerals of a string that starts
    with "rgb(", three runs of decimal digits separated by commas, each comma
    followed by any amount of white space, and ")"; whatever follows the
    closing parenthesis is ignored, and each numeral, of any length, is read
    in base ten. *)
Theorem parseRGB_accepts_white_space_and_trailing_text
    (d1 d2 d3 w1 w2 rest : string) :
  numeral d1 = true -> numeral d2 = true -> numeral d3 = true ->
  all_space w1 = true -> all_space w2 = true ->
  parseRGB ("rgb(" ++ d1 ++ "," ++ w1 ++ d2 ++ "," ++ w2 ++ d3 ++ ")" ++ rest)
  = mkRGB (ofN (digits_value 0%N d1)) (ofN (digits_value 0%N d2)) (ofN (digits_value 0%N d3)).
Proof. apply parseRGB_numerals. Qed.

Lemma parseRGB_accepts_white_space_and_trailing_text_witness :
  parseRGB "rgb(007,18,   250) none" = mkRGB 7 18 250.
Proof.
  apply (parseRGB_accepts_white_space_and_trailing_text "007" "18" "250" "" "   " " none");
    reflexivity.
Defined.



(** X4: the dynamic filter on integer channels in 0..255: when the sum of
    the three channels is at least 383 (the mean is above 127.5) each
    channel c becomes 1.3 c - 38.4 clamped to 0..255, otherwise
    0.8 c + 25.6; the result is rounded to the nearest integer. *)
Theorem dynamic_filter_per_channel
    (toString_digits : number -> string) (cr cg cb : Z) (previousColor : option string) :
  in_range cr -> in_range cg -> in_range cb ->
  let bright := (383 <=? cr + cg + cb)%Z in
  applyColorFilter toString_digits (css cr cg cb) dynamic previousColor
  = css (dynamic_channel bright cr) (dynamic_channel bright cg) (dynamic_channel bright cb).
Proof.
  intros Hr Hg Hb bright. unfold applyColorFilter.
  rewrite parseRGB_css by assumption.
  unfold applyDynamicFilter. cbn [r g b]. cbv zeta.
  rewrite bright_chan by assumption. fold bright.
  apply rgbToString_rounds; apply dynamic_rounds; assumption.
Qed.

Lemma dynamic_filter_per_channel_witness :
  applyColorFilter no_digits "rgb(200, 50, 10)" dynamic None = "rgb(186, 66, 34)"%string
  /\ applyColorFilter no_digits "rgb(200, 150, 33)" dynamic None = "rgb(222, 157, 5)"%string.
Proof.
  split.
  - apply (dynamic_filter_per_channel no_digits 200 50 10 None); unfold in_range; lia.
  - apply (dynamic_filter_per_channel no_digits 200 150 33 None); unfold in_range; lia.
Defined.

(** X5: the vibrant filter, the neon filter and gradient-flow without a
    previous colour all push the saturation: on integer channels in 0..255
    the output is a colour of integer channels in 0..255 in which no channel
    equal to the largest input channel is lowered and no other channel is
    raised. *)
Theorem saturating_filters_stretch
    (toString_digits : number -> string) (filter : FilterType) (cr cg cb : Z) :
  in_range cr -> in_range cg -> in_range cb ->
  filter = vibrant \/ filter = neon \/ filter = gradient_flow ->
  exists nr ng nb,
    applyColorFilter toString_digits (css cr cg cb) filter None = css nr ng nb
    /\ stretched (max3 cr cg cb) cr nr
    /\ stretched (max3 cr cg cb) cg ng
    /\ stretched (max3 cr cg cb) cb nb.
Proof.
  intros Hr Hg Hb Hf.
  assert (Z0 := max3_zero cr cg cb Hr Hg Hb).
  assert (Zr : max3 cr cg cb = 0%Z -> cr = max3 cr cg cb) by (intros E; rewrite E; apply Z0, E).
  assert (Zg : max3 cr cg cb = 0%Z -> cg = max3 cr cg cb) by (intros E; rewrite E; apply Z0, E).
  assert (Zb : max3 cr cg cb = 0%Z -> cb = max3 cr cg cb) by (intros E; rewrite E; apply Z0, E).
  unfold applyColorFilter. rewrite parseRGB_css by assumption.
  destruct Hf as [-> | [-> | ->]].
  - (* vibrant *)
    unfold applyVibrantFilter. rewrite enhanceVibrance_chan by assumption. cbv zeta.
    set (m := max3 cr cg cb) in *.
    match goal with
    | |- context [if lt ?v 0.5 then _ else _] => generalize (lt v 0.5)
    end.
    intros dark.
    destruct (vibrant_stretched m cr dark Hr Zr) as (nr & Rr & Sr).
    destruct (vibrant_stretched m cg dark Hg Zg) as (ng & Rg & Sg).
    destruct (vibrant_stretched m cb dark Hb Zb) as (nb & Rb & Sb).
    exists nr, ng, nb. repeat split; try (apply Sr || apply Sg || apply Sb).
    destruct (m =? 0)%Z; cbn [r g b] in *; apply rgbToString_rounds; assumption.
  - (* neon *)
    rewrite neon_rgb by assumption.
    exists (neon_channel (max3 cr cg cb) cr), (neon_channel (max3 cr cg cb) cg),
           (neon_channel (max3 cr cg cb) cb).
    split; [reflexivity |]. repeat split; apply neon_stretched; assumption.
  - (* gradient-flow *)
    cbn [parsePrevious applyGradientFlow].
    rewrite enhanceVibrance_chan by assumption. cbv zeta.
    set (m := max3 cr cg cb) in *.
    destruct (push_stretched m cr Hr Zr) as (nr & Rr & Sr).
    destruct (push_stretched m cg Hg Zg) as (ng & Rg & Sg).
    destruct (push_stretched m cb Hb Zb) as (nb & Rb & Sb).
    exists nr, ng, nb. repeat split; try (apply Sr || apply Sg || apply Sb).
    destruct (m =? 0)%Z; apply rgbToString_rounds; assumption.
Qed.

Lemma saturating_filters_stretch_witness :
  exists nr ng nb,
    applyColorFilter no_digits (css 200 50 10) vibrant None = css nr ng nb
    /\ stretched 200 200 nr /\ stretched 200 50 ng /\ stretched 200 10 nb.
Proof.
  apply (saturating_filters_stretch no_digits vibrant 200 50 10);
    try (unfold in_range; lia). left. reflexivity.
Defined.

(** X6: the contrast filter spreads the channels around 128 and keeps their
    order: on integer channels in 0..255 a channel at or below 128 is not
    raised, a channel above 128 is not lowered, and of two channels the one
    that is not larger on input is not larger on output. *)
Theorem contrast_filter_spreads_channels
    (toString_digits : number -> string) (cr cg cb : Z) (previousColor : option string) :
  in_range cr -> in_range cg -> in_range cb ->
  exists nr ng nb,
    applyColorFilter toString_digits (css cr cg cb) contrast previousColor = css nr ng nb
    /\ spread cr nr /\ spread cg ng /\ spread cb nb
    /\ (cr <= cg -> nr <= ng)%Z /\ (cg <= cr -> ng <= nr)%Z
    /\ (cg <= cb -> ng <= nb)%Z /\ (cb <= cg -> nb <= ng)%Z
    /\ (cr <= cb -> nr <= nb)%Z /\ (cb <= cr -> nb <= nr)%Z.
Proof.
  intros Hr Hg Hb.
  exists (contrast_channel cr), (contrast_channel cg), (contrast_channel cb).
  split; [apply contrast_css; assumption |].
  assert (S : forall a, in_range a -> spread a (contrast_channel a)).
  { intros a Ha. assert (T := contrast_table a a Ha Ha). split_andb.
    repeat match goal with H : (_ <=? _)%Z = true |- _ => apply Z.leb_le in H end.
    split; [split; assumption |].
    destruct (Z.leb_spec a 128);
      match goal with H : (_ <=? _)%Z = true |- _ => apply Z.leb_le in H end;
      split; intros; (assumption || lia). }
  assert (M : forall a c, in_range a -> in_range c ->
                          (a <= c)%Z -> (contrast_channel a <= contrast_channel c)%Z).
  { intros a c Ha Hc L. assert (T := contrast_table a c Ha Hc). split_andb.
    apply Z.leb_le in L. rewrite L in *. apply Z.leb_le. assumption. }
  repeat split; try (apply S; assumption); apply M; assumption.
Qed.

Lemma contrast_filter_spreads_channels_witness :
  exists nr ng nb,
    applyColorFilter no_digits (css 128 129 40) contrast None = css nr ng nb
    /\ spread 128 nr /\ spread 129 ng /\ spread 40 nb
    /\ (128 <= 129 -> nr <= ng)%Z /\ (129 <= 128 -> ng <= nr)%Z
    /\ (129 <= 40 -> ng <= nb)%Z /\ (40 <= 129 -> nb <= ng)%Z
    /\ (128 <= 40 -> nr <= nb)%Z /\ (40 <= 128 -> nb <= nr)%Z.
Proof.
  apply (contrast_filter_spreads_channels no_digits 128 129 40 None); unfold in_range; lia.
Defined.

(** X7: what gradient-flow makes of an unusable previous colour.  The empty
    string counts as no previous colour.  A non-empty string in which the
    pattern of [parseRGB] matches nowhere counts as black: it is blended
    in, and on integer channels in 0..255 no channel of the output is then
    higher than without a previous colour. *)
Theorem gradient_flow_unusable_previous
    (toString_digits : number -> string) (cr cg cb : Z) (previous : string) :
  in_range cr -> in_range cg -> in_range cb ->
  previous <> ""%string -> color_match previous = None ->
  applyColorFilter toString_digits (css cr cg cb) gradient_flow (Some ""%string)
  = applyColorFilter toString_digits (css cr cg cb) gradient_flow None
  /\ applyColorFilter toString_digits (css cr cg cb) gradient_flow (Some previous)
     = applyColorFilter toString_digits (css cr cg cb) gradient_flow (Some "rgb(0, 0, 0)"%string)
  /\ exists nr ng nb kr kg kb,
       applyColorFilter toString_digits (css cr cg cb) gradient_flow (Some previous)
       = css nr ng nb
       /\ applyColorFilter toString_digits (css cr cg cb) gradient_flow None = css kr kg kb
       /\ (nr <= kr)%Z /\ (ng <= kg)%Z /\ (nb <= kb)%Z.
Proof.
  intros Hr Hg Hb Hne Hno.
  assert (P : parsePrevious (Some previous) = Some black).
  { unfold parsePrevious. destruct previous as [| c p]; [contradiction |].
    unfold parseRGB. rewrite Hno. reflexivity. }
  split; [reflexivity |]. split.
  - unfold applyColorFilter. rewrite P. reflexivity.
  - unfold applyColorFilter. rewrite P. cbn [parsePrevious].
    rewrite parseRGB_css by assumption.
    unfold applyGradientFlow.
    destruct (enhanceVibrance_shapes cr cg cb Hr Hg Hb) as (i & j & k & ->).
    change (enhanceVibrance black) with (mkRGB 0 0 0). cbn [r g b]. cbv zeta.
    assert (D : forall z s, in_range z ->
                  exists n m, rounds_to (flow (pushed z s) 0) n = true
                              /\ rounds_to (pushed z s) m = true /\ (n <= m)%Z).
    { intros z s Hz. assert (T := dimmer_table z Hz). split_andb.
      apply dimmer_rounds. destruct s as [| [| s]]; assumption. }
    destruct (D cr i Hr) as (nr & kr & R1 & R2 & Lr).
    destruct (D cg j Hg) as (ng & kg & G1 & G2 & Lg).
    destruct (D cb k Hb) as (nb & kb & B1 & B2 & Lb).
    exists nr, ng, nb, kr, kg, kb.
    split; [apply rgbToString_rounds; assumption |].
    split; [apply rgbToString_rounds; assumption |].
    repeat split; assumption.
Qed.

Lemma gradient_flow_unusable_previous_witness :
  applyColorFilter no_digits (css 200 50 10) gradient_flow (Some "#ffffff"%string)
  = applyColorFilter no_digits (css 200 50 10) gradient_flow (Some "rgb(0, 0, 0)"%string).
Proof.
  apply (gradient_flow_unusable_previous no_digits 200 50 10 "#ffffff");
    try (unfold in_range; lia); [discriminate | reflexivity].
Defined.

End FilterBehaviour.

(* ================================================================== *)
(** * The extractor: further properties *)
(* ================================================================== *)

Module BoostFacts.

Import JS ColorFilters Generator Channel Spec ChannelFacts ParseFacts Tables Largest.
Import FilterProperties FloatOrder FloatOrderFacts Extractor ExtractorFacts.
Import Integers IntegerTables StretchFacts.
Local Open Scope float_scope.

Section WithDigits.

Variable toString_digits : number -> string.

Local Abbreviation getBrightestColor := (getBrightestColor toString_digits).

Lemma getBrightestColor_rgbToString (imageData : ImageData) :
  getBrightestColor imageData
  = rgbToString toString_digits (saturate (scan_pixels (data imageData))).
Proof. reflexivity. Qed.

(** The scan ends on nothing, or on a pixel with some light in it. *)
Lemma scan_pixels_cases (pixels : list Pixel) :
  (scan_pixels pixels = mkBrightest 0 0 0 0
   /\ forall q, In q pixels -> is_black q = true)
  \/ exists p, In p pixels /\ is_black p = false
               /\ saturate (scan_pixels pixels)
                  = mkRGB (Math_min 255 (ofByte (red p) * 1.2))
                          (Math_min 255 (ofByte (green p) * 1.2))
                          (Math_min 255 (ofByte (blue p) * 1.2)).
Proof.
  destruct (scan_pixels_scanned pixels) as [Hmax [E | (k & p & Hk & E & Hp & _)]].
  - left. split; [exact E |]. intros q Hq.
    destruct (bright_or_black q) as [B | B]; [| exact B].
    specialize (Hmax q Hq). rewrite E in Hmax. cbn [maxBrightness] in Hmax.
    rewrite B in Hmax. discriminate.
  - right. exists p.
    assert (NB : is_black p = false).
    { destruct (is_black p) eqn:B; [| reflexivity].
      rewrite (black_brightness p B) in Hp. discriminate. }
    split; [exact (nth_error_In _ _ Hk) |]. split; [exact NB |].
    rewrite E, saturate_brightest by exact Hp. unfold boosted. rewrite NB. reflexivity.
Qed.

Lemma boosted_color (p : Pixel) :
  rgbToString toString_digits
    (mkRGB (Math_min 255 (ofByte (red p) * 1.2)) (Math_min 255 (ofByte (green p) * 1.2))
           (Math_min 255 (ofByte (blue p) * 1.2)))
  = css (boost_channel (byteZ (red p))) (boost_channel (byteZ (green p)))
        (boost_channel (byteZ (blue p))).
Proof.
  rewrite !ofByte_chan.
  apply rgbToString_rounds; apply boost_rounds, byteZ_range.
Qed.

Lemma boost_range (z : Z) : in_range z -> in_range (boost_channel z).
Proof. intros Hz. exact (rounds_to_range _ _ (boost_rounds z Hz)). Qed.

Lemma boost_zero (z : Z) : in_range z -> boost_channel z = 0%Z -> z = 0%Z.
Proof.
  intros Hz. assert (H : implb (boost_channel z =? 0)%Z (z =? 0)%Z = true).
  { revert z Hz. by_table. }
  intros E. rewrite E in H. cbn in H. apply Z.eqb_eq. exact H.
Qed.

(** Two colour strings of channel values are equal only if the values are. *)
Lemma css_inj (a c d a' c' d' : Z) :
  in_range a -> in_range c -> in_range d -> in_range a' -> in_range c' -> in_range d' ->
  css a c d = css a' c' d' -> a = a' /\ c = c' /\ d = d'.
Proof.
  intros Ha Hc Hd Ha' Hc' Hd' E.
  assert (P : parseRGB (css a c d) = parseRGB (css a' c' d')) by (rewrite E; reflexivity).
  rewrite !parseRGB_css in P by assumption.
  injection P as E1 E2 E3.
  assert (Q : forall x y, in_range x -> in_range y -> chan x = chan y -> x = y).
  { intros x y Hx Hy Exy. apply Z.eqb_eq. rewrite <- strict_eq_chan by assumption.
    rewrite Exy. rewrite strict_eq_chan by assumption. apply Z.eqb_refl. }
  repeat split; apply Q; assumption.
Qed.

End WithDigits.

Lemma scan_pixel_bytes (st : Brightest) (p q : Pixel) :
  rgb_bytes p = rgb_bytes q -> scan_pixel st p = scan_pixel st q.
Proof.
  unfold rgb_bytes. intros E. injection E as Er Eg Eb.
  unfold scan_pixel, brightness. rewrite Er, Eg, Eb. reflexivity.
Qed.

Lemma scan_bytes (xs ys : list Pixel) (st : Brightest) :
  map rgb_bytes xs = map rgb_bytes ys ->
  fold_left scan_pixel xs st = fold_left scan_pixel ys st.
Proof.
  revert ys st. induction xs as [| x xs IH]; intros [| y ys] st E; try discriminate.
  - reflexivity.
  - cbn [map] in E.
    assert (E1 : rgb_bytes x = rgb_bytes y) by congruence.
    assert (E2 : map rgb_bytes xs = map rgb_bytes ys) by congruence.
    cbn [fold_left]. rewrite (scan_pixel_bytes st x y E1). apply IH, E2.
Qed.

End BoostFacts.

Module ExtractorBehaviour.

Import JS ColorFilters Generator Channel Spec ChannelFacts ParseFacts Tables Largest.
Import FilterProperties Extractor ExtractorFacts.
Import Integers IntegerTables StretchFacts BoostFacts.
Local Open Scope float_scope.

(** X8: the extractor always returns a well-formed colour string of three
    integers in 0..255: the channels of one pixel of the frame, or of black,
    each multiplied by 1.2, clamped to 255 and rounded; [parseRGB] reads
    that string back as those integers. *)
Theorem extractor_returns_boosted_pixel
    (toString_digits : number -> string) (imageData : ImageData) :
  exists cr cg cb,
    ((cr = 0 /\ cg = 0 /\ cb = 0)%Z
     \/ exists p, In p (data imageData)
                  /\ cr = byteZ (red p) /\ cg = byteZ (green p) /\ cb = byteZ (blue p))
    /\ getBrightestColor toString_digits imageData
       = css (boost_channel cr) (boost_channel cg) (boost_channel cb)
    /\ in_range (boost_channel cr) /\ in_range (boost_channel cg)
    /\ in_range (boost_channel cb)
    /\ parseRGB (getBrightestColor toString_digits imageData)
       = mkRGB (chan (boost_channel cr)) (chan (boost_channel cg)) (chan (boost_channel cb)).
Proof.
  rewrite getBrightestColor_rgbToString.
  destruct (scan_pixels_cases (data imageData)) as [[E _] | (p & Hp & _ & E)].
  - exists 0%Z, 0%Z, 0%Z. rewrite E.
    split; [left; repeat split |].
    split; [reflexivity |].
    repeat split; try (unfold in_range; cbn; lia).
  - exists (byteZ (red p)), (byteZ (green p)), (byteZ (blue p)).
    rewrite E, boosted_color.
    split; [right; exists p; repeat split; exact Hp |].
    split; [reflexivity |].
    assert (Rr := boost_range _ (byteZ_range (red p))).
    assert (Rg := boost_range _ (byteZ_range (green p))).
    assert (Rb := boost_range _ (byteZ_range (blue p))).
    repeat split; try (apply Rr || apply Rg || apply Rb).
    apply parseRGB_css; assumption.
Qed.

(** X9: the extractor returns "rgb(0, 0, 0)" exactly when the frame holds no
    pixel with a non-zero red, green or blue byte (an empty frame
    included). *)
Theorem extractor_black_iff_frame_black
    (toString_digits : number -> string) (imageData : ImageData) :
  getBrightestColor toString_digits imageData = "rgb(0, 0, 0)"%string
  <-> forall p, In p (data imageData) -> is_black p = true.
Proof.
  rewrite getBrightestColor_rgbToString.
  destruct (scan_pixels_cases (data imageData)) as [[E B] | (p & Hp & NB & E)].
  - rewrite E. split; [intros _; exact B | intros _; reflexivity].
  - rewrite E, boosted_color. split.
    + intros C. exfalso.
      change "rgb(0, 0, 0)"%string with (css 0 0 0) in C.
      apply css_inj in C;
        try (apply boost_range, byteZ_range); try (unfold in_range; lia).
      destruct C as (Cr & Cg & Cb).
      apply boost_zero in Cr, Cg, Cb; try apply byteZ_range.
      unfold is_black in NB. rewrite !byte_zero, Cr, Cg, Cb in NB. discriminate.
    + intros B. rewrite (B p Hp) in NB. discriminate.
Qed.

(** X10: the extractor looks at the red, green and blue bytes of the pixels
    only: two frames whose pixels agree on them, whatever their alpha bytes
    and their recorded width and height, give the same colour. *)
Theorem extractor_ignores_alpha
    (toString_digits : number -> string) (frame1 frame2 : ImageData) :
  map rgb_bytes (data frame1) = map rgb_bytes (data frame2) ->
  getBrightestColor toString_digits frame1 = getBrightestColor toString_digits frame2.
Proof.
  intros E. unfold getBrightestColor, scan_pixels.
  rewrite (scan_bytes _ _ _ E). reflexivity.
Qed.

Lemma extractor_ignores_alpha_witness :
  getBrightestColor no_digits
    (mkImageData 2 1 [mkPixel Byte.x0a Byte.x14 Byte.x1e Byte.xff;
                      mkPixel Byte.xc8 Byte.x32 Byte.x0a Byte.xff])
  = getBrightestColor no_digits
      (mkImageData 1 2 [mkPixel Byte.x0a Byte.x14 Byte.x1e Byte.x00;
                        mkPixel Byte.xc8 Byte.x32 Byte.x0a Byte.x00]).
Proof.
  apply (extractor_ignores_alpha no_digits
           (mkImageData 2 1 [mkPixel Byte.x0a Byte.x14 Byte.x1e Byte.xff;
                             mkPixel Byte.xc8 Byte.x32 Byte.x0a Byte.xff])
           (mkImageData 1 2 [mkPixel Byte.x0a Byte.x14 Byte.x1e Byte.x00;
                             mkPixel Byte.xc8 Byte.x32 Byte.x0a Byte.x00])).
  reflexivity.
Defined.

End ExtractorBehaviour.

(* ================================================================== *)
(** * A run, by the way it ends *)
(* ================================================================== *)

Module RunSteps.

Import JS ColorFilters Generator Loop Cell Run LoopFacts CellFacts RunFacts Page.
Local Open Scope nat_scope.
Local Open Scope list_scope.

Section OneRun.

Variable toString_digits : number -> string.
Variable env : Env.
Variable colorFilter : FilterType.
Variables rows columns : nat.

Local Abbreviation totalHexagons := (rows * columns).
Local Abbreviation cell := (cell toString_digits env colorFilter totalHexagons).
Local Abbreviation run_cells := (run_cells toString_digits env colorFilter totalHexagons).
Local Abbreviation cell_events := (cell_events toString_digits env colorFilter totalHexagons).
Local Abbreviation generateGrid := (generateGrid toString_digits env colorFilter rows columns).
Local Abbreviation start := (start env).
Local Abbreviation waiting := (waiting env).
Local Abbreviation finish := (finish colorFilter).

Lemma start_waiting : log start = ClearCanvas :: Resume 0 :: log waiting.
Proof. reflexivity. Qed.

(** [generatePattern], by the way it ends. *)
Lemma generateGrid_unfold :
  generateGrid =
  match metadata env with
  | Never => Stuck waiting
  | Rejected => Returned (emit (SetError "Error processing video") waiting)
  | Fulfilled =>
      if tempCtx env
      then match run_cells (grid rows columns) start with
           | Running st => Returned (finish st)
           | o => o
           end
      else Returned (emit (SetError "Temp canvas context not available") start)
  end.
Proof.
  unfold Generator.generateGrid.
  rewrite emits_log, suspend_state. cbn [cancelled hexIndex newColors log rev app emit].
  destruct (metadata env); try reflexivity.
  destruct (tempCtx env); cbn [negb]; [| reflexivity].
  rewrite forRow_cells. fold (grid rows columns).
  match goal with
  | |- context [Loop.run_cells _ _ _ _ _ ?s] => change s with start
  end.
  destruct (run_cells (grid rows columns) start); try reflexivity.
  unfold Run.finish. destruct colorFilter; reflexivity.
Qed.

(** A property [P k] of the state before the cell of index [k] that the
    loop body keeps, and a property [Q] of the ways a run ends. *)
Lemma run_invariant (P : nat -> State -> Prop) (Q : outcome -> Prop) :
  P 0 start ->
  (forall k row col st,
      nth_error (grid rows columns) k = Some (row, col) -> P k st ->
      match cell row col st with
      | Running st' => P (S k) st'
      | o => Q o
      end) ->
  (forall st, P (rows * columns) st -> Q (Returned (finish st))) ->
  (metadata env = Never -> Q (Stuck waiting)) ->
  (metadata env = Rejected ->
   Q (Returned (emit (SetError "Error processing video") waiting))) ->
  (metadata env = Fulfilled -> tempCtx env = false ->
   Q (Returned (emit (SetError "Temp canvas context not available") start))) ->
  Q generateGrid.
Proof.
  intros Init Step Fin HNever HRej HCtx.
  rewrite generateGrid_unfold.
  destruct (metadata env) eqn:M; [| apply HRej; reflexivity | apply HNever; reflexivity].
  destruct (tempCtx env) eqn:T; [| apply HCtx; reflexivity].
  assert (G := run_cells_invariant toString_digits env colorFilter totalHexagons
                 P Q (grid rows columns) Step start Init).
  rewrite grid_length in G.
  destruct (run_cells (grid rows columns) start) as [st | st | st]; try exact G.
  apply Fin, G.
Qed.

(** An undisturbed run goes through all the cells. *)
Lemma run_undisturbed (P : nat -> State -> Prop) :
  undisturbed env ->
  P 0 start ->
  (forall k row col st st',
      nth_error (grid rows columns) k = Some (row, col) -> P k st ->
      cell row col st = Running st' -> P (S k) st') ->
  exists st, generateGrid = Returned (finish st) /\ P (rows * columns) st.
Proof.
  intros (M & T & C & S) Init Step.
  rewrite generateGrid_unfold, M, T.
  assert (C0 : cancelled start = false).
  { unfold Run.start, cleanup_now. cbn [cancelled]. rewrite C. reflexivity. }
  destruct (run_cells_through toString_digits env colorFilter rows columns
              (grid rows columns) start C S C0) as [st' R].
  assert (G := run_cells_invariant toString_digits env colorFilter totalHexagons
                 P (fun _ => True) (grid rows columns)).
  cbv beta in G.
  assert (G' : match run_cells (grid rows columns) start with
               | Running st' => P (List.length (grid rows columns)) st'
               | _ => True
               end).
  { apply G; [| exact Init]. intros k row col st Hk HP.
    destruct (cell row col st) as [st1 | st1 | st1] eqn:E; try exact Logic.I.
    exact (Step k row col st st1 Hk HP E). }
  rewrite R in G'. rewrite grid_length in G'. rewrite R.
  exists st'. split; [reflexivity | exact G'].
Qed.

End OneRun.

End RunSteps.

Module PageFacts.

Import JS ColorFilters Generator Loop Cell Run LoopFacts CellFacts RunFacts Page RunSteps.
Local Open Scope nat_scope.
Local Open Scope list_scope.

Section OneRun.

Variable toString_digits : number -> string.
Variable env : Env.
Variable colorFilter : FilterType.
Variables rows columns : nat.

Local Abbreviation totalHexagons := (rows * columns).
Local Abbreviation cell := (cell toString_digits env colorFilter totalHexagons).
Local Abbreviation cell_events := (cell_events toString_digits env colorFilter totalHexagons).
Local Abbreviation generateGrid := (generateGrid toString_digits env colorFilter rows columns).
Local Abbreviation start := (start env).
Local Abbreviation waiting := (waiting env).
Local Abbreviation finish := (finish colorFilter).
Local Abbreviation drawn := (drawn toString_digits env colorFilter rows columns).
Local Abbreviation percent := (percent rows columns).
Local Abbreviation pairs := (pairs toString_digits env colorFilter rows columns).
Local Abbreviation shown := (shown toString_digits env colorFilter rows columns).

(** The events of the loop body, in the order they happen, follow those
    before it. *)
Lemma cell_trace (row col : nat) (st : State) :
  rev (log (final (cell row col st))) = rev (log st) ++ cell_events row col st.
Proof. rewrite cell_log, rev_app_distr, rev_involutive. reflexivity. Qed.

(** What shows of the loop body: the cell and its progress update when the
    loop goes on, nothing otherwise. *)
Lemma visible_cell_events (row col : nat) (st : State) :
  row = hexIndex st / columns -> col = hexIndex st mod columns ->
  filter visible (cell_events row col st)
  = match cell row col st with
    | Running _ => [drawn (hexIndex st); SetProgress (percent (S (hexIndex st)))]
    | _ => []
    end.
Proof.
  intros -> ->.
  unfold Generator.cell, Cell.cell_events, suspended, cell_drawing, Generator.drawHexagon,
    Page.drawn, Page.percent.
  cbn [cancelled hexIndex newColors log emit].
  destruct (cancelled st); [reflexivity |].
  fold (sample_time env totalHexagons (hexIndex st)).
  destruct (seek env (hexIndex st) (sample_time env totalHexagons (hexIndex st)));
    destruct (cleanup_now env (S (hexIndex st))); try reflexivity;
    destruct colorFilter; reflexivity.
Qed.

Lemma pairs_S (a n : nat) :
  pairs a (S n) = pairs a n ++ [drawn (a + n); SetProgress (percent (S (a + n)))].
Proof.
  unfold Page.pairs. rewrite seq_S, flat_map_app. cbn [flat_map app]. reflexivity.
Qed.

Lemma shown_S (n : nat) :
  shown (S n) = shown n ++ [drawn n; SetProgress (percent (S n))].
Proof. unfold Page.shown. rewrite pairs_S. reflexivity. Qed.

Lemma visible_waiting : filter visible (rev (log waiting)) = shown 0.
Proof.
  unfold Page.waiting, suspended. cbn [log].
  destruct (cleanup_now env 0); reflexivity.
Qed.

Lemma visible_start : filter visible (rev (log start)) = shown 0.
Proof.
  rewrite start_waiting. cbn [rev]. rewrite !filter_app, visible_waiting. reflexivity.
Qed.

Lemma visible_finish (st : State) :
  filter visible (rev (log (finish st))) = filter visible (rev (log st)).
Proof.
  destruct (finish_log colorFilter st) as [-> | [cs ->]]; [reflexivity |].
  cbn [rev]. rewrite filter_app. cbn. apply app_nil_r.
Qed.

Lemma visible_error (m : string) (st : State) :
  filter visible (rev (log (emit (SetError m) st))) = filter visible (rev (log st)).
Proof. cbn [emit log rev]. rewrite filter_app. cbn. apply app_nil_r. Qed.

(** Before the cell of index [k], the cells below [k] show. *)
Lemma shown_step (k row col : nat) (st : State) :
  nth_error (grid rows columns) k = Some (row, col) ->
  hexIndex st = k /\ filter visible (rev (log st)) = shown k ->
  match cell row col st with
  | Running st' => hexIndex st' = S k /\ filter visible (rev (log st')) = shown (S k)
  | o => exists n, n <= rows * columns /\ filter visible (rev (log (final o))) = shown n
  end.
Proof.
  intros Hk [Hi Hv].
  destruct (grid_nth rows columns k row col Hk) as (Lt & Hrow & Hcol).
  assert (T := cell_trace row col st).
  assert (V := visible_cell_events row col st).
  rewrite Hi in V. specialize (V Hrow Hcol).
  destruct (cell row col st) as [st' | st' | st'] eqn:E; cbn [final] in T.
  - destruct (cell_running _ _ _ _ _ _ _ _ E) as (_ & _ & Hi').
    split; [rewrite Hi', Hi; reflexivity |].
    rewrite T, filter_app, V, Hv, shown_S. reflexivity.
  - exists k. split; [lia |]. cbn [final]. rewrite T, filter_app, V, Hv. apply app_nil_r.
  - exists k. split; [lia |]. cbn [final]. rewrite T, filter_app, V, Hv. apply app_nil_r.
Qed.

(** What shows of a run: the cells it went through. *)
Lemma run_shown :
  exists n, n <= rows * columns
            /\ filter visible (trace generateGrid) = shown n.
Proof.
  unfold trace.
  apply (run_invariant toString_digits env colorFilter rows columns
           (fun k st => hexIndex st = k /\ filter visible (rev (log st)) = shown k)
           (fun o => exists n, n <= rows * columns
                               /\ filter visible (rev (log (final o))) = shown n)).
  - split; [reflexivity | apply visible_start].
  - apply shown_step.
  - intros st [_ Hv]. exists (rows * columns). split; [lia |].
    cbn [final]. rewrite visible_finish. exact Hv.
  - intros _. exists 0. split; [lia | apply visible_waiting].
  - intros _. exists 0. split; [lia |]. cbn [final].
    rewrite visible_error. apply visible_waiting.
  - intros _ _. exists 0. split; [lia |]. cbn [final].
    rewrite visible_error. apply visible_start.
Qed.

Lemma run_shown_all :
  undisturbed env -> filter visible (trace generateGrid) = shown (rows * columns).
Proof.
  intros U. unfold trace.
  destruct (run_undisturbed toString_digits env colorFilter rows columns
              (fun k st => hexIndex st = k /\ filter visible (rev (log st)) = shown k) U)
    as (st & -> & _ & Hv).
  - split; [reflexivity | apply visible_start].
  - intros k row col st st' Hk HP E.
    assert (S := shown_step k row col st Hk HP). rewrite E in S. exact S.
  - cbn [final]. rewrite visible_finish. exact Hv.
Qed.

End OneRun.

End PageFacts.

Module ErrorFacts.

Import JS ColorFilters Generator Loop Cell Run LoopFacts CellFacts RunFacts.
Import Page RunSteps PageFacts Errors.
Local Open Scope nat_scope.
Local Open Scope list_scope.

Lemma quiet_app (xs ys : list event) : quiet (xs ++ ys) = quiet xs && quiet ys.
Proof. apply forallb_app. Qed.

Section OneRun.

Variable toString_digits : number -> string.
Variable env : Env.
Variable colorFilter : FilterType.
Variables rows columns : nat.

Local Abbreviation totalHexagons := (rows * columns).
Local Abbreviation cell := (cell toString_digits env colorFilter totalHexagons).
Local Abbreviation cell_events := (cell_events toString_digits env colorFilter totalHexagons).
Local Abbreviation generateGrid := (generateGrid toString_digits env colorFilter rows columns).
Local Abbreviation start := (start env).
Local Abbreviation waiting := (waiting env).
Local Abbreviation finish := (finish colorFilter).
Local Abbreviation failure := (failure env).

(** The loop body sets an error message only when the seek throws, as its
    last event, and then the run returns. *)
Lemma cell_events_errors (row col : nat) (st : State) :
  match cell row col st with
  | Running _ | Stuck _ => quiet (cell_events row col st) = true
  | Returned _ =>
      quiet (cell_events row col st) = true
      \/ exists pre m, cell_events row col st = pre ++ [SetError m]
                       /\ quiet pre = true /\ failure m
  end.
Proof.
  unfold Generator.cell, Cell.cell_events, suspended, cell_drawing, Generator.drawHexagon.
  cbn [cancelled hexIndex newColors log emit].
  destruct (cancelled st); [left; reflexivity |].
  fold (sample_time env totalHexagons (hexIndex st)).
  destruct (seek env (hexIndex st) (sample_time env totalHexagons (hexIndex st))) eqn:Hs.
  - right. eexists [_; _], message. split; [reflexivity |]. split; [reflexivity |].
    right. right. eexists _, _. exact Hs.
  - destruct (cleanup_now env (S (hexIndex st))); destruct colorFilter; reflexivity.
  - destruct (cleanup_now env (S (hexIndex st))); reflexivity.
Qed.

Lemma waiting_trace :
  exists body, rev (log waiting) = SetProgress 0%float :: SetError ""%string :: body
               /\ quiet body = true.
Proof.
  unfold Page.waiting, suspended. cbn [log].
  destruct (cleanup_now env 0); eexists; split; reflexivity.
Qed.

Lemma start_trace :
  exists body, rev (log start) = SetProgress 0%float :: SetError ""%string :: body
               /\ quiet body = true.
Proof.
  destruct waiting_trace as (body & E & Q).
  exists (body ++ [Resume 0; ClearCanvas]). rewrite start_waiting. cbn [rev].
  rewrite E. split; [cbn [app]; rewrite <- app_assoc; reflexivity |].
  rewrite quiet_app, Q. reflexivity.
Qed.

(** A run resets the error message at its start and sets one at most once
    more, as its last event. *)
Lemma run_errors :
  exists body,
    quiet body = true
    /\ (trace generateGrid = SetProgress 0%float :: SetError ""%string :: body
        \/ exists m, trace generateGrid
                     = SetProgress 0%float :: SetError ""%string :: body ++ [SetError m]
                     /\ failure m).
Proof.
  unfold trace.
  apply (run_invariant toString_digits env colorFilter rows columns
           (fun _ st => exists body,
                rev (log st) = SetProgress 0%float :: SetError ""%string :: body
                /\ quiet body = true)
           (fun o => exists body,
                quiet body = true
                /\ (rev (log (final o)) = SetProgress 0%float :: SetError ""%string :: body
                    \/ exists m, rev (log (final o))
                                 = SetProgress 0%float :: SetError ""%string :: body ++ [SetError m]
                                 /\ failure m))).
  - apply start_trace.
  - intros k row col st _ (body & E & Q).
    assert (T := cell_trace toString_digits env colorFilter rows columns row col st).
    assert (C := cell_events_errors row col st).
    destruct (cell row col st) as [st' | st' | st']; cbn [final] in *.
    + exists (body ++ cell_events row col st). rewrite T, E. split; [reflexivity |].
      rewrite quiet_app, Q, C. reflexivity.
    + destruct C as [C | (pre & m & Ce & Qp & F)].
      * exists (body ++ cell_events row col st). split; [rewrite quiet_app, Q, C; reflexivity |].
        left. rewrite T, E. reflexivity.
      * exists (body ++ pre). split; [rewrite quiet_app, Q, Qp; reflexivity |].
        right. exists m. split; [| exact F].
        rewrite T, E, Ce. cbn [app]. rewrite <- app_assoc. reflexivity.
    + exists (body ++ cell_events row col st). split; [rewrite quiet_app, Q, C; reflexivity |].
      left. rewrite T, E. reflexivity.
  - intros st (body & E & Q). cbn [final].
    destruct (finish_log colorFilter st) as [-> | [cs ->]].
    + exists body. split; [exact Q | left; exact E].
    + exists (body ++ [SetColors cs]). split; [rewrite quiet_app, Q; reflexivity |].
      left. cbn [rev]. rewrite E. reflexivity.
  - intros _. destruct waiting_trace as (body & E & Q).
    exists body. split; [exact Q | left; exact E].
  - intros M. destruct waiting_trace as (body & E & Q).
    exists body. split; [exact Q |]. right. eexists. cbn [final emit log rev].
    rewrite E. split; [reflexivity |]. left. split; [exact M | reflexivity].
  - intros M T. destruct start_trace as (body & E & Q).
    exists body. split; [exact Q |]. right. eexists. cbn [final emit log rev].
    rewrite E. split; [reflexivity |]. right. left. repeat split; assumption.
Qed.


End OneRun.

End ErrorFacts.

Module HookFacts.

Import JS ColorFilters Generator Loop Cell Run LoopFacts CellFacts RunFacts.
Import Page RunSteps PageFacts Errors ErrorFacts.
Local Open Scope nat_scope.
Local Open Scope list_scope.


Lemma error_after (evs : list event) (h : Component.Hooks) :
  Component.error (Component.after evs h) = last_error evs (Component.error h).
Proof.
  revert h. induction evs as [| e evs IH]; intros h; [reflexivity |].
  unfold Component.after, last_error in *. cbn [fold_left]. rewrite IH.
  destruct e; reflexivity.
Qed.


Lemma last_error_app (xs ys : list event) (d : string) :
  last_error (xs ++ ys) d = last_error ys (last_error xs d).
Proof. apply fold_left_app. Qed.





Section OneRun.

Variable toString_digits : number -> string.
Variable env : Env.
Variable colorFilter : FilterType.
Variables rows columns : nat.

Local Abbreviation drawn := (drawn toString_digits env colorFilter rows columns).
Local Abbreviation percent := (percent rows columns).
Local Abbreviation pairs := (pairs toString_digits env colorFilter rows columns).
Local Abbreviation shown := (shown toString_digits env colorFilter rows columns).









Lemma in_shown (n : nat) (e : event) :
  In e (shown n) -> is_render e = true -> exists i, i < n /\ e = drawn i.
Proof.
  unfold Page.shown, Page.pairs. intros [<- | H] R; [discriminate |].
  apply in_flat_map in H as (i & Hi & [<- | [<- | []]]); [| discriminate].
  apply in_seq in Hi. exists i. split; [lia | reflexivity].
Qed.

End OneRun.

(** The canvas of 1000 by 600 holds 8 rows of 16 hexagons. *)
Lemma grid_size : Generator.rows = 8 /\ Generator.columns = 16.
Proof. split; vm_compute; reflexivity. Qed.

Lemma generatePattern_grid (toString_digits : number -> string) (env : Env)
    (colorFilter : FilterType) :
  generatePattern toString_digits env colorFilter
  = generateGrid toString_digits env colorFilter 8 16.
Proof.
  unfold generatePattern. destruct grid_size as [-> ->]. reflexivity.
Qed.


Lemma indices_complete (i : nat) : i < 128 -> In i indices.
Proof.
  intros H. assert (E : indices = List.seq 0 128) by (vm_compute; reflexivity).
  rewrite E. apply in_seq. lia.
Qed.


(** The square around each of the 128 hexagons lies within the canvas. *)
Lemma square_table (i : nat) :
  i < 128 -> square_inside (cell_x (i mod 16)) (cell_y (i / 16) (i mod 16)) = true.
Proof.
  intros H.
  assert (T : forallb (fun i => square_inside (cell_x (i mod 16)) (cell_y (i / 16) (i mod 16)))
                      indices = true)
    by (vm_compute; reflexivity).
  rewrite forallb_forall in T. apply T, indices_complete, H.
Qed.

End HookFacts.

Module SharedFacts.

Import JS ColorFilters Generator Page Errors Shared.
Local Open Scope list_scope.








End SharedFacts.

(* ================================================================== *)
(** * The generation run: further properties *)
(* ================================================================== *)

Module RunBehaviour.

Import JS ColorFilters Generator Channel Spec Loop Cell Run Scenario.
Import LoopFacts CellFacts RunFacts.
Import Page RunSteps PageFacts Errors ErrorFacts HookFacts Shared SharedFacts.
Local Open Scope nat_scope.
Local Open Scope list_scope.

(** X11: what shows of a run.  Among the progress updates and render calls
    of a run, in the order they happen, the first is the progress 0; then,
    for the cells of index 0 to n - 1 in turn (n at most the number of
    cells), one render call for the cell, at the centre of its hexagon (the
    captured frame in frame-based mode, otherwise the filtered colour of the
    frame), followed by the progress (i + 1) / N * 100.  No cell is drawn
    twice or skipped, and in a run that nothing disturbs n is the number of
    cells. *)
Theorem cells_are_drawn_once_in_order
    (toString_digits : number -> string) (env : Env) (colorFilter : FilterType)
    (rows columns : nat) :
  (exists n, n <= rows * columns
             /\ filter visible (trace (generateGrid toString_digits env colorFilter rows columns))
                = shown toString_digits env colorFilter rows columns n)
  /\ (undisturbed env ->
      filter visible (trace (generateGrid toString_digits env colorFilter rows columns))
      = shown toString_digits env colorFilter rows columns (rows * columns)).
Proof. split; [apply run_shown | apply run_shown_all]. Qed.

Lemma cells_are_drawn_once_in_order_witness :
  filter visible (trace (generateGrid no_digits first_run neon 1 2))
  = [SetProgress 0%float;
     FillHexagon 40%float 40%float "rgb(255, 36, 7)"%string; SetProgress 50%float;
     FillHexagon 100%float (40 * PrimFloat.sqrt 3 / 2 + 40)%float "rgb(255, 36, 7)"%string;
     SetProgress 100%float].
Proof.
  apply (proj2 (cells_are_drawn_once_in_order no_digits first_run neon 1 2)).
  repeat split; reflexivity.
Defined.




(** The overlay can be hidden before a run has drawn anything.  An earlier
    run of the effect, cleaned up while it waited for its last seek, still
    draws its last cell and reports a progress of 100 when the seek
    settles; if the new run has started by then, the component shows the
    bare canvas although the new run has made no render call. *)
Lemma stale_progress_hides_overlay :
  filter is_progress
    (since_cleanup (trace (generatePattern no_digits interrupted_run neon)))
  = [SetProgress 100%float]
  /\ own overtaken = [SetProgress 0%float; SetError ""%string; SetColors []; Suspend 0]
  /\ latest is_progress overtaken = Some false
  /\ Component.render no_digits (Component.after (everything overtaken) Component.initial)
     = Component.Canvas None
  /\ List.length (filter is_render (own overtaken)) = 0.
Proof. repeat split; vm_compute; reflexivity. Qed.

(** X13: the layout.  Every render call of a run of [generatePattern] is
    for a hexagon whose enclosing square, of side twice the radius and
    centred on the hexagon (the square a frame is drawn into), lies within
    the canvas of 1000 by 600. *)
Theorem every_hexagon_lies_within_the_canvas
    (toString_digits : number -> string) (env : Env) (colorFilter : FilterType)
    (k : nat) (e : event) :
  nth_error (trace (generatePattern toString_digits env colorFilter)) k = Some e ->
  inside e = true.
Proof.
  rewrite generatePattern_grid. intros Hk.
  destruct (is_render e) eqn:R; [| destruct e; try reflexivity; discriminate].
  apply nth_error_In in Hk.
  assert (V : In e (filter visible (trace (generateGrid toString_digits env colorFilter 8 16)))).
  { apply filter_In. split; [exact Hk |]. unfold visible. rewrite R. apply orb_true_r. }
  destruct (run_shown toString_digits env colorFilter 8 16) as (n & Hn & E).
  rewrite E in V. apply in_shown in V as (i & Hi & ->); [| exact R].
  assert (T := square_table i). simpl in Hn.
  unfold Page.drawn. destruct colorFilter; apply T; lia.
Qed.

Lemma every_hexagon_lies_within_the_canvas_witness :
  inside (FillHexagon 40%float 40%float "rgb(255, 36, 7)"%string) = true.
Proof.
  apply (every_hexagon_lies_within_the_canvas no_digits cancelled_run neon 13).
  vm_compute. reflexivity.
Defined.

(** X14: errors.  A run resets the error message when it starts and sets
    one at most once more, as its very last event: "Error processing video"
    when the metadata of the video fail to load, "Temp canvas context not
    available" when the temporary canvas has no 2d context, or the message
    of the exception when the assignment of a seek time throws.  The
    component then shows the error panel with that message, unless the
    message is empty. *)
Theorem error_is_set_once_and_last
    (toString_digits : number -> string) (env : Env) (colorFilter : FilterType)
    (rows columns : nat) :
  let t := trace (generateGrid toString_digits env colorFilter rows columns) in
  exists body,
    quiet body = true
    /\ (t = SetProgress 0%float :: SetError ""%string :: body
        \/ exists m,
             t = SetProgress 0%float :: SetError ""%string :: body ++ [SetError m]
             /\ failure env m
             /\ forall h, m <> ""%string ->
                  Component.render toString_digits (Component.after t h)
                  = Component.ErrorPanel m).
Proof.
  intros t. unfold t.
  destruct (run_errors toString_digits env colorFilter rows columns) as (body & Q & Ht).
  exists body. split; [exact Q |].
  destruct Ht as [Ht | (m & Ht & F)]; [left; exact Ht | right].
  exists m. split; [exact Ht |]. split; [exact F |].
  intros h Hm. unfold Component.render. rewrite error_after, Ht.
  change (SetProgress 0%float :: SetError ""%string :: body ++ [SetError m])
    with ((SetProgress 0%float :: SetError ""%string :: body) ++ [SetError m]).
  rewrite last_error_app.
  change (last_error [SetError m] _) with m.
  destruct m; [contradiction | reflexivity].
Qed.

Lemma cell_stuck (toString_digits : number -> string) (env : Env) (colorFilter : FilterType)
    (totalHexagons row col : nat) (st st' : State) :
  cell toString_digits env colorFilter totalHexagons row col st = Stuck st' ->
  exists i t, seek env i t = SeekNever.
Proof.
  unfold cell. destruct (cancelled (emit (TestCancelled (cancelled st)) st)); [discriminate |].
  match goal with
  | |- context [seek env ?i ?t] => destruct (seek env i t) eqn:E; try discriminate
  end.
  intros _. eexists _, _. exact E.
Qed.

(** X15: a run returns whenever what it waits for settles: if the metadata
    of the video load or fail to, and every seek fires [seeked] or throws,
    [generatePattern] returns; it stays suspended for ever only when the
    metadata never arrive or some seek never settles. *)
Theorem run_returns_when_every_wait_settles
    (toString_digits : number -> string) (env : Env) (colorFilter : FilterType)
    (rows columns : nat) :
  metadata env <> Never -> (forall i t, seek env i t <> SeekNever) ->
  exists st, generateGrid toString_digits env colorFilter rows columns = Returned st.
Proof.
  intros M S.
  apply (run_invariant toString_digits env colorFilter rows columns
           (fun _ _ => True) (fun o => exists st, o = Returned st)).
  - exact Logic.I.
  - intros k row col st _ _.
    destruct (cell toString_digits env colorFilter (rows * columns) row col st)
      as [st' | st' | st'] eqn:E; [exact Logic.I | eexists; reflexivity |].
    destruct (cell_stuck _ _ _ _ _ _ _ _ E) as (i & t & N). destruct (S i t N).
  - intros st _. eexists. reflexivity.
  - intros N. contradiction.
  - intros _. eexists. reflexivity.
  - intros _ _. eexists. reflexivity.
Qed.

Lemma run_returns_when_every_wait_settles_witness :
  exists st, generateGrid no_digits cancelled_run neon 2 3 = Returned st.
Proof.
  apply (run_returns_when_every_wait_settles no_digits cancelled_run neon 2 3);
    [discriminate | intros i t; discriminate].
Defined.

End RunBehaviour.

(* ================================================================== *)
(** * The cleanup and the stored colours *)
(* ================================================================== *)

Module AftermathFacts.

Import JS ColorFilters Generator Loop Cell Run LoopFacts CellFacts RunFacts.
Import Page RunSteps PageFacts Aftermath.
Local Open Scope nat_scope.
Local Open Scope list_scope.

Lemma no_cleanup_app (xs ys : list event) :
  no_cleanup (xs ++ ys) = no_cleanup xs && no_cleanup ys.
Proof. apply forallb_app. Qed.

Lemma idle_filters (evs : list event) :
  forallb idle evs = true ->
  forallb (fun e => negb (is_cleanup e || is_wait e)) evs = true
  /\ filter is_render evs = [] /\ filter is_progress evs = [].
Proof.
  induction evs as [| e evs IH]; [repeat split |].
  cbn [forallb filter]. intros H. apply andb_true_iff in H as [He H].
  destruct (IH H) as (I1 & I2 & I3). rewrite I1, I2, I3.
  destruct e; try discriminate; repeat split.
Qed.

Lemma winding_down_idle (xs ys : list event) :
  winding_down xs = true -> forallb idle ys = true -> winding_down (xs ++ ys) = true.
Proof.
  unfold winding_down. intros H Hy.
  destruct (idle_filters ys Hy) as (I1 & I2 & I3).
  rewrite forallb_app, !filter_app, I1, I2, I3, !app_nil_r, andb_true_r. exact H.
Qed.

(** Where an element that occurs once splits a list. *)
Lemma split_unique (xs ys xs' ys' : list event) :
  xs ++ Cleanup :: ys = xs' ++ Cleanup :: ys' ->
  no_cleanup xs = true -> no_cleanup ys = true ->
  xs' = xs /\ ys' = ys.
Proof.
  revert xs'. induction xs as [| x xs IH]; intros xs' E Hx Hy.
  - destruct xs' as [| x' xs']; cbn [app] in E.
    + injection E as <-. split; reflexivity.
    + injection E as <- E. exfalso.
      assert (In Cleanup ys) by (rewrite E; apply in_or_app; right; left; reflexivity).
      unfold no_cleanup in Hy. rewrite forallb_forall in Hy.
      specialize (Hy _ H). discriminate.
  - unfold no_cleanup in Hx. cbn [forallb] in Hx. apply andb_true_iff in Hx as [Hx1 Hx].
    destruct xs' as [| x' xs']; cbn [app] in E.
    + injection E as -> _. discriminate.
    + injection E as <- E. destruct (IH xs' E Hx Hy) as [-> ->]. split; reflexivity.
Qed.

Lemma winding_down_no_cleanup (evs : list event) :
  winding_down evs = true -> no_cleanup evs = true.
Proof.
  unfold winding_down, no_cleanup. intros H.
  apply andb_true_iff in H as [H _]. apply andb_true_iff in H as [H _].
  rewrite forallb_forall in *. intros e He. specialize (H e He).
  destruct (is_cleanup e); [discriminate | reflexivity].
Qed.

Lemma empties_spec (evs : list event) :
  empties evs = true -> stores_nothing evs.
Proof.
  unfold empties, stores_nothing. rewrite forallb_forall. intros H cs Hc.
  specialize (H _ Hc). destruct cs; [reflexivity | discriminate].
Qed.

Lemma stores_nothing_app (xs ys : list event) :
  stores_nothing xs -> stores_nothing ys -> stores_nothing (xs ++ ys).
Proof.
  unfold stores_nothing. intros Hx Hy cs H. apply in_app_or in H as [H | H]; auto.
Qed.

Section OneRun.

Variable toString_digits : number -> string.
Variable env : Env.
Variable colorFilter : FilterType.
Variables rows columns : nat.

Local Abbreviation totalHexagons := (rows * columns).
Local Abbreviation cell := (cell toString_digits env colorFilter totalHexagons).
Local Abbreviation cell_events := (cell_events toString_digits env colorFilter totalHexagons).
Local Abbreviation generateGrid := (generateGrid toString_digits env colorFilter rows columns).
Local Abbreviation start := (start env).
Local Abbreviation waiting := (waiting env).
Local Abbreviation finish := (finish colorFilter).
Local Abbreviation raw_colors := (raw_colors toString_digits env colorFilter rows columns).

Lemma cleaned_before (xs evs : list event) :
  no_cleanup xs = true -> cleaned evs -> cleaned (xs ++ evs).
Proof.
  intros Hx (a & b & -> & Ha & Hb). exists (xs ++ a), b.
  rewrite <- app_assoc, no_cleanup_app, Hx, Ha. repeat split. exact Hb.
Qed.

Lemma cleaned_idle (evs ys : list event) :
  cleaned evs -> forallb idle ys = true -> cleaned (evs ++ ys).
Proof.
  intros (a & b & -> & Ha & Hb) Hy. exists a, (b ++ ys).
  rewrite <- app_assoc. repeat split; [exact Ha | apply winding_down_idle; assumption].
Qed.

(** The loop body and the cleanup, when the flag is unset at its start. *)
Lemma cell_cleanup (row col : nat) (st : State) :
  cancelled st = false ->
  match cell row col st with
  | Running st' =>
      if cancelled st' then cleaned (cell_events row col st)
      else no_cleanup (cell_events row col st) = true
  | _ => no_cleanup (cell_events row col st) = true \/ cleaned (cell_events row col st)
  end.
Proof.
  intros C. destruct (cell row col st) as [st' | st' | st'] eqn:E.
  - destruct (cell_running _ _ _ _ _ _ _ _ E) as (_ & Hs & _).
    rewrite (cell_cancelled_after _ _ _ _ _ _ _ _ E).
    unfold Cell.cell_events, suspended, cell_drawing, Generator.drawHexagon.
    rewrite C, Hs.
    destruct (cleanup_now env (S (hexIndex st))).
    + eexists [_; _; _], _. split; [reflexivity |]. split; [reflexivity |].
      destruct colorFilter; reflexivity.
    + destruct colorFilter; reflexivity.
  - unfold Cell.cell_events, suspended, cell_drawing, Generator.drawHexagon. rewrite C.
    destruct (seek env (hexIndex st) _); [left; reflexivity | |];
      (destruct (cleanup_now env (S (hexIndex st)));
       [right; eexists [_; _; _], _; split; [reflexivity |]; split; [reflexivity |];
        destruct colorFilter; reflexivity
       | left; destruct colorFilter; reflexivity]).
  - unfold Cell.cell_events, suspended, cell_drawing, Generator.drawHexagon. rewrite C.
    destruct (seek env (hexIndex st) _); [left; reflexivity | |];
      (destruct (cleanup_now env (S (hexIndex st)));
       [right; eexists [_; _; _], _; split; [reflexivity |]; split; [reflexivity |];
        destruct colorFilter; reflexivity
       | left; destruct colorFilter; reflexivity]).
Qed.

Lemma waiting_cleanup :
  if cancelled waiting then cleaned (rev (log waiting))
  else no_cleanup (rev (log waiting)) = true.
Proof.
  unfold Page.waiting, suspended. cbn [cancelled log].
  destruct (cleanup_now env 0); [| reflexivity].
  eexists [_; _; _; _], _. repeat split.
Qed.

Lemma start_cleanup :
  if cancelled start then cleaned (rev (log start))
  else no_cleanup (rev (log start)) = true.
Proof.
  assert (W := waiting_cleanup). rewrite start_waiting.
  change (cancelled start) with (cancelled waiting). cbn [rev].
  rewrite <- app_assoc. cbn [app].
  destruct (cancelled waiting).
  - apply cleaned_idle; [exact W | reflexivity].
  - rewrite no_cleanup_app, W. reflexivity.
Qed.

(** In a run the cleanup happens at most once, and the run then winds
    down. *)
Lemma run_cleanup :
  no_cleanup (trace generateGrid) = true \/ cleaned (trace generateGrid).
Proof.
  unfold trace.
  apply (run_invariant toString_digits env colorFilter rows columns
           (fun _ st => if cancelled st then cleaned (rev (log st))
                        else no_cleanup (rev (log st)) = true)
           (fun o => no_cleanup (rev (log (final o))) = true
                     \/ cleaned (rev (log (final o))))).
  - apply start_cleanup.
  - intros k row col st _ H.
    assert (T := cell_trace toString_digits env colorFilter rows columns row col st).
    destruct (cancelled st) eqn:C.
    + (* the flag is set: the loop body returns *)
      assert (E : cell row col st = Returned (emit (TestCancelled true) st)).
      { unfold Generator.cell. cbn [emit cancelled]. rewrite C. reflexivity. }
      rewrite E. right. cbn [final emit log rev].
      apply cleaned_idle; [exact H | reflexivity].
    + assert (L := cell_cleanup row col st C).
      destruct (cell row col st) as [st' | st' | st']; cbn [final] in *; rewrite T.
      * destruct (cancelled st').
        -- apply cleaned_before; assumption.
        -- rewrite no_cleanup_app, H, L. reflexivity.
      * destruct L as [L | L]; [left; rewrite no_cleanup_app, H, L; reflexivity |].
        right. apply cleaned_before; assumption.
      * destruct L as [L | L]; [left; rewrite no_cleanup_app, H, L; reflexivity |].
        right. apply cleaned_before; assumption.
  - intros st H. cbn [final].
    destruct (finish_log colorFilter st) as [-> | [cs ->]].
    + destruct (cancelled st); [right | left]; exact H.
    + cbn [rev]. destruct (cancelled st).
      * right. apply cleaned_idle; [exact H | reflexivity].
      * left. rewrite no_cleanup_app, H. reflexivity.
  - intros _. assert (W := waiting_cleanup). cbn [final].
    destruct (cancelled waiting); [right | left]; exact W.
  - intros _. assert (W := waiting_cleanup). cbn [final emit log rev].
    destruct (cancelled waiting).
    + right. apply cleaned_idle; [exact W | reflexivity].
    + left. rewrite no_cleanup_app, W. reflexivity.
  - intros _ _. assert (W := start_cleanup). cbn [final emit log rev].
    destruct (cancelled start).
    + right. apply cleaned_idle; [exact W | reflexivity].
    + left. rewrite no_cleanup_app, W. reflexivity.
Qed.

(** ** What a run stores *)

Lemma empties_cell_events (row col : nat) (st : State) :
  empties (cell_events row col st) = true.
Proof.
  unfold Cell.cell_events, suspended, cell_drawing, Generator.drawHexagon.
  destruct (cancelled st); [reflexivity |].
  destruct (seek env (hexIndex st) _); [reflexivity | |];
    destruct (cleanup_now env (S (hexIndex st))); try destruct colorFilter; reflexivity.
Qed.

Lemma raw_colors_S (n : nat) :
  raw_colors (S n)
  = raw_colors n
    ++ match colorFilter with
       | frame_based => []
       | _ => [getBrightestColor toString_digits
                 (capture env (sample_time env totalHexagons n) 32)]
       end.
Proof.
  unfold Run.raw_colors. destruct colorFilter; try reflexivity;
    rewrite seq_S, map_app; reflexivity.
Qed.

Lemma stores_nothing_waiting : stores_nothing (rev (log waiting)).
Proof.
  apply empties_spec. unfold Page.waiting, suspended. cbn [log].
  destruct (cleanup_now env 0); reflexivity.
Qed.

Lemma stores_nothing_start : stores_nothing (rev (log start)).
Proof.
  rewrite start_waiting. cbn [rev]. rewrite <- app_assoc.
  apply stores_nothing_app; [apply stores_nothing_waiting | apply empties_spec; reflexivity].
Qed.

(** What the loops have stored so far is nothing; what the run stores in
    the end are the extracted colours of all the cells. *)
Lemma run_stores :
  stores_nothing (trace generateGrid)
  \/ (colorFilter <> frame_based
      /\ exists a, trace generateGrid = a ++ [SetColors (raw_colors (rows * columns))]
                   /\ stores_nothing a).
Proof.
  unfold trace.
  apply (run_invariant toString_digits env colorFilter rows columns
           (fun k st => hexIndex st = k /\ newColors st = raw_colors k
                        /\ stores_nothing (rev (log st)))
           (fun o => stores_nothing (rev (log (final o)))
                     \/ (colorFilter <> frame_based
                         /\ exists a, rev (log (final o))
                                      = a ++ [SetColors (raw_colors (rows * columns))]
                                      /\ stores_nothing a))).
  - repeat split; [| apply stores_nothing_start].
    unfold Run.raw_colors. destruct colorFilter; reflexivity.
  - intros k row col st _ (Hi & Hc & Hs).
    assert (T := cell_trace toString_digits env colorFilter rows columns row col st).
    assert (S' : stores_nothing (rev (log st) ++ cell_events row col st)).
    { apply stores_nothing_app; [exact Hs | apply empties_spec, empties_cell_events]. }
    destruct (cell row col st) as [st' | st' | st'] eqn:E; cbn [final] in *; rewrite T.
    + destruct (cell_running _ _ _ _ _ _ _ _ E) as (_ & _ & Hi').
      split; [rewrite Hi', Hi; reflexivity |]. split; [| exact S'].
      rewrite (cell_newColors _ _ _ _ _ _ _ _ E), Hc, Hi, raw_colors_S. reflexivity.
    + left. exact S'.
    + left. exact S'.
  - intros st (_ & Hc & Hs). cbn [final]. unfold Run.finish.
    destruct colorFilter eqn:F; try (left; exact Hs);
      right; (split; [discriminate |]); exists (rev (log st));
      cbn [emit log rev]; rewrite Hc; (split; [reflexivity | exact Hs]).
  - intros _. left. apply stores_nothing_waiting.
  - intros _. left. cbn [final emit log rev].
    apply stores_nothing_app; [apply stores_nothing_waiting | apply empties_spec; reflexivity].
  - intros _ _. left. cbn [final emit log rev].
    apply stores_nothing_app; [apply stores_nothing_start | apply empties_spec; reflexivity].
Qed.

End OneRun.

End AftermathFacts.

Module PipelineFacts.

Import JS ColorFilters Generator Channel Spec ChannelFacts ParseFacts Tables Largest.
Import FilterProperties Extractor ExtractorFacts.
Import Integers IntegerTables StretchFacts BoostFacts.

Section WithDigits.

Variable toString_digits : number -> string.

(** The extractor returns a colour of integer channels in 0..255. *)
Lemma getBrightestColor_gamut (imageData : ImageData) :
  gamut_color (getBrightestColor toString_digits imageData).
Proof.
  rewrite getBrightestColor_rgbToString.
  destruct (scan_pixels_cases (data imageData)) as [[E _] | (p & _ & _ & E)]; rewrite E.
  - exists 0%Z, 0%Z, 0%Z. repeat split; unfold in_range; lia.
  - rewrite boosted_color.
    exists (boost_channel (byteZ (red p))), (boost_channel (byteZ (green p))),
           (boost_channel (byteZ (blue p))).
    repeat split; apply boost_range, byteZ_range.
Qed.

(** Every filter kind, the two pass-through ones included, maps a colour of
    integer channels in 0..255 to one. *)
Lemma applyColorFilter_gamut (color : string) (filter : FilterType)
    (previousColor : option string) :
  gamut_color color ->
  (forall p, previousColor = Some p -> channels_in_range p) ->
  gamut_color (applyColorFilter toString_digits color filter previousColor).
Proof.
  intros G Hp. assert (G' := G). destruct G' as (cr & cg & cb & Hr & Hg & Hb & E).
  unfold applyColorFilter.
  destruct (filter_gamut toString_digits cr cg cb (parsePrevious previousColor) Hr Hg Hb
              (parsePrevious_channels previousColor Hp))
    as (V & D & C & N & F).
  rewrite E, parseRGB_css by assumption. rewrite <- E.
  destruct filter; assumption.
Qed.

End WithDigits.

End PipelineFacts.

Module CleanupBehaviour.

Import JS ColorFilters Generator Channel Spec Loop Cell Run Scenario.
Import LoopFacts CellFacts RunFacts.
Import Page RunSteps PageFacts Errors ErrorFacts HookFacts Aftermath AftermathFacts PipelineFacts.
Local Open Scope nat_scope.
Local Open Scope list_scope.

(** X16: once the cleanup of the effect has run, the run winds down within
    one cell: after the cleanup it starts no further seek and no further
    wait, makes at most one render call and at most one progress update
    (those of the cell whose seek was pending), and the cleanup does not
    run again. *)
Theorem run_winds_down_after_cleanup
    (toString_digits : number -> string) (env : Env) (colorFilter : FilterType)
    (rows columns : nat) (pre post : list event) :
  trace (generateGrid toString_digits env colorFilter rows columns) = pre ++ Cleanup :: post ->
  (forall e, In e post -> is_wait e = false /\ is_cleanup e = false)
  /\ List.length (filter is_render post) <= 1
  /\ List.length (filter is_progress post) <= 1.
Proof.
  intros E.
  destruct (run_cleanup toString_digits env colorFilter rows columns)
    as [N | (a & b & Ht & Ha & Hb)].
  - exfalso. rewrite E in N. unfold no_cleanup in N. rewrite forallb_forall in N.
    assert (I : In Cleanup (pre ++ Cleanup :: post))
      by (apply in_or_app; right; left; reflexivity).
    specialize (N _ I). discriminate.
  - rewrite E in Ht. symmetry in Ht.
    destruct (split_unique a b pre post Ht Ha (winding_down_no_cleanup b Hb)) as [-> ->].
    unfold winding_down in Hb.
    apply andb_true_iff in Hb as [Hb H3]. apply andb_true_iff in Hb as [H1 H2].
    apply Nat.leb_le in H2, H3. rewrite forallb_forall in H1.
    repeat split; try assumption; specialize (H1 e H);
      destruct (is_cleanup e), (is_wait e); try discriminate; reflexivity.
Qed.

Lemma run_winds_down_after_cleanup_witness :
  (forall e,
      In e [SetColors []; Resume 1;
            ApplyColorFilter 0 "rgb(240, 60, 12)"%string None "rgb(255, 36, 7)"%string;
            FillHexagon 40%float 40%float "rgb(255, 36, 7)"%string;
            SetProgress 100%float; SetColors ["rgb(240, 60, 12)"%string]] ->
      is_wait e = false /\ is_cleanup e = false)
  /\ 1 <= 1 /\ 1 <= 1.
Proof.
  apply (run_winds_down_after_cleanup no_digits cancelled_run neon 1 1
           [SetProgress 0%float; SetError ""%string; SetColors []; Suspend 0; Resume 0;
            ClearCanvas; TestCancelled false; Seek 0 0 0 0%float; Suspend 1]).
  vm_compute. reflexivity.
Defined.

(** X17: only a run that went through every cell stores colours.  Whenever
    a run calls [setColors] with a non-empty array, that call is the last
    event of the run, the mode is not frame-based, and the array holds the
    extracted colours of all the cells; a run that ends early (an error, a
    seek that never settles, the flag read set) stores nothing but empty
    arrays. *)
Theorem only_a_completed_run_stores_colours
    (toString_digits : number -> string) (env : Env) (colorFilter : FilterType)
    (rows columns : nat) (pre post : list event) (cs : list string) :
  trace (generateGrid toString_digits env colorFilter rows columns)
  = pre ++ SetColors cs :: post ->
  cs <> [] ->
  post = [] /\ colorFilter <> frame_based
  /\ cs = raw_colors toString_digits env colorFilter rows columns (rows * columns).
Proof.
  intros E Hne.
  assert (I : In (SetColors cs) (pre ++ SetColors cs :: post))
    by (apply in_or_app; right; left; reflexivity).
  destruct (run_stores toString_digits env colorFilter rows columns)
    as [N | (F & a & Ht & Ha)].
  - exfalso. rewrite E in N. exact (Hne (N cs I)).
  - rewrite E in Ht.
    destruct post as [| p post] using rev_ind.
    + apply app_inj_tail in Ht as [_ Ht]. injection Ht as ->. repeat split. exact F.
    + exfalso. clear IHpost.
      change (pre ++ SetColors cs :: post ++ [p])
        with (pre ++ (SetColors cs :: post) ++ [p]) in Ht.
      rewrite app_assoc in Ht. apply app_inj_tail in Ht as [Ht _].
      apply Hne, Ha. rewrite <- Ht. apply in_or_app. right. left. reflexivity.
Qed.

Lemma only_a_completed_run_stores_colours_witness :
  @nil event = [] /\ neon <> frame_based
  /\ ["rgb(240, 60, 12)"%string] = raw_colors no_digits first_run neon 1 1 (1 * 1).
Proof.
  apply (only_a_completed_run_stores_colours no_digits first_run neon 1 1
           [SetProgress 0%float; SetError ""%string; SetColors []; Suspend 0; Resume 0;
            ClearCanvas; TestCancelled false; Seek 0 0 0 0%float; Suspend 1; Resume 1;
            ApplyColorFilter 0 "rgb(240, 60, 12)"%string None "rgb(255, 36, 7)"%string;
            FillHexagon 40%float 40%float "rgb(255, 36, 7)"%string;
            SetProgress 100%float]
           [] ["rgb(240, 60, 12)"%string]).
  - vm_compute. reflexivity.
  - discriminate.
Defined.

(** X18: every colour a run fills a hexagon with is a well-formed colour
    string of three integers in 0..255, whatever the frames of the video
    and the filter, provided the entries of the [colors] array that the
    effect closed over are colours with channels in 0..255 (as the
    extracted colours a run stores are). *)
Theorem every_fill_colour_is_in_gamut
    (toString_digits : number -> string) (env : Env) (colorFilter : FilterType)
    (rows columns : nat) (k : nat) (x y : number) (fillStyle : string) :
  (forall c, In c (Generator.colors env) -> channels_in_range c) ->
  nth_error (trace (generateGrid toString_digits env colorFilter rows columns)) k
  = Some (FillHexagon x y fillStyle) ->
  gamut_color fillStyle.
Proof.
  intros Hc Hk. apply nth_error_In in Hk.
  assert (V : In (FillHexagon x y fillStyle)
                (filter visible (trace (generateGrid toString_digits env colorFilter
                                          rows columns)))).
  { apply filter_In. split; [exact Hk | reflexivity]. }
  destruct (run_shown toString_digits env colorFilter rows columns) as (n & _ & E).
  rewrite E in V. apply in_shown in V as (i & _ & D); [| reflexivity].
  assert (P : forall p, previousColor env i = Some p -> channels_in_range p).
  { intros p Hp. apply Hc. destruct i as [| i]; [discriminate |].
    exact (nth_error_In _ _ Hp). }
  assert (G := applyColorFilter_gamut toString_digits
                 (getBrightestColor toString_digits
                    (capture env (sample_time env (rows * columns) i) 32))
                 colorFilter (previousColor env i)
                 (getBrightestColor_gamut toString_digits _) P).
  unfold Page.drawn in D.
  destruct colorFilter; try discriminate; injection D as _ _ ->; exact G.
Qed.

Lemma every_fill_colour_is_in_gamut_witness :
  gamut_color "rgb(179, 29, 43)"%string.
Proof.
  apply (every_fill_colour_is_in_gamut no_digits later_run gradient_flow 1 2 18
           100%float (40 * PrimFloat.sqrt 3 / 2 + 40)%float "rgb(179, 29, 43)").
  - intros c Hc. apply repeat_spec in Hc. rewrite Hc.
    exists 0%Z, 0%Z, 96%Z. repeat split; unfold in_range; lia.
  - vm_compute. reflexivity.
Defined.

End CleanupBehaviour.

(* ================================================================== *)
(** * The upload handler: properties *)
(* ================================================================== *)

Module UploadFacts.

Import App Uploads.
Local Open Scope list_scope.

Lemma prefix_append (p s : string) : String.prefix p s = true <-> exists rest, s = (p ++ rest)%string.
Proof.
  revert s. induction p as [| c p IH]; intros s.
  - split; [intros _; exists s; reflexivity | intros _; destruct s; reflexivity].
  - destruct s as [| d s]; cbn [String.prefix append];
      [split; [discriminate | intros [rest E]; discriminate] |].
    destruct (Ascii.ascii_dec c d) as [-> | N].
    + rewrite IH. split; intros [rest E]; exists rest; congruence.
    + split; [discriminate | intros [rest E]; congruence].
Qed.

Lemma startsWith_video (t : string) : startsWith t "video/" = true <-> video_type t.
Proof. apply prefix_append. Qed.

Lemma limit_bytes : (100 * 1024 * 1024 = size_limit)%N.
Proof. reflexivity. Qed.

Lemma changes_app (xs ys : list (option File * string)) (h : AppState) :
  changes (xs ++ ys) h
  = let (h1, calls1) := changes xs h in
    let (h2, calls2) := changes ys h1 in
    (h2, calls1 ++ calls2).
Proof.
  revert h. induction xs as [| [file url] xs IH]; intros h; cbn [app changes].
  - destruct (changes ys h). reflexivity.
  - destruct (handleFileChange url file h) as [h1 c1]. rewrite IH.
    destruct (changes xs h1) as [h2 c2]. destruct (changes ys h2) as [h3 c3].
    rewrite app_assoc. reflexivity.
Qed.

Lemma revoked_app (xs ys : list url_call) : revoked (xs ++ ys) = revoked xs ++ revoked ys.
Proof. apply flat_map_app. Qed.

Lemma created_app (xs ys : list url_call) : created (xs ++ ys) = created xs ++ created ys.
Proof. apply flat_map_app. Qed.

(** One change of the file input: what it does to the URL and which URLs it
    revokes and creates. *)
Lemma handleFileChange_urls (url : string) (file : option File) (h : AppState) :
  let (h', calls) := handleFileChange url file h in
  (videoUrl h' = videoUrl h /\ calls = [])
  \/ (videoUrl h' = "" /\ calls = [])
  \/ (videoUrl h' = url
      /\ created calls = [url]
      /\ revoked calls = match videoUrl h with EmptyString => [] | old => [old] end).
Proof.
  unfold handleFileChange. destruct file as [file |]; [| left; split; reflexivity].
  destruct (negb (startsWith (type file) "video/")); [right; left; split; reflexivity |].
  destruct (100 * 1024 * 1024 <? size file)%N; [right; left; split; reflexivity |].
  right. right. cbn [videoUrl]. destruct (videoUrl h); repeat split.
Qed.

(** After any sequence of changes: the URL held, unless empty, was created
    and not revoked; and what was revoked was created before. *)
Lemma changes_urls (evs : list (option File * string)) :
  NoDup (urls evs) -> ~ In "" (urls evs) ->
  let (h, calls) := changes evs no_video in
  incl (created calls) (urls evs)
  /\ incl (revoked calls) (created calls)
  /\ NoDup (revoked calls)
  /\ (videoUrl h = "" \/ (In (videoUrl h) (created calls) /\ ~ In (videoUrl h) (revoked calls))).
Proof.
  induction evs as [| [file url] evs IH] using rev_ind.
  - intros _ _. cbn. repeat split; try (intros x []); [constructor | left; reflexivity].
  - intros ND NE. unfold urls in *. rewrite map_app in ND, NE. cbn [map snd] in ND, NE.
    assert (ND' : NoDup (map snd evs)).
    { apply NoDup_remove_1 in ND. rewrite app_nil_r in ND. exact ND. }
    assert (Hu : ~ In url (map snd evs)).
    { apply NoDup_remove_2 in ND. rewrite app_nil_r in ND. exact ND. }
    assert (NE' : ~ In "" (map snd evs)).
    { intros H. apply NE, in_or_app. left. exact H. }
    assert (Hne : url <> "").
    { intros ->. apply NE, in_or_app. right. left. reflexivity. }
    specialize (IH ND' NE'). rewrite changes_app.
    destruct (changes evs no_video) as [h1 c1]. cbn [changes].
    destruct IH as (I1 & I2 & I3 & I4).
    assert (S := handleFileChange_urls url file h1).
    destruct (handleFileChange url file h1) as [h2 c2].
    rewrite app_nil_r, map_app. cbn [map snd].
    rewrite created_app, revoked_app.
    destruct S as [[E ->] | [[E ->] | (E & C & R)]].
    + cbn. rewrite !app_nil_r, E.
      repeat split; try assumption.
      intros x Hx. apply in_or_app. left. apply I1, Hx.
    + cbn. rewrite !app_nil_r, E.
      repeat split; try assumption; [| left; reflexivity].
      intros x Hx. apply in_or_app. left. apply I1, Hx.
    + rewrite C, R, E.
      assert (Hc : ~ In url (created c1)) by (intros H; apply Hu, I1, H).
      assert (Hr : ~ In url (revoked c1)) by (intros H; apply Hc, I2, H).
      split.
      { intros x Hx. apply in_app_or in Hx as [Hx | [<- | []]];
          apply in_or_app; [left; apply I1, Hx | right; left; reflexivity]. }
      destruct (videoUrl h1) as [| a old] eqn:V.
      * rewrite app_nil_r. repeat split.
        -- intros x Hx. apply in_or_app. left. apply I2, Hx.
        -- exact I3.
        -- right. split; [apply in_or_app; right; left; reflexivity | exact Hr].
      * destruct I4 as [I4 | [I4 I5]]; [discriminate |].
        repeat split.
        -- intros x Hx. apply in_or_app. left.
           apply in_app_or in Hx as [Hx | [<- | []]]; [apply I2, Hx | exact I4].
        -- apply NoDup_app; [exact I3 | repeat constructor; intros [] |].
           intros x Hx [<- | []]. exact (I5 Hx).
        -- right. split; [apply in_or_app; right; left; reflexivity |].
           intros Hx. apply in_app_or in Hx as [Hx | [Hx | []]]; [exact (Hr Hx) |].
           apply Hc. rewrite <- Hx. exact I4.
Qed.

End UploadFacts.

Module UploadBehaviour.

Import App Uploads UploadFacts.
Local Open Scope list_scope.

(** X19: a chosen file is accepted exactly when its MIME type starts with
    "video/" and its size is at most 100 * 1024 * 1024 = 104857600 bytes (a
    file of exactly that size is accepted, although the message says "less
    than").  An accepted file is stored with the URL created for it and the
    error is cleared.  A rejected file clears the selection and the URL and
    sets the error, the type being checked before the size; the handler
    then makes no call of the URL API, so the URL held before is dropped
    without being revoked. *)
Theorem upload_is_accepted_iff_video_within_limit (url : string) (file : File) (h : AppState) :
  let after := fst (handleFileChange url (Some file) h) in
  let calls := snd (handleFileChange url (Some file) h) in
  (videoFile after = Some file <-> video_type (type file) /\ (size file <= size_limit)%N)
  /\ (videoFile after = Some file <->
      videoUrl after = url /\ error after = ""%string /\ created calls = [url])
  /\ (videoFile after <> Some file <->
      videoFile after = None /\ videoUrl after = ""%string /\ calls = []
      /\ error after = if startsWith (type file) "video/"
                       then "Video file size must be less than 100MB"%string
                       else "Please upload a valid video file"%string).
Proof.
  cbv zeta. unfold handleFileChange.
  assert (V := startsWith_video (type file)). rewrite <- limit_bytes.
  destruct (startsWith (type file) "video/"); cbn [negb].
  - destruct (N.ltb_spec (100 * 1024 * 1024) (size file)) as [L | L]; cbn [fst snd videoFile videoUrl error].
    + repeat split; try discriminate; try tauto; try (intros (_ & H & _); discriminate);
        try (intros [_ H]; lia).
    + repeat split; try tauto; try (apply V; reflexivity); try exact L;
        try (rewrite created_app; destruct (videoUrl h); reflexivity);
        try (intros H _; apply H; reflexivity);
        try (intros (H & _); discriminate).
  - cbn [fst snd videoFile videoUrl error].
    repeat split; try discriminate; try tauto; try (intros (_ & H & _); discriminate);
      try (intros [H _]; apply V in H; discriminate).
Qed.

(** X20: the URL the page holds is never a revoked one.  Over any sequence
    of changes of the file input from the no_video state, when
    [URL.createObjectURL] hands out non-empty, pairwise distinct URLs:
    [videoUrl], which the generators load, is empty or a URL that the
    handler created and has not revoked; every URL the handler revokes is
    one it created; and none is revoked twice. *)
Theorem held_url_is_never_a_revoked_one (evs : list (option File * string)) :
  NoDup (urls evs) -> ~ In ""%string (urls evs) ->
  let after := fst (changes evs no_video) in
  let calls := snd (changes evs no_video) in
  (videoUrl after = ""%string
   \/ (In (videoUrl after) (created calls) /\ ~ In (videoUrl after) (revoked calls)))
  /\ incl (revoked calls) (created calls)
  /\ NoDup (revoked calls).
Proof.
  intros ND NE. assert (H := changes_urls evs ND NE). cbv zeta.
  destruct (changes evs no_video) as [h calls]. cbn [fst snd].
  destruct H as (_ & H2 & H3 & H4). repeat split; assumption.
Qed.

Lemma held_url_is_never_a_revoked_one_witness :
  fst (changes four_changes no_video)
  = mkAppState (Some (mkFile "d.mp4" "video/mp4" 3000)) "blob:4" ""
  /\ revoked (snd (changes four_changes no_video)) = ["blob:3"%string]
  /\ created (snd (changes four_changes no_video)) = ["blob:1"; "blob:3"; "blob:4"]%string
  /\ (videoUrl (fst (changes four_changes no_video)) = ""%string
      \/ (In (videoUrl (fst (changes four_changes no_video)))
              (created (snd (changes four_changes no_video)))
          /\ ~ In (videoUrl (fst (changes four_changes no_video)))
                  (revoked (snd (changes four_changes no_video))))).
Proof.
  split; [reflexivity |]. split; [reflexivity |]. split; [reflexivity |].
  apply (held_url_is_never_a_revoked_one four_changes).
  - repeat constructor; cbn; intuition discriminate.
  - cbn. intuition discriminate.
Defined.

End UploadBehaviour.
